(** * Adobe-Hackathon: outline extractor and persona-driven ranking

    A shallow embedding of [round1a/extract_outline.py]
    ([PDFOutlineExtractor]) and [round1b/document_intelligence.py]
    ([DocumentIntelligence]), and the properties of the two pipelines.

    Conventions of the embedding.
    - A Python [str] is a [string] whose characters are the code points
      U+0000..U+00FF, one [ascii] per code point; the character tables
      below ([isspace], [isdecimal], case) are Python's on that range.
    - A Python [float] is a rational ([Q]) that stands for the binary64
      number nearest to it. Where the code multiplies a size by a
      threshold and compares, the model rounds as IEEE 754 does, to the
      nearest binary64 number with ties to even ([Py.double],
      [Py.fmul]); the exponent range is not bounded, font sizes being far
      from overflow and underflow. Elsewhere sizes and scores are compared
      as the rationals they stand for; infinities and NaN are not
      modelled.
    - A Python [dict] with a fixed shape is a record; the dictionaries
      that the ranking step mutates ([del], item assignment) are [gmap]s.
    - [list.sort] is a stable sort, as Python documents it; the model is an
      insertion sort.
    - PyMuPDF, NLTK, the sentence encoder and scikit-learn are outside the
      repository: what they return is an input of the model. *)

From Stdlib Require Import ZArith QArith Qround Qabs Qpower Ascii String List Bool.
From Stdlib Require Import Lia Lqa Permutation Sorted.
From stdpp Require Import base gmap strings list.

Local Open Scope string_scope.
Local Open Scope Z_scope.

(* ===================================================================== *)
(** ** Python's [str] on code points below 256 *)
(* ===================================================================== *)

Module PyStr.

Definition ord (c : ascii) : N := N_of_ascii c.
Definition chr (n : N) : ascii := ascii_of_N n.

Definition between (lo hi : N) (c : ascii) : bool :=
  (N.leb lo (ord c) && N.leb (ord c) hi)%bool.

(** [str.isspace] for one character; also the regular expression [\s]
    and the separators of [str.split()] and [str.strip()]. *)
Definition isspace (c : ascii) : bool :=
  between 9 13 c || between 28 32 c || N.eqb (ord c) 133 || N.eqb (ord c) 160.

(** The regular expression [\d] on [str] patterns: decimal digits. *)
Definition isdecimal (c : ascii) : bool := between 48 57 c.

(** Characters with the Uppercase, resp. Lowercase, property. *)
Definition isupper_char (c : ascii) : bool :=
  between 65 90 c || between 192 214 c || between 216 222 c.

Definition islower_char (c : ascii) : bool :=
  between 97 122 c || N.eqb (ord c) 170 || N.eqb (ord c) 181
  || N.eqb (ord c) 186 || between 223 246 c || between 248 255 c.

Definition lower_char (c : ascii) : ascii :=
  if isupper_char c then chr (ord c + 32) else c.

(** [s.lower()] *)
Fixpoint lower (s : string) : string :=
  match s with
  | EmptyString => EmptyString
  | String c r => String (lower_char c) (lower r)
  end.

Fixpoint forallb_str (p : ascii -> bool) (s : string) : bool :=
  match s with
  | EmptyString => true
  | String c r => p c && forallb_str p r
  end.

Fixpoint existsb_str (p : ascii -> bool) (s : string) : bool :=
  match s with
  | EmptyString => false
  | String c r => p c || existsb_str p r
  end.

(** [s.isupper()]: no lowercase character and at least one uppercase one. *)
Definition isupper (s : string) : bool :=
  forallb_str (fun c => negb (islower_char c)) s && existsb_str isupper_char s.

(** [len(s)] *)
Definition len (s : string) : Z := Z.of_nat (String.length s).

(** [s.startswith(p)] *)
Fixpoint startswith (s p : string) : bool :=
  match p, s with
  | EmptyString, _ => true
  | String a p', String b s' => Ascii.eqb a b && startswith s' p'
  | String _ _, EmptyString => false
  end.

(** [p in s] *)
Fixpoint contains (s p : string) : bool :=
  startswith s p ||
  match s with
  | EmptyString => false
  | String _ r => contains r p
  end.

Fixpoint drop (n : nat) (s : string) : string :=
  match n, s with
  | O, _ => s
  | S n', String _ r => drop n' r
  | S _, EmptyString => EmptyString
  end.

(** [s.count(p)] for a non-empty [p]: occurrences that do not overlap,
    scanning from the left. *)
Fixpoint count_from (fuel : nat) (s p : string) : Z :=
  match fuel with
  | O => 0
  | S fuel' =>
      match s with
      | EmptyString => 0
      | String _ r =>
          if startswith s p
          then 1 + count_from fuel' (drop (String.length p) s) p
          else count_from fuel' r p
      end
  end.

Definition count (s p : string) : Z := count_from (String.length s) s p.

Fixpoint rev_str (acc s : string) : string :=
  match s with
  | EmptyString => acc
  | String c r => rev_str (String c acc) r
  end.

Definition reverse (s : string) : string := rev_str EmptyString s.

(** [s.endswith(p)] *)
Definition endswith (s p : string) : bool :=
  startswith (reverse s) (reverse p).

(** [s.lstrip()], [s.rstrip()], [s.strip()] *)
Fixpoint lstrip (s : string) : string :=
  match s with
  | EmptyString => EmptyString
  | String c r => if isspace c then lstrip r else s
  end.

Definition rstrip (s : string) : string := reverse (lstrip (reverse s)).

Definition strip (s : string) : string := rstrip (lstrip s).

(** [s.split()]: the maximal runs of characters that are not white
    space, in order. [cur] is the run being read, reversed. *)
Fixpoint split_from (cur : string) (s : string) : list string :=
  match s with
  | EmptyString =>
      match cur with
      | EmptyString => []
      | _ => [reverse cur]
      end
  | String c r =>
      if isspace c
      then match cur with
           | EmptyString => split_from EmptyString r
           | _ => reverse cur :: split_from EmptyString r
           end
      else split_from (String c cur) r
  end.

Definition split (s : string) : list string := split_from EmptyString s.

(** [sep.join(parts)] *)
Fixpoint join (sep : string) (parts : list string) : string :=
  match parts with
  | [] => EmptyString
  | [p] => p
  | p :: rest => p ++ sep ++ join sep rest
  end.

(** [s[:n]] for [n >= 0] *)
Definition prefix (n : nat) (s : string) : string := String.substring 0 n s.

(** A string is true when it is not empty. *)
Definition truthy (s : string) : bool :=
  match s with
  | EmptyString => false
  | String _ _ => true
  end.

End PyStr.

(* ===================================================================== *)
(** ** The fragment of [re] that the extractor uses *)
(* ===================================================================== *)

(** Every pattern of the source is a sequence of character classes, each
  with a quantifier, possibly closed by [$]; its groups only capture. A
  pattern is matched at the start of the text, as [re.match] and a
  leading [^] do, greedily and with backtracking. *)

Module Re.

Inductive quant : Type := One | Opt | Star | Plus.

Inductive item : Type :=
| Cls (c : ascii -> bool) (q : quant)
| Dollar.

(** [.] matches anything but a newline. *)
Definition dot (c : ascii) : bool := negb (N.eqb (PyStr.ord c) 10).

Definition lit (x : string) (c : ascii) : bool :=
  PyStr.existsb_str (Ascii.eqb c) x.

(** [$] without [re.MULTILINE]: the end of the text, or just before a
    newline that ends it. *)
Definition at_end (s : string) : bool :=
  match s with
  | EmptyString => true
  | String c EmptyString => N.eqb (PyStr.ord c) 10
  | _ => false
  end.

(** [star c k s]: consume as many [c] as possible, then continue with
    [k]; give characters back while [k] fails. *)
Fixpoint star (c : ascii -> bool) (k : string -> option string) (s : string)
  : option string :=
  match s with
  | String a r =>
      if c a
      then match star c k r with
           | Some rest => Some rest
           | None => k s
           end
      else k s
  | EmptyString => k s
  end.

(** [run its s]: the text left after the first match of [its] at the
    start of [s], in the order a backtracking matcher finds it. *)
Fixpoint run (its : list item) (s : string) : option string :=
  match its with
  | [] => Some s
  | Dollar :: rest => if at_end s then run rest s else None
  | Cls c One :: rest =>
      match s with
      | String a r => if c a then run rest r else None
      | EmptyString => None
      end
  | Cls c Opt :: rest =>
      match s with
      | String a r =>
          if c a
          then match run rest r with
               | Some x => Some x
               | None => run rest s
               end
          else run rest s
      | EmptyString => run rest s
      end
  | Cls c Star :: rest => star c (run rest) s
  | Cls c Plus :: rest =>
      match s with
      | String a r => if c a then star c (run rest) r else None
      | EmptyString => None
      end
  end.

(** [re.match(p, s)] as a truth value. *)
Definition matches (its : list item) (s : string) : bool :=
  match run its s with
  | Some _ => true
  | None => false
  end.

(** [re.sub(p, '', s)] for a pattern that starts with [^] and cannot
    match the empty string: only a match at the start is removed. *)
Definition sub_prefix (its : list item) (s : string) : string :=
  match run its s with
  | Some rest => rest
  | None => s
  end.

End Re.

(* ===================================================================== *)
(** ** Exceptions and the built-ins shared by both programs *)
(* ===================================================================== *)

Module Py.

(** The exceptions the modelled code can meet: [text[0]] on an empty
    string, and a failure reported by PyMuPDF. Both are [Exception]s. *)
Inductive exn : Type :=
| IndexError
| FitzError (msg : string).

Inductive result (A : Type) : Type :=
| Ok (a : A)
| Raise (e : exn).
Arguments Ok {A} a.
Arguments Raise {A} e.

Definition bind {A B : Type} (m : result A) (f : A -> result B) : result B :=
  match m with
  | Ok a => f a
  | Raise e => Raise e
  end.

(** A [for] loop whose body may raise: the first exception ends it. *)
Fixpoint for_each {S A : Type} (body : S -> A -> result S) (l : list A) (s : S)
  : result S :=
  match l with
  | [] => Ok s
  | a :: r => bind (body s a) (for_each body r)
  end.

(** [try: ... except Exception: handler] *)
Definition try_except {A : Type} (m : result A) (handler : exn -> A) : A :=
  match m with
  | Ok a => a
  | Raise e => handler e
  end.

Definition Qltb (x y : Q) : bool := negb (Qle_bool y x).

(** *** Binary64 arithmetic

    A [float] of the program is a binary64 number. [double x] is the
    binary64 number nearest to the rational [x], halves going to the even
    significand, as the conversion of a literal and every arithmetic
    operation round; the exponent is not bounded. *)

(** The integer nearest to [x], halves to the even neighbour. *)
Definition rne (x : Q) : Z :=
  let f := Qfloor x in
  let r := (x - inject_Z f)%Q in
  if Qltb r (1#2) then f
  else if Qltb (1#2) r then f + 1
  else if Z.even f then f else f + 1.

(** The binary exponent of a positive [x]: [2^e <= x < 2^(e+1)]. *)
Definition exponent (x : Q) : Z :=
  let e0 := Z.log2 (Qnum x) - Z.log2 (Z.pos (Qden x)) in
  if Qle_bool (2 ^ e0) x then e0 else e0 - 1.

(** A significand of 53 bits at the exponent of [x]. *)
Definition double (x : Q) : Q :=
  if Qeq_bool x 0 then 0%Q
  else
    let a := Qabs x in
    let e := exponent a - 52 in
    let m := (inject_Z (rne (a / 2 ^ e)) * 2 ^ e)%Q in
    if Qltb x 0 then (- m)%Q else m.

(** [x * y] on floats: the product of the two binary64 numbers, rounded. *)
Definition fmul (x y : Q) : Q := double (double x * double y).

(** The largest relative distance between a number and the binary64 number
    nearest to it. *)
Definition half_ulp : Q := (2 ^ (-53))%Q.

(** [max(l, key=key)] on a non-empty list [x :: l]: the first element
    whose key is largest. *)
Fixpoint max_by {A : Type} (key : A -> Z) (x : A) (l : list A) : A :=
  match l with
  | [] => x
  | y :: r => max_by key (if key x <? key y then y else x) r
  end.

(** [l.sort(key=key)]: Python's sort is stable. [lt a b] says that the
    key of [a] is below the key of [b]; [reverse=True] is the same sort
    with [lt] flipped, equal keys keeping their order in both cases. *)
Section Sort.
Context {A : Type} (lt : A -> A -> bool).

Fixpoint insert (x : A) (l : list A) : list A :=
  match l with
  | [] => [x]
  | y :: r => if lt y x then y :: insert x r else x :: y :: r
  end.

Fixpoint sort (l : list A) : list A :=
  match l with
  | [] => []
  | x :: r => insert x (sort r)
  end.
End Sort.

(** [round(x, 1)]: to one decimal, halves to the even neighbour. *)
Definition round1 (x : Q) : Q :=
  let n := (Qnum x * 10)%Z in
  let d := Z.pos (Qden x) in
  let f := (n / d)%Z in
  let r := (2 * (n mod d))%Z in
  let k := if r <? d then f
           else if d <? r then (f + 1)%Z
           else if Z.even f then f else (f + 1)%Z in
  Qmake k 10.

(** [s.replace(old, new)] for a non-empty [old]. *)
Fixpoint replace_from (fuel : nat) (s old new : string) : string :=
  match fuel with
  | O => s
  | S fuel' =>
      match s with
      | EmptyString => EmptyString
      | String c r =>
          if PyStr.startswith s old
          then new ++ replace_from fuel' (PyStr.drop (String.length old) s) old new
          else String c (replace_from fuel' r old new)
      end
  end.

Definition replace (s old new : string) : string :=
  replace_from (String.length s) s old new.

(** [os.path.join(a, b)] on POSIX. *)
Definition path_join (a b : string) : string :=
  if PyStr.startswith b "/" then b
  else if negb (PyStr.truthy a) || PyStr.endswith a "/" then a ++ b
  else a ++ "/" ++ b.

(** [str(n)] for the integers the code prints into a string. *)
Definition digit (n : Z) : string :=
  String (PyStr.chr (Z.to_N (48 + n))) EmptyString.

Fixpoint str_nat (fuel : nat) (n : Z) : string :=
  match fuel with
  | O => digit (n mod 10)
  | S fuel' => if n <? 10 then digit n else str_nat fuel' (n / 10) ++ digit (n mod 10)
  end.

Definition str_int (n : Z) : string :=
  if n <? 0 then "-" ++ str_nat (Z.to_nat (- n)) (- n) else str_nat (Z.to_nat n) n.

End Py.

Import Py.

(** [result] is a monad: stdpp's [x ← m; k] sequences statements that
  may raise. *)
#[global] Instance result_ret : MRet result := @Ok.
#[global] Instance result_bind : MBind result := fun A B f m => Py.bind m f.

(* ===================================================================== *)
(** ** What PyMuPDF hands over *)
(* ===================================================================== *)

Module Fitz.

(** A span of [page.get_text("dict")]. *)
Record span : Type := {
  span_text : string;
  span_font : string;
  span_size : Q;
  span_flags : Z
}.

Definition bbox : Type := Q * Q * Q * Q.

Record line : Type := {
  line_bbox : bbox;
  spans : list span
}.

(** A block of the page dictionary: type 0 is text, anything else (an
    image) has no lines to read. *)
Record dict_block : Type := {
  block_type : Z;
  block_bbox : bbox;
  lines : list line
}.

(** A page: its 0-based [number] and what [get_text("dict")] gives under
    ["blocks"], unless it raises. *)
Record pdf_page : Type := {
  number : Z;
  get_text : result (list dict_block)
}.

(** [flags & 2**4], as a truth value: the bold bit. *)
Definition bold_flag (sp : span) : bool :=
  negb (Z.land (span_flags sp) (2 ^ 4) =? 0).

End Fitz.

Import Fitz.

(* ===================================================================== *)
(** ** round1a/extract_outline.py: [PDFOutlineExtractor] *)
(* ===================================================================== *)

Module PDFOutlineExtractor.

(** *** The extractor's own data *)

(** ["info"] of a block has the two keys of a line, ["bbox"] and
    ["spans"]. *)
Record block : Type := {
  text : string;
  info : line;
  page : Z
}.

Record font_statistics : Type := {
  body_size : Q;
  sizes : list Q;
  size_distribution : list (Q * Z)
}.

Record heading : Type := {
  h_level : string;
  h_text : string;
  h_page : Z
}.

Record outline_result : Type := {
  title : string;
  outline : list heading
}.

(** *** [__init__]: [self.heading_patterns] *)

Record pattern : Type := {
  source : string;
  items : list Re.item
}.

Definition ws : ascii -> bool := PyStr.isspace.
Definition digit : ascii -> bool := PyStr.isdecimal.
Definition period : ascii -> bool := Re.lit ".".

Definition pat_n : pattern := {|
  source := "^\s*(\d+\.?)\s+(.+)$";
  items := [Re.Cls ws Re.Star; Re.Cls digit Re.Plus; Re.Cls period Re.Opt;
            Re.Cls ws Re.Plus; Re.Cls Re.dot Re.Plus; Re.Dollar]
|}.

Definition pat_n_n : pattern := {|
  source := "^\s*(\d+\.\d+\.?)\s+(.+)$";
  items := [Re.Cls ws Re.Star; Re.Cls digit Re.Plus; Re.Cls period Re.One;
            Re.Cls digit Re.Plus; Re.Cls period Re.Opt;
            Re.Cls ws Re.Plus; Re.Cls Re.dot Re.Plus; Re.Dollar]
|}.

Definition pat_n_n_n : pattern := {|
  source := "^\s*(\d+\.\d+\.\d+\.?)\s+(.+)$";
  items := [Re.Cls ws Re.Star; Re.Cls digit Re.Plus; Re.Cls period Re.One;
            Re.Cls digit Re.Plus; Re.Cls period Re.One;
            Re.Cls digit Re.Plus; Re.Cls period Re.Opt;
            Re.Cls ws Re.Plus; Re.Cls Re.dot Re.Plus; Re.Dollar]
|}.

Definition pat_letter : pattern := {|
  source := "^\s*([A-Z]\.?)\s+(.+)$";
  items := [Re.Cls ws Re.Star; Re.Cls (PyStr.between 65 90) Re.One;
            Re.Cls period Re.Opt;
            Re.Cls ws Re.Plus; Re.Cls Re.dot Re.Plus; Re.Dollar]
|}.

Definition pat_roman : pattern := {|
  source := "^\s*([IVX]+\.?)\s+(.+)$";
  items := [Re.Cls ws Re.Star; Re.Cls (Re.lit "IVX") Re.Plus;
            Re.Cls period Re.Opt;
            Re.Cls ws Re.Plus; Re.Cls Re.dot Re.Plus; Re.Dollar]
|}.

Definition numbered : list pattern :=
  [pat_n; pat_n_n; pat_n_n_n; pat_letter; pat_roman].

Definition keywords : list string :=
  ["introduction"; "conclusion"; "abstract"; "summary";
   "chapter"; "section"; "overview"; "background";
   "methodology"; "results"; "discussion"; "references"].

(** *** [extract_text_with_formatting] *)

Definition line_text (ln : line) : string :=
  fold_left (fun acc sp => acc ++ span_text sp) (spans ln) "".

Definition line_info (ln : line) : line := {|
  line_bbox := line_bbox ln;
  spans := map (fun sp => {| span_text := span_text sp;
                             span_font := span_font sp;
                             span_size := round1 (span_size sp);
                             span_flags := span_flags sp |}) (spans ln)
|}.

(** The body of the loop over the lines of a text block. *)
Definition read_line (pg : pdf_page) (blocks : list block) (ln : line)
  : list block :=
  if PyStr.truthy (PyStr.strip (line_text ln))
  then (blocks ++ [ {| text := PyStr.strip (line_text ln);
                       info := line_info ln;
                       page := number pg + 1 |} ])%list
  else blocks.

Definition read_block (pg : pdf_page) (blocks : list block) (b : dict_block)
  : list block :=
  if block_type b =? 0 then fold_left (read_line pg) (lines b) blocks
  else blocks.

Definition extract_text_with_formatting (pg : pdf_page) : result (list block) :=
  text_dict ← get_text pg;
  Ok (fold_left (read_block pg) text_dict []).

(** *** [calculate_font_statistics] *)

(** [font_sizes[size] += n] on a [defaultdict(int)], kept in insertion
    order. *)
Fixpoint add_count (size : Q) (n : Z) (d : list (Q * Z)) : list (Q * Z) :=
  match d with
  | [] => [(size, 0 + n)]
  | (k, v) :: r =>
      if Qeq_bool k size then (k, v + n) :: r
      else (k, v) :: add_count size n r
  end.

Definition count_block (font_sizes : list (Q * Z)) (b : block) : list (Q * Z) :=
  fold_left (fun d sp => add_count (span_size sp) (PyStr.len (span_text sp)) d)
            (spans (info b)) font_sizes.

Definition calculate_font_statistics (blocks : list block)
  : option font_statistics :=
  match fold_left count_block blocks [] with
  | [] => None
  | first :: rest =>
      Some {| body_size := fst (max_by snd first rest);
              sizes := sort (fun a b => Qltb b a) (map fst (first :: rest));
              size_distribution := first :: rest |}
  end.

(** *** [is_likely_heading] *)

(** The level a matching pattern stands for, read off its source text. *)
Definition pattern_level (p : pattern) : Z :=
  if negb (PyStr.contains (source p) ".") || (PyStr.count (source p) "\." =? 1)
  then 1
  else if PyStr.count (source p) "\." =? 2 then 2
  else 3.

Definition main_span (first : span) (rest : list span) : span :=
  max_by (fun x => PyStr.len (span_text x)) first rest.

Definition is_bold (sp : span) : bool := bold_flag sp.

Definition has_keyword (t : string) : bool :=
  existsb (fun kw => PyStr.contains (PyStr.lower t) kw) keywords.

(** [font_size > body * 1.5], [font_size > body * 1.3]: the products are
    binary64 products. *)
Definition size_level (font_size body : Q) : Z :=
  if Qltb (fmul body 1.5) (double font_size) then 1
  else if Qltb (fmul body 1.3) (double font_size) then 2
  else 3.

Definition is_likely_heading (b : block) (font_stats : option font_statistics)
  : result (bool * Z) :=
  if 200 <? PyStr.len (text b) then Ok (false, 0)
  else
    match find (fun p => Re.matches (items p) (text b)) numbered with
    | Some p => Ok (true, pattern_level p)
    | None =>
        match font_stats, spans (info b) with
        | Some stats, first :: rest =>
            let ms := main_span first rest in
            let font_size := span_size ms in
            if Qltb (fmul (body_size stats) 1.2) (double font_size)
               || is_bold ms then
              let level := size_level font_size (body_size stats) in
              if Z.of_nat (length (PyStr.split (text b))) <=? 10 then
                if has_keyword (text b) || is_bold ms || PyStr.isupper (text b)
                then Ok (true, level)
                else
                  match text b with
                  | EmptyString => Raise IndexError
                  | String c _ =>
                      if PyStr.isupper_char c && negb (PyStr.endswith (text b) ".")
                      then Ok (true, level)
                      else Ok (false, 0)
                  end
              else Ok (false, 0)
            else Ok (false, 0)
        | _, _ => Ok (false, 0)
        end
    end.

(** *** [extract_title] *)

Definition title_step (st : Q * option string) (b : block) : Q * option string :=
  match spans (info b) with
  | first :: rest =>
      let ms := main_span first rest in
      if Qltb (fst st) (span_size ms) && (PyStr.len (text b) <? 150)
      then (span_size ms, Some (text b))
      else st
  | [] => st
  end.

Definition extract_title (blocks first_page_blocks : list block) : string :=
  match first_page_blocks with
  | [] => "Untitled Document"
  | _ =>
      match snd (fold_left title_step (firstn 10 first_page_blocks) (0%Q, None)) with
      | Some t => if PyStr.truthy t then t else "Untitled Document"
      | None => "Untitled Document"
      end
  end.

(** *** [process_pdf] *)

(** The class of [r'^\s*[\d\.\-\â€¢\*]+\s*'] as the source file spells
    it: digits, [.], [-], [*], and the three characters U+00E2, U+20AC
    and U+00A2. U+20AC is not a character of the model. *)
Definition numbering_char (c : ascii) : bool :=
  PyStr.isdecimal c || Re.lit ".-*" c
  || N.eqb (PyStr.ord c) 226 || N.eqb (PyStr.ord c) 162.

Definition clean_items : list Re.item :=
  [Re.Cls ws Re.Star; Re.Cls numbering_char Re.Plus; Re.Cls ws Re.Star].

Definition clean_heading (t : string) : string :=
  PyStr.strip (Re.sub_prefix clean_items t).

(** The body of the loop over [all_blocks]; the state is [headings] and
    [seen_headings]. *)
Definition heading_step (font_stats : option font_statistics)
    (st : list heading * gset string) (b : block)
  : result (list heading * gset string) :=
  '(is_heading, level) ← is_likely_heading b font_stats;
  if is_heading : bool then
    let heading_text := clean_heading (text b) in
    if PyStr.truthy heading_text && negb (bool_decide (heading_text ∈ snd st))
    then Ok ((fst st ++ [ {| h_level := "H" ++ str_int level;
                            h_text := heading_text;
                            h_page := page b |} ])%list,
             {[ heading_text ]} ∪ snd st)
    else Ok st
  else Ok st.

Definition read_page (all_blocks : list block) (pg : pdf_page)
  : result (list block) :=
  blocks ← extract_text_with_formatting pg;
  Ok (all_blocks ++ blocks)%list.

Definition error_result : outline_result := {|
  title := "Error Processing Document";
  outline := []
|}.

Section WithFiles.

(** [fitz.open]: the pages of the document at a path, or an
    exception. *)
Variable fitz_open : string -> result (list pdf_page).

Definition process_pdf_body (pdf_path : string) : result outline_result :=
  doc ← fitz_open pdf_path;
  all_blocks ← for_each read_page doc [];
  let font_stats := calculate_font_statistics all_blocks in
  let first_page_blocks := List.filter (fun b => page b =? 1) all_blocks in
  let title := extract_title all_blocks first_page_blocks in
  st ← for_each (heading_step font_stats) all_blocks ([], ∅);
  Ok {| title := title;
        outline := sort (fun a b => h_page a <? h_page b) (fst st) |}.

Definition process_pdf (pdf_path : string) : outline_result :=
  try_except (process_pdf_body pdf_path) (fun _ => error_result).

(** *** [process_directory] *)

(** The loop over [os.listdir(input_dir)]; the state is the sequence
    of files written so far, each with the result dumped into it. *)
Definition directory_step (input_dir output_dir : string)
    (written : list (string * outline_result)) (filename : string)
  : list (string * outline_result) :=
  if PyStr.endswith (PyStr.lower filename) ".pdf" then
    let pdf_path := path_join input_dir filename in
    let output_path := path_join output_dir (replace filename ".pdf" ".json") in
    (written ++ [(output_path, process_pdf pdf_path)])%list
  else written.

Definition process_directory (input_dir output_dir : string)
    (listdir : list string) : list (string * outline_result) :=
  fold_left (directory_step input_dir output_dir) listdir [].

End WithFiles.


End PDFOutlineExtractor.

(* ===================================================================== *)
(** ** round1b/document_intelligence.py: [DocumentIntelligence] *)
(* ===================================================================== *)

Module DocumentIntelligence.

(** *** Data *)

Record subsection : Type := {
  sub_text : string;
  summary : string
}.

Record section : Type := {
  title : string;
  page : Z;
  content : string;
  subsections : list subsection
}.

(** The values of the dictionaries that are ranked and written out. *)
Inductive value : Type :=
| VStr (s : string)
| VInt (n : Z)
| VFloat (x : Q).

Record config : Type := {
  documents : list string;
  persona : string;
  job_to_be_done : string
}.

Record metadata : Type := {
  input_documents : list string;
  md_persona : string;
  md_job_to_be_done : string;
  processing_timestamp : string
}.

Record output : Type := {
  out_metadata : metadata;
  extracted_sections : list (gmap string value);
  subsection_analysis : list (gmap string value)
}.

(** An embedding: a numpy vector. [0.7 * v] and [v + w] act on every
    component. *)
Definition vec : Type := list Q.
Definition vscale (a : Q) (v : vec) : vec := map (Qmult a) v.
Definition vadd (v w : vec) : vec := zip_with Qplus v w.

(** [os.path.basename] on POSIX: what follows the last [/]. *)
Fixpoint basename_from (cur : string) (s : string) : string :=
  match s with
  | EmptyString => PyStr.reverse cur
  | String c r =>
      if Ascii.eqb c "/" then basename_from EmptyString r
      else basename_from (String c cur) r
  end.

Definition basename (p : string) : string := basename_from EmptyString p.

(** [enumerate(l)] *)
Definition enumerate {A : Type} (l : list A) : list (Z * A) :=
  combine (map Z.of_nat (seq 0 (length l))) l.

(** [\w] on [str] patterns: alphanumeric characters and [_]. *)
Definition word_char (c : ascii) : bool :=
  PyStr.between 48 57 c || PyStr.between 65 90 c || PyStr.between 97 122 c
  || N.eqb (PyStr.ord c) 95 || N.eqb (PyStr.ord c) 170
  || PyStr.between 178 179 c || N.eqb (PyStr.ord c) 181
  || PyStr.between 185 186 c || PyStr.between 188 190 c
  || PyStr.between 192 214 c || PyStr.between 216 246 c
  || PyStr.between 248 255 c.

(** [r'^\d+\.?\s+\w+'] *)
Definition numbered_header : list Re.item :=
  [Re.Cls PyStr.isdecimal Re.Plus; Re.Cls (Re.lit ".") Re.Opt;
   Re.Cls PyStr.isspace Re.Plus; Re.Cls word_char Re.Plus].

Definition header_keywords : list string :=
  ["chapter"; "section"; "introduction"; "conclusion"].

(** [np.mean] of a list that is not empty. *)
Definition mean (l : list Q) : Q :=
  (fold_left Qplus l 0 / inject_Z (Z.of_nat (length l)))%Q.

Section WithProviders.

(** NLTK's sentence splitter, the sentence encoder, scikit-learn's
    cosine similarity of two vectors, PyMuPDF's [fitz.open] and the
    clock. *)
Variable sent_tokenize : string -> list string.
Variable encode : string -> vec.
Variable cosine_similarity : vec -> vec -> Q.
Variable fitz_open : string -> result (list pdf_page).
Variable now_isoformat : string.

(** *** [generate_summary] *)

Definition generate_summary (text : string) : string :=
  if Z.of_nat (length (PyStr.split text)) <=? 30 then text
  else
    let sentences := sent_tokenize text in
    if Z.of_nat (length sentences) <=? 2 then text
    else match sentences with
         | first :: _ => first
         | [] => text
         end.

(** *** [extract_subsections] *)

(** [para_text] becomes a subsection when it has more than 10 words. *)
Definition keep_paragraph (subs : list subsection) (current_para : list string)
  : list subsection :=
  let para_text := PyStr.join " " current_para in
  if 10 <? Z.of_nat (length (PyStr.split para_text))
  then (subs ++ [ {| sub_text := para_text;
                     summary := generate_summary para_text |} ])%list
  else subs.

(** The body of the loop over the sentences; the state is
    [subsections] and [current_para]. *)
Definition sentence_step (st : list subsection * list string) (sent : string)
  : list subsection * list string :=
  let current_para := (snd st ++ [sent])%list in
  if (3 <=? Z.of_nat (length current_para))
     || PyStr.endswith sent ":"
     || (200 <? PyStr.len (PyStr.join " " current_para))
  then (match current_para with
        | [] => fst st
        | _ => keep_paragraph (fst st) current_para
        end, [])
  else (fst st, current_para).

Definition extract_subsections (content : string) : list subsection :=
  let st := fold_left sentence_step (sent_tokenize content) ([], []) in
  match snd st with
  | [] => fst st
  | _ => keep_paragraph (fst st) (snd st)
  end.

(** *** [extract_document_structure] *)

Definition block_text (b : dict_block) : string :=
  fold_left (fun acc ln => fold_left (fun acc' sp => acc' ++ span_text sp)
                                     (spans ln) acc) (lines b) "".

Definition block_font_sizes (b : dict_block) : list Q :=
  flat_map (fun ln => map span_size (spans ln)) (lines b).

Definition block_is_bold (b : dict_block) : bool :=
  existsb (fun ln => existsb bold_flag (spans ln)) (lines b).

Definition is_header (b : dict_block) (t : string) : bool :=
  let font_sizes := block_font_sizes b in
  let avg_font_size := match font_sizes with [] => 0%Q | _ => mean font_sizes end in
  (Qltb 12 avg_font_size && (PyStr.len t <? 100))
  || block_is_bold b
  || Re.matches numbered_header t
  || existsb (fun kw => PyStr.contains (PyStr.lower t) kw) header_keywords.

(** The body of the loop over the blocks of page [page_num]; the state
    is [sections] and [current_section]. *)
Definition segment_block (page_num : Z)
    (st : list section * option section) (b : dict_block)
  : list section * option section :=
  if block_type b =? 0 then
    let t := PyStr.strip (block_text b) in
    if PyStr.truthy t then
      if is_header b t && (Z.of_nat (length (PyStr.split t)) <? 15) then
        (match snd st with
         | Some cur => (fst st ++ [cur])%list
         | None => fst st
         end,
         Some {| title := t; page := page_num + 1; content := "";
                 subsections := [] |})
      else
        match snd st with
        | Some cur =>
            (fst st, Some {| title := title cur; page := page cur;
                             content := content cur ++ " " ++ t;
                             subsections := subsections cur |})
        | None =>
            (fst st, Some {| title := "Page " ++ str_int (page_num + 1);
                             page := page_num + 1; content := t;
                             subsections := [] |})
        end
    else st
  else st.

Definition segment_page (st : list section * option section)
    (p : Z * pdf_page) : result (list section * option section) :=
  text_dict ← get_text (snd p);
  Ok (fold_left (segment_block (fst p)) text_dict st).

Definition extract_document_structure (pdf_path : string)
  : result (list section) :=
  doc ← fitz_open pdf_path;
  st ← for_each segment_page (enumerate doc) ([], None);
  let sections := match snd st with
                  | Some cur => (fst st ++ [cur])%list
                  | None => fst st
                  end in
  Ok (map (fun s => {| title := title s; page := page s;
                       content := content s;
                       subsections := extract_subsections (content s) |})
          sections).

(** *** [calculate_relevance] *)

Definition calculate_relevance
    (section_embedding query_embedding persona_embedding : vec) : Q :=
  let combined_embedding :=
    vadd (vscale 0.7 query_embedding) (vscale 0.3 persona_embedding) in
  cosine_similarity section_embedding combined_embedding.

(** *** [process_documents] *)

Definition content_preview (c : string) : string :=
  if 200 <? PyStr.len c then PyStr.prefix 200 c ++ "..." else c.

Definition section_text (s : section) : string :=
  title s ++ " " ++ PyStr.prefix 500 (content s).

Definition section_record (doc_name : string) (s : section) (relevance : Q)
  : gmap string value :=
  <[ "document" := VStr doc_name ]>
  (<[ "page" := VInt (page s) ]>
  (<[ "title" := VStr (title s) ]>
  (<[ "relevance" := VFloat relevance ]>
  (<[ "content_preview" := VStr (content_preview (content s)) ]> ∅)))).

Definition subsection_record (doc_name : string) (s : section) (idx : Z)
    (sub : subsection) (relevance : Q) : gmap string value :=
  <[ "document" := VStr doc_name ]>
  (<[ "section_title" := VStr (title s) ]>
  (<[ "page" := VInt (page s) ]>
  (<[ "subsection_idx" := VInt idx ]>
  (<[ "refined_text" := VStr (summary sub) ]>
  (<[ "relevance" := VFloat relevance ]> ∅))))).

Definition pool : Type := list (gmap string value) * list (gmap string value).

(** The body of the loop over the subsections of a section. *)
Definition score_subsection (doc_name : string) (s : section)
    (job_embedding persona_embedding : vec)
    (all_subsections : list (gmap string value)) (p : Z * subsection)
  : list (gmap string value) :=
  let subsection_embedding := encode (summary (snd p)) in
  let sub_relevance :=
    calculate_relevance subsection_embedding job_embedding persona_embedding in
  (all_subsections ++
     [subsection_record doc_name s (fst p) (snd p) sub_relevance])%list.

(** The body of the loop over the sections of a document; the state is
    [all_sections] and [all_subsections]. *)
Definition score_section (doc_name : string)
    (job_embedding persona_embedding : vec) (st : pool) (s : section) : pool :=
  let section_embedding := encode (section_text s) in
  let relevance :=
    calculate_relevance section_embedding job_embedding persona_embedding in
  ((fst st ++ [section_record doc_name s relevance])%list,
   fold_left (score_subsection doc_name s job_embedding persona_embedding)
             (enumerate (subsections s)) (snd st)).

(** The body of the loop over [documents]. *)
Definition score_document (job_embedding persona_embedding : vec)
    (st : pool) (doc_path : string) : result pool :=
  let doc_name := basename doc_path in
  sections ← extract_document_structure doc_path;
  Ok (fold_left (score_section doc_name job_embedding persona_embedding)
                sections st).

(** [x["relevance"]]; every record built above has the key. *)
Definition relevance_of (r : gmap string value) : Q :=
  match r !! "relevance" with
  | Some (VFloat x) => x
  | _ => 0%Q
  end.

(** [l.sort(key=lambda x: x["relevance"], reverse=True)] *)
Definition sort_by_relevance (l : list (gmap string value))
  : list (gmap string value) :=
  sort (fun a b => Qltb (relevance_of b) (relevance_of a)) l.

(** The body of the two loops that rank. *)
Definition assign_rank (p : Z * gmap string value) : gmap string value :=
  delete "relevance" (<[ "importance_rank" := VInt (fst p + 1) ]> (snd p)).

Definition assign_ranks (l : list (gmap string value))
  : list (gmap string value) :=
  map assign_rank (enumerate l).

(** Lines 165 to 211: the candidates and their scores. *)
Definition score_documents (cfg : config) : result pool :=
  let persona_embedding := encode (persona cfg) in
  let job_embedding := encode (job_to_be_done cfg) in
  for_each (score_document job_embedding persona_embedding)
           (documents cfg) ([], []).

Definition process_documents (cfg : config) : result output :=
  st ← score_documents cfg;
  let all_sections := assign_ranks (sort_by_relevance (fst st)) in
  let all_subsections := assign_ranks (sort_by_relevance (snd st)) in
  Ok {| out_metadata := {| input_documents := map basename (documents cfg);
                           md_persona := persona cfg;
                           md_job_to_be_done := job_to_be_done cfg;
                           processing_timestamp := now_isoformat |};
        extracted_sections := firstn 15 all_sections;
        subsection_analysis := firstn 20 all_subsections |}.

(** *** [run] *)

(** How [run] ends: [output.json] written, [config.json] missing or not
    readable as JSON, or an exception of [process_documents]. Nothing is
    caught. *)
Inductive run_outcome : Type :=
| Written (output_path : string) (result : output)
| ConfigError
| Failed (e : exn).

(** [read_config path] is what [json.load] reads from the file at
    [path], if it can be read. *)
Definition run (read_config : string -> option config)
    (input_dir output_dir : string) : run_outcome :=
  let config_path := path_join input_dir "config.json" in
  match read_config config_path with
  | None => ConfigError
  | Some config =>
      let config' :=
        {| documents := map (fun doc => path_join input_dir doc) (documents config);
           persona := persona config;
           job_to_be_done := job_to_be_done config |} in
      match process_documents config' with
      | Ok result => Written (path_join output_dir "output.json") result
      | Raise e => Failed e
      end
  end.

End WithProviders.

End DocumentIntelligence.

(* ===================================================================== *)
(** ** Notions the properties are stated with *)
(* ===================================================================== *)

Module Notions.

Module D := DocumentIntelligence.
Module O := PDFOutlineExtractor.

(** *** Ranking *)

Definition has_relevance (r : gmap string D.value) : Prop :=
  ∃ x, r !! "relevance" = Some (D.VFloat x).

(** No record is followed by one with a higher score. *)
Definition descending (l : list (gmap string D.value)) : Prop :=
  StronglySorted (fun a b => (D.relevance_of b <= D.relevance_of a)%Q) l.

(** The records of any one score come in the same order in both lists. *)
Definition ties_in_order (l l' : list (gmap string D.value)) : Prop :=
  ∀ x : Q, List.filter (fun r => Qeq_bool (D.relevance_of r) x) l
           = List.filter (fun r => Qeq_bool (D.relevance_of r) x) l'.

(** What is written out for the record at position [i] of the sorted
    list. *)
Definition emitted_at (i : nat) (r : gmap string D.value) : gmap string D.value :=
  delete "relevance" (<[ "importance_rank" := D.VInt (Z.of_nat i + 1) ]> r).

(** [emitted] is the ranking of the candidates [cands], cut at [cap]. *)
Definition ranking (cap : nat) (cands emitted : list (gmap string D.value))
  : Prop :=
  Forall has_relevance cands ∧
  ∃ sorted,
    Permutation sorted cands ∧ descending sorted ∧ ties_in_order sorted cands ∧
    length emitted = Nat.min (length cands) cap ∧
    (∀ i r, emitted !! i = Some r ↔
            (i < cap)%nat ∧ ∃ s, sorted !! i = Some s ∧ r = emitted_at i s) ∧
    map (fun r => r !! "importance_rank") emitted
    = map (fun i => Some (D.VInt (Z.of_nat i)))
          (seq 1 (Nat.min (length cands) cap)) ∧
    Forall (fun r => r !! "relevance" = None) emitted.

(** *** Paragraphs *)

Definition words (t : string) : Z := Z.of_nat (length (PyStr.split t)).

(** A paragraph is closed when it has 3 sentences, or its last sentence
    ends with a colon, or it is longer than 200 characters once joined
    with spaces. *)
Definition closes (p : list string) : bool :=
  (length p =? 3)%nat
  || PyStr.endswith (List.last p "") ":"
  || (200 <? PyStr.len (PyStr.join " " p)).

(** [paras] cuts [sentences] into consecutive paragraphs, each closed as
    soon as it can be: no paragraph is empty, none could have been closed
    earlier, and all but the last are closed. *)
Definition grouping (sentences : list string) (paras : list (list string))
  : Prop :=
  concat paras = sentences ∧
  ∀ i p, paras !! i = Some p →
    p ≠ [] ∧
    (∀ q r, p = (q ++ r)%list → q ≠ [] → r ≠ [] → closes q = false) ∧
    ((S i < length paras)%nat → closes p = true).

(** The paragraphs of [sentences] when [cur] is already open. *)
Fixpoint paragraphs (cur : list string) (sentences : list string)
  : list (list string) :=
  match sentences with
  | [] => match cur with
          | [] => []
          | _ => [cur]
          end
  | s :: r =>
      if closes (cur ++ [s])
      then (cur ++ [s])%list :: paragraphs [] r
      else paragraphs (cur ++ [s]) r
  end.

(** *** Numbered lines *)

(** One or more decimal digits. *)
Definition numeral (s : string) : Prop :=
  s ≠ "" ∧ PyStr.forallb_str PyStr.isdecimal s = true.

(** One or more of the letters I, V and X. *)
Definition roman (s : string) : Prop :=
  s ≠ "" ∧ PyStr.forallb_str (Re.lit "IVX") s = true.

(** What separates the numbering from the heading: a space, with or
    without a period before it. *)
Definition separator (s : string) : Prop := s = " " ∨ s = ". ".

(** The heading proper: it does not start with white space and has no
    newline. *)
Definition heading_body (s : string) : Prop :=
  ∃ c r, s = String c r ∧ PyStr.isspace c = false ∧
         PyStr.forallb_str Re.dot s = true.

(** *** Scoring *)

(** The vector every candidate is compared with. *)
Definition combined (job_vector persona_vector : D.vec) : D.vec :=
  D.vadd (D.vscale 0.7 job_vector) (D.vscale 0.3 persona_vector).

(** The text a section is embedded from: its title, one space, and the
    first 500 characters of its body. *)
Definition probe_text (s : D.section) : string :=
  D.title s ++ " " ++ PyStr.prefix 500 (D.content s).

Section Scores.
Variable encode : string -> D.vec.
Variable cosine_similarity : D.vec -> D.vec -> Q.
Variable cfg : D.config.

Definition target : D.vec :=
  combined (encode (D.job_to_be_done cfg)) (encode (D.persona cfg)).

(** The scored records of one document [d]: its name and sections. *)
Definition scored_sections (d : string * list D.section)
  : list (gmap string D.value) :=
  map (fun s => D.section_record (fst d) s
                  (cosine_similarity (encode (probe_text s)) target))
      (snd d).

Definition scored_subsections (d : string * list D.section)
  : list (gmap string D.value) :=
  flat_map (fun s =>
              map (fun p => D.subsection_record (fst d) s (fst p) (snd p)
                              (cosine_similarity (encode (D.summary (snd p)))
                                                 target))
                  (D.enumerate (D.subsections s)))
           (snd d).
End Scores.

(** *** Documents *)

(** A page whose text can be read. *)
Definition readable (pg : pdf_page) : Prop := ∃ d, get_text pg = Ok d.

(** A document that opens and all of whose pages can be read. *)
Definition opens (fitz_open : string -> result (list pdf_page))
    (pdf_path : string) : Prop :=
  ∃ doc, fitz_open pdf_path = Ok doc ∧ Forall readable doc.

(** The blocks of the pages of a document, page after page; an unreadable
    page has none. *)
Definition dict_blocks (doc : list pdf_page) : list dict_block :=
  flat_map (fun pg => match get_text pg with
                      | Ok d => d
                      | Raise _ => []
                      end) doc.

(** A file name without [/]. *)
Definition plain_name (s : string) : Prop :=
  PyStr.forallb_str (fun c => negb (Ascii.eqb c "/")) s = true.

(** The pages come with ascending numbers, as PyMuPDF numbers them. *)
Definition pages_in_order (doc : list pdf_page) : Prop :=
  StronglySorted (fun a b => number a <= number b) doc.

(** *** Lines and titles *)

(** No white space at either end. *)
Definition stripped (s : string) : Prop :=
  (∀ c r, s = String c r → PyStr.isspace c = false) ∧
  (∀ c r, PyStr.reverse s = String c r → PyStr.isspace c = false).

(** White space only. *)
Definition blank (s : string) : Prop :=
  PyStr.forallb_str PyStr.isspace s = true.

(** One or more characters of the class of the cleaning expression. *)
Definition numbering (s : string) : Prop :=
  s ≠ "" ∧ PyStr.forallb_str O.numbering_char s = true.

(** A text that is empty or starts with a character that is neither
    white space nor of the class of the cleaning expression. *)
Definition starts_plainly (s : string) : Prop :=
  match s with
  | EmptyString => True
  | String c _ => PyStr.isspace c = false ∧ O.numbering_char c = false
  end.

(** The spans of a line of the page, put together. *)
Definition spans_text (l : list span) : string :=
  fold_left (fun acc sp => acc ++ span_text sp) l "".

(** The size of the longest span of a block, if it has a span. *)
Definition dominant_size (b : O.block) : option Q :=
  match spans (O.info b) with
  | first :: rest => Some (span_size (O.main_span first rest))
  | [] => None
  end.

(** A block that can give the title: it has a span and fewer than 150
    characters. *)
Definition title_candidate (b : O.block) (size : Q) : Prop :=
  dominant_size b = Some size ∧ PyStr.len (O.text b) < 150.

(** *** Font statistics *)

Definition all_spans (blocks : list O.block) : list span :=
  flat_map (fun b => spans (O.info b)) blocks.

Definition total (l : list Z) : Z := fold_right Z.add 0 l.



(** *** Sections *)

(** A text block with something other than white space in it. *)
Definition has_text (b : dict_block) : bool :=
  (block_type b =? 0) && PyStr.truthy (PyStr.strip (D.block_text b)).

(** A section opened by a header block: its body is empty, or starts with
    the space put before every block added to it. *)
Definition opened_by_header (s : D.section) : Prop :=
  D.content s = "" ∨ ∃ r, D.content s = " " ++ r.

(** A section made for text that comes before any header: it is named
    after its page, and its body starts with that text. *)
Definition default_section (s : D.section) : Prop :=
  D.title s = "Page " ++ str_int (D.page s) ∧
  ∃ c r, D.content s = String c r ∧ PyStr.isspace c = false.

(** The sections gathered so far, the open one last. *)
Definition gathered (st : list D.section * option D.section) : list D.section :=
  match snd st with
  | Some cur => (fst st ++ [cur])%list
  | None => fst st
  end.

(** The text of a block as the segmenter sees it. *)
Definition stripped_text (b : dict_block) : string :=
  PyStr.strip (D.block_text b).

(** A block that opens a section: it passes for a header and has fewer
    than 15 words. *)
Definition header_block (b : dict_block) : bool :=
  D.is_header b (stripped_text b) && (words (stripped_text b) <? 15).

(** [start] with each of [ts] added after a space. *)
Definition appended (start : string) (ts : list string) : string :=
  fold_left (fun acc t => acc ++ " " ++ t) ts start.

(** The section [s] is made from the blocks [g]: no block but the first
    is a header block; when the first is one, its text is the title and
    the texts of the others are the body; when it is not, the section is
    named after its page and the texts of all blocks are the body. *)
Definition made_from (s : D.section) (g : list dict_block) : Prop :=
  match g with
  | [] => False
  | b :: bs =>
      Forall (fun b' => header_block b' = false) bs ∧
      if header_block b
      then D.title s = stripped_text b ∧
           D.content s = appended "" (map stripped_text bs)
      else D.title s = "Page " ++ str_int (D.page s) ∧
           D.content s = appended (stripped_text b) (map stripped_text bs)
  end.

(** A group of blocks that starts with a header block. *)
Definition headed (g : list dict_block) : Prop :=
  ∃ b bs, g = b :: bs ∧ header_block b = true.

(** *** Records written out *)

Definition section_keys : gset string :=
  {[ "document"; "page"; "title"; "content_preview"; "importance_rank" ]}.

Definition subsection_keys : gset string :=
  {[ "document"; "section_title"; "page"; "subsection_idx"; "refined_text";
     "importance_rank" ]}.

(** A record of [extracted_sections]: its keys and what they hold. *)
Definition section_entry (names : list string) (r : gmap string D.value) : Prop :=
  dom r = section_keys ∧
  ∃ name pg title preview rank,
    In name names ∧
    r !! "document" = Some (D.VStr name) ∧
    r !! "page" = Some (D.VInt pg) ∧ 1 <= pg ∧
    r !! "title" = Some (D.VStr title) ∧ title ≠ "" ∧
    r !! "content_preview" = Some (D.VStr preview) ∧ PyStr.len preview <= 203 ∧
    r !! "importance_rank" = Some (D.VInt rank).

(** A record of [subsection_analysis]. *)
Definition subsection_entry (names : list string) (r : gmap string D.value)
  : Prop :=
  dom r = subsection_keys ∧
  ∃ name pg title idx refined rank,
    In name names ∧
    r !! "document" = Some (D.VStr name) ∧
    r !! "section_title" = Some (D.VStr title) ∧ title ≠ "" ∧
    r !! "page" = Some (D.VInt pg) ∧ 1 <= pg ∧
    r !! "subsection_idx" = Some (D.VInt idx) ∧ 0 <= idx ∧
    r !! "refined_text" = Some (D.VStr refined) ∧
    r !! "importance_rank" = Some (D.VInt rank).

End Notions.

Import Notions.

(* ===================================================================== *)
(** ** Sample fragments and documents *)
(* ===================================================================== *)

Module Samples.

Module O := PDFOutlineExtractor.

Definition span_of (t : string) (size : Q) (flags : Z) : span :=
  {| span_text := t; span_font := "Helvetica"; span_size := size;
     span_flags := flags |}.

(** A fragment of one span. *)
Definition fragment (t : string) (size : Q) (flags : Z) (pg : Z) : O.block :=
  {| O.text := t;
     O.info := {| line_bbox := (0, 0, 0, 0)%Q; spans := [span_of t size flags] |};
     O.page := pg |}.

Fixpoint repeat_string (n : nat) (t : string) : string :=
  match n with
  | O => EmptyString
  | S n' => t ++ repeat_string n' t
  end.

(** Statistics of a document whose body text is 10pt. *)
Definition body_10pt : O.font_statistics :=
  {| O.body_size := 10; O.sizes := [10%Q];
     O.size_distribution := [(10%Q, 1000)] |}.

(** A numbered line of 203 characters. *)
Definition long_numbered : O.block :=
  fragment ("1. " ++ repeat_string 200 "x") 10 0 1.

(** 250 characters, numbered, upper case, bold and three times the body
    size. *)
Definition shouting_250 : O.block :=
  fragment ("1. " ++ repeat_string 247 "A") 30 16 1.

(** Bold, 11pt, on a 10pt body. *)
Definition methodology : O.block := fragment "Methodology" 11 16 1.

(** Statistics of documents whose body text is 12pt, and 9.6pt. *)
Definition body_12pt : O.font_statistics :=
  {| O.body_size := 12; O.sizes := [12%Q];
     O.size_distribution := [(12%Q, 1000)] |}.

Definition body_9_6pt : O.font_statistics :=
  {| O.body_size := 9.6; O.sizes := [9.6%Q];
     O.size_distribution := [(9.6%Q, 1000)] |}.

(** Not bold, 14.4pt: 1.2 times 12pt and 1.5 times 9.6pt. *)
Definition summary_14_4pt : O.block := fragment "Summary" 14.4 0 1.

Definition background : O.block := fragment "2.3 Background" 12 0 1.

(** A bold line that starts with the letter U+00E2. *)
Definition a_la_carte : O.block :=
  fragment (String (PyStr.chr 226) " la carte") 10 16 1.

Definition line_of (t : string) (size : Q) : line :=
  {| line_bbox := (0, 0, 0, 0)%Q; spans := [span_of t size 0] |}.

(** A one-page document: a 24pt title, a numbered 14pt heading, 10pt body
    text and a second numbered heading at 12pt. *)
Definition one_page : list pdf_page :=
  [ {| number := 0;
       get_text := Ok [ {| block_type := 0; block_bbox := (0, 0, 0, 0)%Q;
                           lines := [line_of "Doc Title" 24;
                                     line_of "1. Introduction" 14;
                                     line_of "Some body text." 10;
                                     line_of "1.1 Background" 12] |} ] |} ].

(** A document whose second page cannot be read. *)
Definition torn : list pdf_page :=
  [ {| number := 0; get_text := Ok [] |};
    {| number := 1; get_text := Raise (FitzError "cannot read page") |} ].

(** A directory with a readable document, one that does not open, a file
    that is no PDF, and the document with the unreadable page. *)
Definition files (pdf_path : string) : result (list pdf_page) :=
  if String.eqb pdf_path "/app/input/good.pdf" then Ok one_page
  else if String.eqb pdf_path "/app/input/torn.pdf" then Ok torn
  else Raise (FitzError "cannot open").

Definition listing : list string :=
  ["good.pdf"; "broken.pdf"; "notes.txt"; "torn.pdf"].


(** A report of two pages; the second page has a picture and a line of
    white space. *)
Definition two_pages : list pdf_page :=
  [ {| number := 0;
       get_text := Ok [ {| block_type := 0; block_bbox := (0, 0, 0, 0)%Q;
                           lines := [line_of "Annual Report" 20;
                                     line_of "1. Introduction" 14;
                                     line_of "We had a good year." 10] |} ] |};
    {| number := 1;
       get_text := Ok [ {| block_type := 1; block_bbox := (0, 0, 0, 0)%Q;
                           lines := [] |};
                        {| block_type := 0; block_bbox := (0, 0, 0, 0)%Q;
                           lines := [line_of "   " 10;
                                     line_of "2. Methods" 14;
                                     line_of "We counted everything twice." 10] |} ] |} ].

(** The files above and the report. *)
Definition shelf (pdf_path : string) : result (list pdf_page) :=
  if String.eqb pdf_path "/app/input/report.pdf" then Ok two_pages
  else files pdf_path.

(** Stand-ins for the sentence splitter, the encoder and the similarity:
    each text is one sentence, a text is encoded by its length, and two
    vectors are compared by their inner product. *)
Definition one_sentence (t : string) : list string := [t].

Definition by_length (t : string) : DocumentIntelligence.vec :=
  [inject_Z (PyStr.len t); 1%Q].

Definition inner (v w : DocumentIntelligence.vec) : Q :=
  fold_left Qplus (zip_with Qmult v w) 0%Q.

(** A configuration naming two documents of the input directory. *)
Definition analyst : DocumentIntelligence.config :=
  {| DocumentIntelligence.documents := ["report.pdf"; "good.pdf"];
     DocumentIntelligence.persona := "Analyst";
     DocumentIntelligence.job_to_be_done := "Summarise the year" |}.

Definition read_analyst (path : string) : option DocumentIntelligence.config :=
  if String.eqb path "/app/input/config.json" then Some analyst else None.

End Samples.

(* ===================================================================== *)
(** ** Facts about the built-ins *)
(* ===================================================================== *)

Section SortFacts.
Context {A : Type} (lt : A -> A -> bool).

Lemma insert_perm (x : A) (l : list A) : Permutation (insert lt x l) (x :: l).
Proof.
  induction l as [|y r IH]; simpl; [reflexivity|].
  destruct (lt y x); [|reflexivity].
  rewrite IH. apply perm_swap.
Qed.

Lemma sort_perm (l : list A) : Permutation (sort lt l) l.
Proof.
  induction l as [|x r IH]; simpl; [reflexivity|].
  rewrite insert_perm. now constructor.
Qed.

Lemma sort_length (l : list A) : length (sort lt l) = length l.
Proof. apply Permutation_length, sort_perm. Qed.

(** A selection of elements none of which is below another keeps its
    order: the sort is stable. *)
Lemma insert_filter (P : A -> bool) (x : A) (l : list A) :
  (∀ a b, P a = true → P b = true → lt a b = false) →
  List.filter P (insert lt x l) = List.filter P (x :: l).
Proof.
  intros HP. induction l as [|y r IH]; simpl; [reflexivity|].
  destruct (lt y x) eqn:Hyx; [|reflexivity].
  simpl. rewrite IH. simpl.
  destruct (P x) eqn:Hx; [|reflexivity].
  destruct (P y) eqn:Hy; [|reflexivity].
  rewrite (HP y x Hy Hx) in Hyx. discriminate.
Qed.

Lemma sort_filter (P : A -> bool) (l : list A) :
  (∀ a b, P a = true → P b = true → lt a b = false) →
  List.filter P (sort lt l) = List.filter P l.
Proof.
  intros HP. induction l as [|x r IH]; simpl; [reflexivity|].
  rewrite insert_filter by assumption. simpl. now rewrite IH.
Qed.

(** With an order in which "not below" is transitive, the result is
    sorted. *)
Hypothesis lt_asym : ∀ a b, lt a b = true → lt b a = false.
Hypothesis ge_trans : ∀ a b c, lt a b = false → lt b c = false → lt a c = false.

Lemma insert_sorted (x : A) (l : list A) :
  StronglySorted (fun a b => lt b a = false) l →
  StronglySorted (fun a b => lt b a = false) (insert lt x l).
Proof.
  induction 1 as [|y r Hs IH Hy]; simpl.
  - repeat constructor.
  - destruct (lt y x) eqn:Hyx.
    + constructor; [assumption|].
      rewrite Forall_forall. intros z Hz.
      rewrite insert_perm in Hz. apply elem_of_cons in Hz.
      destruct Hz as [->|Hz]; [now apply lt_asym|].
      pose proof (proj1 (Forall_forall _ _) Hy) as Hy'. now apply Hy'.
    + constructor; [now constructor|].
      constructor; [assumption|].
      rewrite Forall_forall. intros z Hz.
      pose proof (proj1 (Forall_forall _ _) Hy) as Hy'.
      eapply ge_trans; [apply Hy', Hz|assumption].
Qed.

Lemma sort_sorted (l : list A) :
  StronglySorted (fun a b => lt b a = false) (sort lt l).
Proof.
  induction l as [|x r IH]; simpl; [constructor|].
  now apply insert_sorted.
Qed.

End SortFacts.

Section ListFacts.
Context {A B : Type}.

Lemma map_lookup (f : A -> B) (l : list A) (i : nat) :
  map f l !! i = f <$> (l !! i).
Proof.
  revert i. induction l as [|x r IH]; intros [|i]; simpl; try reflexivity.
  apply IH.
Qed.

Lemma enumerate_from_lookup (l : list A) (k i : nat) :
  combine (map Z.of_nat (seq k (length l))) l !! i
  = (fun x => (Z.of_nat (k + i), x)) <$> (l !! i).
Proof.
  revert k i. induction l as [|x r IH]; intros k [|i]; simpl; try reflexivity.
  - now rewrite Nat.add_0_r.
  - rewrite IH. now replace (S k + i)%nat with (k + S i)%nat by lia.
Qed.

Lemma enumerate_lookup (l : list A) (i : nat) :
  DocumentIntelligence.enumerate l !! i = (fun x => (Z.of_nat i, x)) <$> (l !! i).
Proof. apply (enumerate_from_lookup l 0 i). Qed.

Lemma fold_left_invariant (P : B -> Prop) (f : B -> A -> B) (l : list A) (b : B) :
  P b → (∀ s x, P s → P (f s x)) → P (fold_left f l b).
Proof.
  intros Hb Hf. revert b Hb.
  induction l as [|x r IH]; intros b Hb; simpl; [assumption|].
  apply IH, Hf, Hb.
Qed.

Lemma for_each_invariant (P : B -> Prop) (body : B -> A -> result B)
    (l : list A) (b b' : B) :
  P b → (∀ s x s', P s → body s x = Ok s' → P s') →
  for_each body l b = Ok b' → P b'.
Proof.
  intros Hb Hf. revert b Hb.
  induction l as [|x r IH]; intros b Hb; simpl.
  - now intros [= <-].
  - destruct (body b x) as [s|e] eqn:Hs; simpl; [|discriminate].
    apply IH. eapply Hf; eassumption.
Qed.

End ListFacts.

(** *** The order on scores *)

Lemma Qltb_false (x y : Q) : Qltb x y = false ↔ (y <= x)%Q.
Proof.
unfold Qltb. rewrite negb_false_iff. apply Qle_bool_iff.
Qed.

Lemma Qltb_true (x y : Q) : Qltb x y = true ↔ (x < y)%Q.
Proof.
unfold Qltb. rewrite negb_true_iff. split.
- intros H. apply Qnot_le_lt. intros Hle.
  apply Qle_bool_iff in Hle. congruence.
- intros H. destruct (Qle_bool y x) eqn:E; [|reflexivity].
  apply Qle_bool_iff in E. exfalso. apply (Qlt_not_le _ _ H E).
Qed.

(* ===================================================================== *)
(** ** Binary64 rounding *)
(* ===================================================================== *)

Section Floats.

(** *** Rounding to the nearest integer *)

Lemma rne_floor (x : Q) : Qfloor x <= rne x <= Qfloor x + 1.
Proof.
  unfold rne. destruct (Qltb _ (1#2)); [lia|].
  destruct (Qltb (1#2) _); [lia|]. destruct (Z.even _); lia.
Qed.

Lemma rne_up (x : Q) :
  rne x = Qfloor x + 1 →
  (1#2 < x - inject_Z (Qfloor x))%Q ∨
  (x - inject_Z (Qfloor x) == 1#2)%Q ∧ Z.even (Qfloor x) = false.
Proof.
  unfold rne. destruct (Qltb _ (1#2)) eqn:E1; [lia|].
  destruct (Qltb (1#2) _) eqn:E2.
  - intros _. left. now apply Qltb_true.
  - destruct (Z.even (Qfloor x)) eqn:E3; [lia|]. intros _. right.
    apply Qltb_false in E1, E2. split; [now apply Qle_antisym|reflexivity].
Qed.

Lemma rne_down (x : Q) :
  rne x = Qfloor x →
  (x - inject_Z (Qfloor x) < 1#2)%Q ∨
  (x - inject_Z (Qfloor x) == 1#2)%Q ∧ Z.even (Qfloor x) = true.
Proof.
  unfold rne. destruct (Qltb _ (1#2)) eqn:E1.
  - intros _. left. now apply Qltb_true.
  - destruct (Qltb (1#2) _) eqn:E2; [lia|].
    destruct (Z.even (Qfloor x)) eqn:E3; [|lia]. intros _. right.
    apply Qltb_false in E1, E2. split; [now apply Qle_antisym|reflexivity].
Qed.

Lemma rne_monotone (x y : Q) : (x <= y)%Q → rne x <= rne y.
Proof.
  intros Hxy. pose proof (Qfloor_resp_le x y Hxy) as Hf.
  pose proof (rne_floor x) as Hx. pose proof (rne_floor y) as Hy.
  destruct (Z.eq_dec (Qfloor x) (Qfloor y)) as [E|E]; [|lia].
  destruct (Z.eq_dec (rne x) (Qfloor x + 1)) as [Ux|Ux]; [|lia].
  destruct (Z.eq_dec (rne y) (Qfloor y)) as [Dy|Dy]; [|lia].
  exfalso. apply rne_up in Ux. apply rne_down in Dy. rewrite <- E in Dy.
  destruct Ux as [Ux|[Ux Ex]], Dy as [Dy|[Dy Ey]]; try lra. congruence.
Qed.

Lemma rne_Z (n : Z) : rne (inject_Z n) = n.
Proof.
  unfold rne. rewrite Qfloor_Z.
  replace (Qltb (inject_Z n - inject_Z n) (1#2)) with true; [reflexivity|].
  symmetry. apply Qltb_true. lra.
Qed.

Lemma rne_near (x : Q) :
  (- (1#2) <= inject_Z (rne x) - x <= 1#2)%Q.
Proof.
  pose proof (Qfloor_le x) as Hlo. pose proof (Qlt_floor x) as Hhi.
  pose proof (rne_floor x) as Hf. rewrite inject_Z_plus in Hhi.
  change (inject_Z 1) with 1%Q in Hhi.
  destruct (Z.eq_dec (rne x) (Qfloor x)) as [D|D].
  - rewrite D. apply rne_down in D. destruct D as [D|[D _]]; lra.
  - assert (U : rne x = Qfloor x + 1) by lia. rewrite U. apply rne_up in U.
    rewrite inject_Z_plus. change (inject_Z 1) with 1%Q.
    destruct U as [U|[U _]]; lra.
Qed.

(** *** Powers of two *)

Lemma pow2_pos (e : Z) : (0 < 2 ^ e)%Q.
Proof. now apply Qpower_0_lt. Qed.

Lemma pow2_plus (a b : Z) : (2 ^ (a + b) == 2 ^ a * 2 ^ b)%Q.
Proof. now apply Qpower_plus. Qed.

Lemma pow2_le (a b : Z) : a <= b → (2 ^ a <= 2 ^ b)%Q.
Proof. intros H. apply Qpower_le_compat_l; [assumption|discriminate]. Qed.

Lemma pow2_Z (n : Z) : 0 <= n → (inject_Z (2 ^ n) == 2 ^ n)%Q.
Proof. intros H. now rewrite Zpower_Qpower. Qed.

(** *** The binary exponent *)

Lemma exponent_spec (x : Q) :
  (0 < x)%Q → (2 ^ exponent x <= x)%Q ∧ (x < 2 ^ (exponent x + 1))%Q.
Proof.
  destruct x as [n d]. intros Hx.
  assert (Hn : 0 < n) by (unfold Qlt in Hx; simpl in Hx; lia).
  unfold exponent. cbn [Qnum Qden].
  set (la := Z.log2 n). set (ld := Z.log2 (Z.pos d)).
  pose proof (Z.log2_nonneg n) as Hla. pose proof (Z.log2_nonneg (Z.pos d)) as Hld.
  destruct (Z.log2_spec n Hn) as [Hn1 Hn2].
  destruct (Z.log2_spec (Z.pos d) eq_refl) as [Hd1 Hd2].
  fold la in Hla, Hn1, Hn2. fold ld in Hld, Hd1, Hd2.
  assert (U : (n # d < 2 ^ (la - ld + 1))%Q).
  { apply (Qmult_lt_r _ _ (2 ^ ld)); [apply pow2_pos|].
    rewrite <- pow2_plus. replace (la - ld + 1 + ld) with (Z.succ la) by lia.
    rewrite <- !pow2_Z by lia.
    unfold Qlt, Qmult, inject_Z. cbn [Qnum Qden].
    rewrite Pos.mul_1_r, Z.mul_1_r. nia. }
  assert (L : (2 ^ (la - ld - 1) <= n # d)%Q).
  { apply (Qmult_le_r _ _ (2 ^ Z.succ ld)); [apply pow2_pos|].
    rewrite <- pow2_plus. replace (la - ld - 1 + Z.succ ld) with la by lia.
    rewrite <- !pow2_Z by lia.
    unfold Qle, Qmult, inject_Z. cbn [Qnum Qden].
    rewrite Pos.mul_1_r, Z.mul_1_r. nia. }
  destruct (Qle_bool (2 ^ (la - ld)) (n # d)) eqn:E.
  - apply Qle_bool_iff in E. split; assumption.
  - split; [assumption|].
    replace (la - ld - 1 + 1) with (la - ld) by lia.
    apply Qnot_le_lt. intros H. apply Qle_bool_iff in H. congruence.
Qed.

(** The exponent is the only one between whose powers the number lies. *)
Lemma exponent_unique (x : Q) (e : Z) :
  (2 ^ e <= x)%Q → (x < 2 ^ (e + 1))%Q → exponent x = e.
Proof.
  intros H1 H2.
  assert (Hx : (0 < x)%Q) by (eapply Qlt_le_trans; [apply (pow2_pos e)|assumption]).
  destruct (exponent_spec x Hx) as [S1 S2].
  destruct (Z.lt_trichotomy (exponent x) e) as [H|[H|H]]; [|assumption|]; exfalso.
  - apply (Qlt_irrefl x). eapply Qlt_le_trans; [exact S2|].
    eapply Qle_trans; [|exact H1]. apply pow2_le. lia.
  - apply (Qlt_irrefl x). eapply Qlt_le_trans; [exact H2|].
    eapply Qle_trans; [|exact S1]. apply pow2_le. lia.
Qed.

Lemma exponent_monotone (x y : Q) :
  (0 < x)%Q → (x <= y)%Q → exponent x <= exponent y.
Proof.
  intros Hx Hxy.
  assert (Hy : (0 < y)%Q) by (eapply Qlt_le_trans; eassumption).
  destruct (exponent_spec x Hx) as [X1 X2].
  destruct (exponent_spec y Hy) as [Y1 Y2].
  destruct (Z.le_gt_cases (exponent x) (exponent y)) as [H|H]; [assumption|].
  exfalso. apply (Qlt_irrefl y). eapply Qlt_le_trans; [exact Y2|].
  eapply Qle_trans; [|exact Hxy]. eapply Qle_trans; [|exact X1].
  apply pow2_le. lia.
Qed.

(** *** The nearest binary64 number *)

Lemma double_pos (x : Q) :
  (0 < x)%Q →
  double x
  = (inject_Z (rne (x / 2 ^ (exponent x - 52))) * 2 ^ (exponent x - 52))%Q.
Proof.
  intros Hx. unfold double.
  replace (Qeq_bool x 0) with false.
  2: { symmetry. apply not_true_iff_false. intros E. apply Qeq_bool_iff in E.
       rewrite E in Hx. discriminate. }
  replace (Qltb x 0) with false by (symmetry; apply Qltb_false; now apply Qlt_le_weak).
  destruct x as [[|p|p] d]; try discriminate. reflexivity.
Qed.

(** The significand: an integer of 53 bits. *)
Lemma significand_range (x : Q) :
  (0 < x)%Q →
  (2 ^ 52 <= x / 2 ^ (exponent x - 52))%Q ∧
  (x / 2 ^ (exponent x - 52) < 2 ^ 53)%Q.
Proof.
  intros Hx. destruct (exponent_spec x Hx) as [S1 S2]. split.
  - apply Qle_shift_div_l; [apply pow2_pos|].
    rewrite <- pow2_plus. now replace (52 + (exponent x - 52)) with (exponent x) by lia.
  - apply Qlt_shift_div_r; [apply pow2_pos|].
    rewrite <- pow2_plus.
    now replace (53 + (exponent x - 52)) with (exponent x + 1) by lia.
Qed.

Lemma double_pos_bounds (x : Q) :
  (0 < x)%Q →
  (2 ^ exponent x <= double x)%Q ∧ (double x <= 2 ^ (exponent x + 1))%Q.
Proof.
  intros Hx. rewrite (double_pos x Hx).
  destruct (significand_range x Hx) as [R1 R2].
  set (e := exponent x - 52) in *. split.
  - replace (exponent x) with (52 + e) by (unfold e; lia). rewrite pow2_plus.
    apply Qmult_le_compat_r; [|apply Qlt_le_weak, pow2_pos].
    rewrite <- (pow2_Z 52) in * by lia. rewrite <- (rne_Z (2 ^ 52)) at 1.
    rewrite <- Zle_Qle. now apply rne_monotone.
  - replace (exponent x + 1) with (53 + e) by (unfold e; lia). rewrite pow2_plus.
    apply Qmult_le_compat_r; [|apply Qlt_le_weak, pow2_pos].
    rewrite <- (pow2_Z 53) in * by lia. rewrite <- (rne_Z (2 ^ 53)) at 1.
    rewrite <- Zle_Qle. apply rne_monotone. now apply Qlt_le_weak.
Qed.

Lemma double_pos_monotone (x y : Q) :
  (0 < x)%Q → (x <= y)%Q → (double x <= double y)%Q.
Proof.
  intros Hx Hxy.
  assert (Hy : (0 < y)%Q) by (eapply Qlt_le_trans; eassumption).
  pose proof (exponent_monotone x y Hx Hxy) as He.
  destruct (Z.eq_dec (exponent x) (exponent y)) as [E|E].
  - rewrite (double_pos x Hx), (double_pos y Hy), E.
    apply Qmult_le_compat_r; [|apply Qlt_le_weak, pow2_pos].
    rewrite <- Zle_Qle. apply rne_monotone.
    apply Qmult_le_compat_r; [assumption|].
    apply Qlt_le_weak, Qinv_lt_0_compat, pow2_pos.
  - destruct (double_pos_bounds x Hx) as [_ Bx].
    destruct (double_pos_bounds y Hy) as [By _].
    eapply Qle_trans; [exact Bx|]. eapply Qle_trans; [|exact By].
    apply pow2_le. lia.
Qed.

Lemma double_opp (x : Q) : (double (- x) == - double x)%Q.
Proof.
  unfold double.
  destruct (Qeq_bool x 0) eqn:E0.
  - apply Qeq_bool_iff in E0.
    replace (Qeq_bool (- x) 0) with true; [reflexivity|].
    symmetry. apply Qeq_bool_iff. lra.
  - assert (Hx : ¬ (x == 0)%Q) by (intros H; apply Qeq_bool_iff in H; congruence).
    replace (Qeq_bool (- x) 0) with false.
    2: { symmetry. apply not_true_iff_false. intros H. apply Qeq_bool_iff in H.
         apply Hx. lra. }
    assert (Ha : Qabs (- x) = Qabs x).
    { destruct x as [[|p|p] d]; reflexivity. }
    rewrite Ha.
    destruct (Qltb x 0) eqn:E1.
    + apply Qltb_true in E1.
      replace (Qltb (- x) 0) with false by (symmetry; apply Qltb_false; lra).
      lra.
    + apply Qltb_false in E1.
      replace (Qltb (- x) 0) with true by (symmetry; apply Qltb_true; lra).
      reflexivity.
Qed.

Lemma double_zero (x : Q) : (x == 0)%Q → double x = 0%Q.
Proof.
  intros H. unfold double. apply Qeq_bool_iff in H. now rewrite H.
Qed.

Lemma double_sign (x : Q) : (0 < x)%Q → (0 < double x)%Q.
Proof.
  intros Hx. destruct (double_pos_bounds x Hx) as [B _].
  eapply Qlt_le_trans; [apply (pow2_pos (exponent x))|exact B].
Qed.

(** Rounding keeps the order. *)
Lemma double_monotone (x y : Q) : (x <= y)%Q → (double x <= double y)%Q.
Proof.
  intros Hxy.
  destruct (Qlt_le_dec 0 x) as [Hx|Hx].
  - now apply double_pos_monotone.
  - destruct (Qlt_le_dec 0 y) as [Hy|Hy].
    + apply Qle_trans with 0%Q; [|apply Qlt_le_weak, double_sign, Hy].
      destruct (Qeq_dec x 0) as [E|E]; [rewrite (double_zero x E); apply Qle_refl|].
      assert (Hx' : (0 < - x)%Q) by lra.
      pose proof (double_sign (- x) Hx') as H. rewrite double_opp in H. lra.
    + destruct (Qeq_dec y 0) as [Ey|Ey].
      * rewrite (double_zero y Ey).
        destruct (Qeq_dec x 0) as [E|E]; [rewrite (double_zero x E); apply Qle_refl|].
        assert (Hx' : (0 < - x)%Q) by lra.
        pose proof (double_sign (- x) Hx') as H. rewrite double_opp in H. lra.
      * assert (Hy' : (0 < - y)%Q) by lra.
        assert (Hyx : (- y <= - x)%Q) by lra.
        pose proof (double_pos_monotone (- y) (- x) Hy' Hyx) as H.
        rewrite !double_opp in H. lra.
Qed.

(** Equal numbers round to equal numbers. *)
Lemma double_compat (x y : Q) : (x == y)%Q → (double x == double y)%Q.
Proof.
  intros H. apply Qle_antisym; apply double_monotone; rewrite H; apply Qle_refl.
Qed.

(** *** How far rounding goes *)

Lemma double_error (x : Q) :
  (0 < x)%Q →
  (x * (1 - half_ulp) <= double x)%Q ∧ (double x <= x * (1 + half_ulp))%Q.
Proof.
  intros Hx. rewrite (double_pos x Hx).
  destruct (exponent_spec x Hx) as [S1 _].
  set (e := exponent x - 52) in *.
  pose proof (pow2_pos e) as He.
  pose proof (rne_near (x / 2 ^ e)) as [N1 N2].
  assert (Hs : (x == x / 2 ^ e * 2 ^ e)%Q).
  { field. intros E. rewrite E in He. discriminate. }
  assert (Hu : (2 ^ e * (1 # 2) <= x * half_ulp)%Q).
  { unfold half_ulp.
    apply Qle_trans with (2 ^ exponent x * 2 ^ (-53))%Q.
    - rewrite <- pow2_plus. replace (exponent x + -53) with (e + -1) by (unfold e; lia).
      rewrite pow2_plus. apply Qle_refl.
    - apply Qmult_le_compat_r; [assumption|apply Qlt_le_weak, pow2_pos]. }
  set (s := (x / 2 ^ e)%Q) in *. set (p := (2 ^ e)%Q) in *.
  set (m := inject_Z (rne s)) in *.
  assert (H1 : ((m - s) * p <= (1#2) * p)%Q)
    by (apply Qmult_le_compat_r; [assumption|now apply Qlt_le_weak]).
  assert (H2 : (- (1#2) * p <= (m - s) * p)%Q)
    by (apply Qmult_le_compat_r; [assumption|now apply Qlt_le_weak]).
  split; lra.
Qed.

Lemma half_ulp_small : (0 < half_ulp)%Q ∧ (half_ulp < 1)%Q.
Proof. split; apply Qltb_true; vm_compute; reflexivity. Qed.

Lemma fmul_error (a b : Q) :
  (0 < a)%Q → (0 < b)%Q →
  (a * b * ((1 - half_ulp) * (1 - half_ulp) * (1 - half_ulp)) <= fmul a b)%Q ∧
  (fmul a b <= a * b * ((1 + half_ulp) * (1 + half_ulp) * (1 + half_ulp)))%Q.
Proof.
  intros Ha Hb. unfold fmul.
  destruct half_ulp_small as [U0 U1].
  destruct (double_error a Ha) as [A1 A2].
  destruct (double_error b Hb) as [B1 B2].
  pose proof (double_sign a Ha) as A0. pose proof (double_sign b Hb) as B0.
  assert (P0 : (0 < double a * double b)%Q) by (apply Qmult_lt_0_compat; assumption).
  destruct (double_error _ P0) as [P1 P2].
  set (u := half_ulp) in *. set (da := double a) in *. set (db := double b) in *.
  set (dp := double (da * db)) in *.
  assert (L : (a * (1 - u) * (b * (1 - u)) <= da * db)%Q).
  { apply Qle_trans with (da * (b * (1 - u)))%Q.
    - apply Qmult_le_compat_r; [assumption|]. apply Qmult_le_0_compat; lra.
    - apply Qmult_le_l; assumption. }
  assert (R : (da * db <= a * (1 + u) * (b * (1 + u)))%Q).
  { apply Qle_trans with (da * (b * (1 + u)))%Q.
    - apply Qmult_le_l; assumption.
    - apply Qmult_le_compat_r; [assumption|]. apply Qmult_le_0_compat; lra. }
  assert (L' : (a * (1 - u) * (b * (1 - u)) * (1 - u) <= da * db * (1 - u))%Q)
    by (apply Qmult_le_compat_r; [assumption|lra]).
  assert (R' : (da * db * (1 + u) <= a * (1 + u) * (b * (1 + u)) * (1 + u))%Q)
    by (apply Qmult_le_compat_r; [assumption|lra]).
  split; lra.
Qed.

(** The test [size > body * t] in binary64 is that of the exact product,
    up to a relative error of [2^-50]. *)
Lemma float_test_near (body t size : Q) :
  (0 < body)%Q → (0 < t)%Q →
  ((body * t * (1 + 2 ^ (-50)) < size)%Q → (fmul body t < double size)%Q) ∧
  ((size < body * t * (1 - 2 ^ (-50)))%Q → (double size <= fmul body t)%Q).
Proof.
  intros Hb Ht.
  destruct (fmul_error body t Hb Ht) as [F1 F2].
  assert (B0 : (0 < body * t)%Q) by (apply Qmult_lt_0_compat; assumption).
  destruct half_ulp_small as [U0 U1].
  assert (K1 : ((1 + half_ulp) * (1 + half_ulp) * (1 + half_ulp)
                <= (1 + 2 ^ (-50)) * (1 - half_ulp))%Q)
    by (apply Qle_bool_iff; vm_compute; reflexivity).
  assert (K2 : ((1 - 2 ^ (-50)) * (1 + half_ulp)
                <= (1 - half_ulp) * (1 - half_ulp) * (1 - half_ulp))%Q)
    by (apply Qle_bool_iff; vm_compute; reflexivity).
  assert (K3 : (0 < 1 - 2 ^ (-50))%Q) by (apply Qltb_true; vm_compute; reflexivity).
  assert (K4 : (0 < 1 + 2 ^ (-50))%Q) by (apply Qltb_true; vm_compute; reflexivity).
  set (u := half_ulp) in *. set (w := (2 ^ (-50))%Q) in *.
  set (B := (body * t)%Q) in *. set (f := fmul body t) in *.
  split; intros H.
  - assert (S0 : (0 < size)%Q).
    { eapply Qlt_trans; [|exact H]. apply Qmult_lt_0_compat; assumption. }
    destruct (double_error size S0) as [S1 _]. fold u in S1.
    assert (E1 : (B * ((1 + u) * (1 + u) * (1 + u)) <= B * ((1 + w) * (1 - u)))%Q)
      by (apply Qmult_le_l; assumption).
    assert (E2 : (B * (1 + w) * (1 - u) < size * (1 - u))%Q)
      by (apply Qmult_lt_r; [lra|assumption]).
    lra.
  - destruct (Qlt_le_dec 0 size) as [S0|S0].
    + destruct (double_error size S0) as [_ S2]. fold u in S2.
      assert (E1 : (B * ((1 - w) * (1 + u)) <= B * ((1 - u) * (1 - u) * (1 - u)))%Q)
        by (apply Qmult_le_l; assumption).
      assert (E2 : (size * (1 + u) <= B * (1 - w) * (1 + u))%Q)
        by (apply Qmult_le_compat_r; [now apply Qlt_le_weak|lra]).
      lra.
    + pose proof (double_monotone size 0 S0) as D.
      change (double 0) with 0%Q in D.
      assert (F0 : (0 <= B * ((1 - u) * (1 - u) * (1 - u)))%Q).
      { apply Qmult_le_0_compat; [lra|].
        apply Qmult_le_0_compat; [apply Qmult_le_0_compat|]; lra. }
      lra.
Qed.

End Floats.

(* ===================================================================== *)
(** ** The ranker: sort, rank, hide the score, truncate *)
(* ===================================================================== *)

Section Ranker.

Import DocumentIntelligence.

Lemma sort_by_relevance_perm (l : list (gmap string value)) :
  Permutation (sort_by_relevance l) l.
Proof. apply sort_perm. Qed.

Lemma sort_by_relevance_descending (l : list (gmap string value)) :
  descending (sort_by_relevance l).
Proof.
  unfold descending, sort_by_relevance.
  assert (Hs : StronglySorted
                 (fun a b => Qltb (relevance_of a) (relevance_of b) = false)
                 (sort (fun a b => Qltb (relevance_of b) (relevance_of a)) l)).
  { apply (sort_sorted (fun a b => Qltb (relevance_of b) (relevance_of a))).
    - intros a b H. apply Qltb_true in H. apply Qltb_false.
      now apply Qlt_le_weak.
    - intros a b c H1 H2. apply Qltb_false in H1, H2. apply Qltb_false.
      eapply Qle_trans; eassumption. }
  induction Hs as [|x r Hs IH Hx]; constructor; [assumption|].
  eapply Forall_impl; [exact Hx|]. intros y Hy. now apply Qltb_false in Hy.
Qed.

Lemma sort_by_relevance_stable (l : list (gmap string value)) :
  ties_in_order (sort_by_relevance l) l.
Proof.
  intros x. apply sort_filter. intros a b Ha Hb.
  apply Qeq_bool_iff in Ha, Hb. apply Qltb_false.
  rewrite Ha, Hb. apply Qle_refl.
Qed.

Lemma assign_ranks_lookup (l : list (gmap string value)) (i : nat) :
  assign_ranks l !! i = emitted_at i <$> (l !! i).
Proof.
  unfold assign_ranks. rewrite map_lookup, enumerate_lookup.
  destruct (l !! i); reflexivity.
Qed.

Lemma assign_ranks_length (l : list (gmap string value)) : length (assign_ranks l) = length l.
Proof.
  unfold assign_ranks, enumerate.
  rewrite length_map, length_combine, length_map, length_seq. lia.
Qed.

Lemma emitted_rank (i : nat) (r : gmap string value) :
  emitted_at i r !! "importance_rank" = Some (VInt (Z.of_nat i + 1)).
Proof.
  unfold emitted_at. rewrite lookup_delete_ne by discriminate.
  apply lookup_insert_eq.
Qed.

Lemma emitted_no_relevance (i : nat) (r : gmap string value) :
  emitted_at i r !! "relevance" = None.
Proof. unfold emitted_at. apply lookup_delete_eq. Qed.

(** Sorting, ranking and cutting a pool of scored candidates. *)
Lemma rank_and_cut (cap : nat) (cands : list (gmap string value)) :
  Forall has_relevance cands →
  ranking cap cands (firstn cap (assign_ranks (sort_by_relevance cands))).
Proof.
  intros Hrel. split; [assumption|].
  exists (sort_by_relevance cands).
  assert (Hlen : length (firstn cap (assign_ranks (sort_by_relevance cands)))
                 = Nat.min (length cands) cap).
  { rewrite length_take, assign_ranks_length.
    unfold sort_by_relevance. rewrite sort_length. lia. }
  assert (Hlook : ∀ i r,
    firstn cap (assign_ranks (sort_by_relevance cands)) !! i = Some r ↔
    (i < cap)%nat ∧ ∃ s, sort_by_relevance cands !! i = Some s ∧ r = emitted_at i s).
  { intros i r. rewrite lookup_take_Some, assign_ranks_lookup.
    split.
    - intros [H Hi]. split; [assumption|].
      destruct (sort_by_relevance cands !! i) as [s|]; [|discriminate].
      exists s. split; [reflexivity|]. now injection H as <-.
    - intros [Hi (s & Hs & ->)]. rewrite Hs. split; [reflexivity|assumption]. }
  split_and!.
  - apply sort_by_relevance_perm.
  - apply sort_by_relevance_descending.
  - apply sort_by_relevance_stable.
  - exact Hlen.
  - exact Hlook.
  - apply list_eq. intros i. rewrite !map_lookup.
    destruct (firstn cap (assign_ranks (sort_by_relevance cands)) !! i)
      as [r|] eqn:Hr.
    + pose proof (lookup_lt_Some _ _ _ Hr) as Hi. rewrite Hlen in Hi.
      apply Hlook in Hr. destruct Hr as [_ (s & _ & ->)].
      rewrite lookup_seq_lt by assumption. simpl. rewrite emitted_rank.
      replace (Z.of_nat (S i)) with (Z.of_nat i + 1) by lia. reflexivity.
    + apply lookup_ge_None in Hr. rewrite Hlen in Hr.
      now rewrite lookup_seq_ge.
  - apply Forall_lookup. intros i r Hr.
    apply Hlook in Hr. destruct Hr as [_ (s & _ & ->)].
    apply emitted_no_relevance.
Qed.

End Ranker.

(* ===================================================================== *)
(** ** The scorer: what every candidate is compared with *)
(* ===================================================================== *)

Section Scorer.

Import DocumentIntelligence.

Variable sent_tokenize : string -> list string.
Variable encode : string -> vec.
Variable cosine_similarity : vec -> vec -> Q.
Variable fitz_open : string -> result (list pdf_page).

Lemma section_record_relevance (doc : string) (s : section) (x : Q) :
  section_record doc s x !! "relevance" = Some (VFloat x).
Proof. reflexivity. Qed.

Lemma subsection_record_relevance (doc : string) (s : section) (i : Z)
    (sub : subsection) (x : Q) :
  subsection_record doc s i sub x !! "relevance" = Some (VFloat x).
Proof. reflexivity. Qed.

Variable cfg : config.

Local Abbreviation job := (encode (job_to_be_done cfg)).
Local Abbreviation per := (encode (persona cfg)).

Lemma score_subsections_fold (doc : string) (s : section)
    (l : list (Z * subsection)) (acc : list (gmap string value)) :
  fold_left (score_subsection encode cosine_similarity doc s job per) l acc
  = (acc ++ map (fun p => subsection_record doc s (fst p) (snd p)
                   (cosine_similarity (encode (summary (snd p)))
                                      (target encode cfg))) l)%list.
Proof.
  revert acc. induction l as [|p r IH]; intros acc; simpl.
  - now rewrite app_nil_r.
  - rewrite IH. unfold score_subsection at 1. now rewrite <- app_assoc.
Qed.

Lemma score_sections_fold (doc : string) (secs : list section) (st : pool) :
  fold_left (score_section encode cosine_similarity doc job per) secs st
  = ((fst st ++ scored_sections encode cosine_similarity cfg (doc, secs))%list,
     (snd st ++ scored_subsections encode cosine_similarity cfg (doc, secs))%list).
Proof.
  revert st. induction secs as [|s r IH]; intros [a b]; simpl.
  - unfold scored_sections, scored_subsections. simpl.
    now rewrite !app_nil_r.
  - rewrite IH. unfold score_section at 1. simpl.
    rewrite score_subsections_fold.
    unfold scored_sections, scored_subsections. simpl.
    now rewrite <- !app_assoc.
Qed.

(** The pool after the loop over the documents, or the document whose
    extraction raised. *)
Lemma score_documents_from (docs : list string) (st : pool) :
  match for_each (score_document sent_tokenize encode cosine_similarity
                                 fitz_open job per) docs st with
  | Ok st' =>
      ∃ ds : list (string * list section),
        Forall2 (fun path d =>
                   fst d = basename path ∧
                   extract_document_structure sent_tokenize fitz_open path
                   = Ok (snd d)) docs ds ∧
        fst st' = (fst st ++ flat_map (scored_sections encode cosine_similarity cfg) ds)%list ∧
        snd st' = (snd st ++ flat_map (scored_subsections encode cosine_similarity cfg) ds)%list
  | Raise e =>
      ∃ path, In path docs ∧
              extract_document_structure sent_tokenize fitz_open path = Raise e
  end.
Proof.
  revert st. induction docs as [|path r IH]; intros st; simpl.
  - exists []. split_and!; [constructor | | ]; simpl; now rewrite app_nil_r.
  - unfold score_document at 1. simpl.
    destruct (extract_document_structure sent_tokenize fitz_open path)
      as [secs|e] eqn:Hx; simpl.
    + rewrite score_sections_fold.
      specialize (IH ((fst st ++ scored_sections encode cosine_similarity cfg
                                   (basename path, secs))%list,
                      (snd st ++ scored_subsections encode cosine_similarity cfg
                                   (basename path, secs))%list)).
      destruct (for_each _ r _) as [st'|e].
      * destruct IH as (ds & Hds & Hs & Hsub). simpl in Hs, Hsub.
        exists ((basename path, secs) :: ds). split_and!.
        -- constructor; [split; [reflexivity|assumption]|assumption].
        -- rewrite Hs. simpl. now rewrite <- app_assoc.
        -- rewrite Hsub. simpl. now rewrite <- app_assoc.
      * destruct IH as (p & Hp & He). exists p. split; [now right|assumption].
    + exists path. split; [now left|assumption].
Qed.

Lemma scored_sections_relevance (ds : list (string * list section)) :
  Forall has_relevance (flat_map (scored_sections encode cosine_similarity cfg) ds).
Proof.
  apply Forall_forall. intros r Hr. apply list_elem_of_In, in_flat_map in Hr.
  destruct Hr as (d & _ & Hr). unfold scored_sections in Hr.
  apply in_map_iff in Hr. destruct Hr as (s & <- & _).
  eexists. apply section_record_relevance.
Qed.

Lemma scored_subsections_relevance (ds : list (string * list section)) :
  Forall has_relevance
         (flat_map (scored_subsections encode cosine_similarity cfg) ds).
Proof.
  apply Forall_forall. intros r Hr. apply list_elem_of_In, in_flat_map in Hr.
  destruct Hr as (d & _ & Hr). unfold scored_subsections in Hr.
  apply in_flat_map in Hr. destruct Hr as (s & _ & Hr).
  apply in_map_iff in Hr. destruct Hr as (p & <- & _).
  eexists. apply subsection_record_relevance.
Qed.

(** C5. Every section and every subsection is scored by the cosine
    similarity between its embedding and
    [0.7 * jobVector + 0.3 * personaVector]. A section is embedded from
    its title, a space and the first 500 characters of its body; a
    subsection from its summary as it is. The pool of scored records is
    exactly these records, document by document and section by section;
    the only way not to get a pool is a document whose extraction
    raises. *)
Theorem relevance_is_cosine_to_weighted_query :
  let target := vadd (vscale 0.7 (encode (job_to_be_done cfg)))
                     (vscale 0.3 (encode (persona cfg))) in
  let section_score (s : section) :=
    cosine_similarity
      (encode (title s ++ " " ++ PyStr.prefix 500 (content s))) target in
  let subsection_score (sub : subsection) :=
    cosine_similarity (encode (summary sub)) target in
  (∀ doc s x, relevance_of (section_record doc s x) = x) ∧
  (∀ doc s i sub x, relevance_of (subsection_record doc s i sub x) = x) ∧
  match score_documents sent_tokenize encode cosine_similarity fitz_open cfg with
  | Ok st =>
      ∃ ds : list (string * list section),
        Forall2 (fun path d =>
                   fst d = basename path ∧
                   extract_document_structure sent_tokenize fitz_open path
                   = Ok (snd d)) (documents cfg) ds ∧
        fst st = flat_map (fun d =>
                   map (fun s => section_record (fst d) s (section_score s))
                       (snd d)) ds ∧
        snd st = flat_map (fun d =>
                   flat_map (fun s =>
                     map (fun p => subsection_record (fst d) s (fst p) (snd p)
                                     (subsection_score (snd p)))
                         (enumerate (subsections s))) (snd d)) ds
  | Raise e =>
      ∃ path, In path (documents cfg) ∧
              extract_document_structure sent_tokenize fitz_open path = Raise e
  end.
Proof.
  intros target section_score subsection_score.
  split; [reflexivity|]. split; [reflexivity|].
  unfold score_documents.
  pose proof (score_documents_from (documents cfg) ([], [])) as H.
  destruct (for_each _ (documents cfg) _) as [st|e]; [|exact H].
  destruct H as (ds & Hds & Hs & Hsub). exists ds. split_and!.
  - exact Hds.
  - exact Hs.
  - exact Hsub.
Qed.

End Scorer.

(* ===================================================================== *)
(** ** The whole relevance pipeline *)
(* ===================================================================== *)

Section Pipeline.

Import DocumentIntelligence.

Variable sent_tokenize : string -> list string.
Variable encode : string -> vec.
Variable cosine_similarity : vec -> vec -> Q.
Variable fitz_open : string -> result (list pdf_page).
Variable now_isoformat : string.

(** C1. In every run that gets past extraction, the sections and the
    subsections that are written out are the candidates sorted by score,
    highest first and equal scores in their original order, each with
    [importance_rank] one more than its position and without its
    ["relevance"], cut after 15 sections and 20 subsections: the ranks
    are 1, 2, ..., min(N, cap). A run that does not get that far raises
    and writes nothing. *)
Theorem ranks_are_dense_and_scores_hidden (cfg : config) :
  match score_documents sent_tokenize encode cosine_similarity fitz_open cfg with
  | Ok st =>
      ∃ out,
        process_documents sent_tokenize encode cosine_similarity fitz_open
                          now_isoformat cfg = Ok out ∧
        ranking 15 (fst st) (extracted_sections out) ∧
        ranking 20 (snd st) (subsection_analysis out)
  | Raise e =>
      process_documents sent_tokenize encode cosine_similarity fitz_open
                        now_isoformat cfg = Raise e
  end.
Proof.
  unfold process_documents.
  pose proof (score_documents_from sent_tokenize encode cosine_similarity
                fitz_open cfg (documents cfg) ([], [])) as H.
  fold (score_documents sent_tokenize encode cosine_similarity fitz_open cfg) in H.
  destruct (score_documents _ _ _ _ cfg) as [st|e]; simpl; [|reflexivity].
  destruct H as (ds & _ & Hs & Hsub). simpl in Hs, Hsub.
  eexists. split; [reflexivity|]. simpl. split.
  - apply rank_and_cut. rewrite Hs. apply scored_sections_relevance.
  - apply rank_and_cut. rewrite Hsub. apply scored_subsections_relevance.
Qed.

End Pipeline.

(* ===================================================================== *)
(** ** The subsection splitter *)
(* ===================================================================== *)

Section Splitter.

Import DocumentIntelligence.

Variable sent_tokenize : string -> list string.

Local Abbreviation subsection_of :=
  (fun p : list string =>
     {| sub_text := PyStr.join " " p;
        summary := generate_summary sent_tokenize (PyStr.join " " p) |}).

Local Abbreviation long_enough :=
  (fun p : list string => 10 <? words (PyStr.join " " p)).

Lemma keep_paragraph_filter (subs : list subsection) (p : list string) :
  keep_paragraph sent_tokenize subs p
  = (subs ++ map subsection_of (List.filter long_enough [p]))%list.
Proof.
  unfold keep_paragraph, words. simpl.
  destruct (10 <? _); simpl; [reflexivity|now rewrite app_nil_r].
Qed.

(** The loop condition of the source on a paragraph of at most 3
    sentences is [closes]. *)
Lemma loop_condition_closes (cur : list string) (s : string) :
  (length cur < 3)%nat →
  (3 <=? Z.of_nat (length (cur ++ [s])))
  || PyStr.endswith s ":"
  || (200 <? PyStr.len (PyStr.join " " (cur ++ [s])))
  = closes (cur ++ [s]).
Proof.
  intros Hlen. unfold closes. rewrite last_last.
  replace (3 <=? Z.of_nat (length (cur ++ [s])))
    with (length (cur ++ [s]) =? 3)%nat; [reflexivity|].
  rewrite length_app. simpl.
  destruct (Nat.eqb_spec (length cur + 1) 3); symmetry.
  - apply Z.leb_le. lia.
  - apply Z.leb_gt. lia.
Qed.

Lemma closes_false_short (p : list string) :
  (length p <= 3)%nat → closes p = false → (length p < 3)%nat.
Proof.
  unfold closes. intros Hle H.
  apply orb_false_iff in H as [H _]. apply orb_false_iff in H as [H _].
  apply Nat.eqb_neq in H. lia.
Qed.

Lemma sentence_step_closes (subs : list subsection) (cur : list string)
    (s : string) :
  (length cur < 3)%nat →
  sentence_step sent_tokenize (subs, cur) s
  = if closes (cur ++ [s])
    then (keep_paragraph sent_tokenize subs (cur ++ [s]), [])
    else (subs, (cur ++ [s])%list).
Proof.
  intros Hlen. unfold sentence_step. cbn [fst snd].
  rewrite (loop_condition_closes cur s Hlen).
  destruct (closes (cur ++ [s])); [|reflexivity].
  destruct cur; reflexivity.
Qed.

(** The loop and the final flush yield the long enough paragraphs. *)
Lemma extract_subsections_from (sents : list string)
    (subs : list subsection) (cur : list string) :
  (length cur < 3)%nat →
  ∀ st, fold_left (sentence_step sent_tokenize) sents (subs, cur) = st →
  match snd st with
  | [] => fst st
  | _ => keep_paragraph sent_tokenize (fst st) (snd st)
  end
  = (subs ++ map subsection_of
                 (List.filter long_enough (paragraphs cur sents)))%list.
Proof.
  revert subs cur. induction sents as [|s r IH]; intros subs cur Hlen st Hst.
  - simpl in Hst. subst st. cbn [fst snd paragraphs].
    destruct cur as [|c cur'].
    + simpl. now rewrite app_nil_r.
    + apply keep_paragraph_filter.
  - cbn [fold_left] in Hst. rewrite (sentence_step_closes _ _ _ Hlen) in Hst.
    cbn [paragraphs].
    destruct (closes (cur ++ [s])) eqn:Hc.
    + rewrite (IH _ [] ltac:(simpl; lia) st Hst).
      rewrite keep_paragraph_filter. cbn [List.filter map].
      destruct (10 <? _); simpl; rewrite <- ?app_assoc; [reflexivity|].
      reflexivity.
    + apply (IH subs (cur ++ [s])%list); [|assumption].
      apply closes_false_short; [|assumption].
      rewrite length_app. simpl. lia.
Qed.

Lemma prefix_of_snoc (q r cur : list string) (s : string) :
  (q ++ r)%list = (cur ++ [s])%list → r ≠ [] → ∃ r', cur = (q ++ r')%list.
Proof.
  intros H Hr. destruct (exists_last Hr) as (r' & x & ->).
  rewrite app_assoc in H. apply app_inj_tail in H as [H _].
  now exists r'.
Qed.

(** [paragraphs] groups, provided that what is open could not have been
    closed yet. *)
Lemma paragraphs_grouping (sents cur : list string) :
  (∀ q r, cur = (q ++ r)%list → q ≠ [] → closes q = false) →
  concat (paragraphs cur sents) = (cur ++ sents)%list ∧
  ∀ i p, paragraphs cur sents !! i = Some p →
    p ≠ [] ∧
    (∀ q r, p = (q ++ r)%list → q ≠ [] → r ≠ [] → closes q = false) ∧
    ((S i < length (paragraphs cur sents))%nat → closes p = true).
Proof.
  revert cur. induction sents as [|s rest IH]; intros cur Hopen.
  - destruct cur as [|c cur']; simpl.
    + split; [reflexivity|]. intros i p Hp. now destruct i.
    + split; [now rewrite !app_nil_r|].
      intros [|i] p Hp; [|now destruct i].
      injection Hp as <-. split_and!.
      * discriminate.
      * intros q r Hq Hne _. now apply (Hopen q r).
      * simpl. lia.
  - cbn [paragraphs].
    assert (Hproper : ∀ q r, (cur ++ [s])%list = (q ++ r)%list →
                             q ≠ [] → r ≠ [] → closes q = false).
    { intros q r Hq Hne Hr.
      destruct (prefix_of_snoc q r cur s (eq_sym Hq) Hr) as (r' & Hcur).
      now apply (Hopen q r'). }
    destruct (closes (cur ++ [s])) eqn:Hc.
    + destruct (IH []) as [Hcat Hpar].
      { intros q r Hq Hne. now destruct q. }
      split.
      * simpl. rewrite Hcat. simpl. now rewrite <- app_assoc.
      * intros [|i] p Hp.
        -- injection Hp as <-. split_and!.
           ++ now destruct cur.
           ++ exact Hproper.
           ++ intros _. exact Hc.
        -- simpl in Hp. destruct (Hpar i p Hp) as (H1 & H2 & H3).
           split_and!; [assumption..|].
           intros Hi. apply H3. simpl in Hi. lia.
    + destruct (IH (cur ++ [s])%list) as [Hcat Hpar].
      { intros q r Hq Hne. destruct r as [|x r'].
        - rewrite app_nil_r in Hq. now subst q.
        - now apply (Hproper q (x :: r')). }
      split; [|exact Hpar].
      rewrite Hcat. now rewrite <- app_assoc.
Qed.

(** The summary of a paragraph of at most 30 words, or of at most 2
    sentences, is the paragraph; that of any other is its first
    sentence. *)
Theorem summary_is_paragraph_or_first_sentence (text : string) :
  (words text <= 30 → generate_summary sent_tokenize text = text) ∧
  (30 < words text → (length (sent_tokenize text) <= 2)%nat →
   generate_summary sent_tokenize text = text) ∧
  (30 < words text → (2 < length (sent_tokenize text))%nat →
   ∃ first rest, sent_tokenize text = first :: rest ∧
                 generate_summary sent_tokenize text = first).
Proof.
  unfold generate_summary, words. split_and!.
  - intros H. apply Z.leb_le in H. now rewrite H.
  - intros H1 H2. apply Z.leb_gt in H1. rewrite H1.
    replace (Z.of_nat (length (sent_tokenize text)) <=? 2) with true
      by (symmetry; apply Z.leb_le; lia).
    reflexivity.
  - intros H1 H2. apply Z.leb_gt in H1. rewrite H1.
    replace (Z.of_nat (length (sent_tokenize text)) <=? 2) with false
      by (symmetry; apply Z.leb_gt; lia).
    destruct (sent_tokenize text) as [|first rest]; [simpl in H2; lia|].
    eauto.
Qed.

(** C6. The splitter cuts the sentences of a body into consecutive
    paragraphs, closing a paragraph exactly when it has 3 sentences, or
    its last sentence ends with a colon, or it exceeds 200 characters
    once joined with spaces, and flushing the one still open at the end;
    the subsections are the paragraphs of more than 10 words, in order.
    A paragraph of 10 words is dropped and one of 11 words is kept. *)
Theorem paragraphs_close_at_three_colon_or_200 (content : string) :
  (∃ paras,
     grouping (sent_tokenize content) paras ∧
     extract_subsections sent_tokenize content
     = map (fun p => {| sub_text := PyStr.join " " p;
                        summary := generate_summary sent_tokenize
                                                    (PyStr.join " " p) |})
           (List.filter (fun p => 10 <? words (PyStr.join " " p)) paras)) ∧
  (∀ subs p, words (PyStr.join " " p) = 10 →
             keep_paragraph sent_tokenize subs p = subs) ∧
  (∀ subs p, words (PyStr.join " " p) = 11 →
             keep_paragraph sent_tokenize subs p
             = (subs ++ [ {| sub_text := PyStr.join " " p;
                             summary := generate_summary sent_tokenize
                                                         (PyStr.join " " p) |} ])%list).
Proof.
  split_and!.
  - exists (paragraphs [] (sent_tokenize content)). split.
    + destruct (paragraphs_grouping (sent_tokenize content) []) as [Hcat Hpar].
      { intros q r Hq Hne. now destruct q. }
      split; assumption.
    + unfold extract_subsections.
      now rewrite (extract_subsections_from (sent_tokenize content) [] []
                     ltac:(simpl; lia) _ eq_refl).
  - intros subs p Hw. unfold keep_paragraph. fold (words (PyStr.join " " p)).
    now rewrite Hw.
  - intros subs p Hw. unfold keep_paragraph. fold (words (PyStr.join " " p)).
    now rewrite Hw.
Qed.

End Splitter.

(* ===================================================================== *)
(** ** The numbering patterns on lines of a known shape *)
(* ===================================================================== *)

Section Shapes.

Import PDFOutlineExtractor.

(** *** The matcher on a run of characters of one class *)

Lemma star_skip (c : ascii -> bool) (k : string -> option string) (s : string) :
  match s with String a _ => c a = false | EmptyString => True end →
  Re.star c k s = k s.
Proof. destruct s as [|a r]; simpl; [reflexivity|]. now intros ->. Qed.

Lemma star_at_least (c : ascii -> bool) (k : string -> option string) (s : string) :
  is_Some (k s) → is_Some (Re.star c k s).
Proof.
  intros Hk. destruct s as [|a r]; simpl; [assumption|].
  destruct (c a); [|assumption]. destruct (Re.star c k r); eauto.
Qed.

(** If the continuation matches after the whole run, the star matches. *)
Lemma star_succeeds (c : ascii -> bool) (k : string -> option string) (p r : string) :
  PyStr.forallb_str c p = true → is_Some (k r) → is_Some (Re.star c k (p ++ r)).
Proof.
  intros Hp Hk. induction p as [|a p' IH]; simpl.
  - now apply star_at_least.
  - simpl in Hp. apply andb_true_iff in Hp as [Ha Hp']. rewrite Ha.
    destruct (IH Hp') as [x ->]. eauto.
Qed.

(** If the continuation fails after every part of the run, so does the
    star: giving characters back does not help. *)
Lemma star_fails (c : ascii -> bool) (k : string -> option string) (p r : string) :
  PyStr.forallb_str c p = true →
  match r with String a _ => c a = false | EmptyString => True end →
  (∀ q, PyStr.forallb_str c q = true → k (q ++ r) = None) →
  Re.star c k (p ++ r) = None.
Proof.
  intros Hp Hr Hk. induction p as [|a p' IH].
  - simpl. rewrite star_skip by assumption. apply (Hk "" eq_refl).
  - simpl in Hp. apply andb_true_iff in Hp as [Ha Hp'].
    change (String a p' ++ r) with (String a (p' ++ r)). simpl. rewrite Ha.
    rewrite (IH Hp'). apply (Hk (String a p')). simpl. now rewrite Ha, Hp'.
Qed.

Lemma append_empty (s : string) : s ++ "" = s.
Proof.
  induction s as [|a r IH]; [reflexivity|].
  change (String a r ++ "") with (String a (r ++ "")). now rewrite IH.
Qed.

(** *** Characters *)

Lemma decimal_is_plain (a : ascii) :
  PyStr.isdecimal a = true →
  ws a = false ∧ period a = false ∧ Re.dot a = true.
Proof.
  destruct a as [[] [] [] [] [] [] [] []]; vm_compute; intros H;
    try discriminate; auto.
Qed.

Lemma capital_is_plain (a : ascii) :
  PyStr.between 65 90 a = true → ws a = false ∧ digit a = false.
Proof.
  destruct a as [[] [] [] [] [] [] [] []]; vm_compute; intros H;
    try discriminate; auto.
Qed.

Lemma roman_is_capital (a : ascii) :
  Re.lit "IVX" a = true → PyStr.between 65 90 a = true.
Proof.
  destruct a as [[] [] [] [] [] [] [] []]; vm_compute; intros H;
    try discriminate; auto.
Qed.

(** *** One item of a pattern at a time *)

Lemma run_star_skip (c : ascii -> bool) (rest : list Re.item) (s : string) :
  match s with String a _ => c a = false | EmptyString => True end →
  Re.run (Re.Cls c Re.Star :: rest) s = Re.run rest s.
Proof. intros H. cbn [Re.run]. now apply star_skip. Qed.

Lemma run_one (c : ascii -> bool) (rest : list Re.item) (a : ascii) (r : string) :
  Re.run (Re.Cls c Re.One :: rest) (String a r)
  = if c a then Re.run rest r else None.
Proof. reflexivity. Qed.

Lemma run_opt_skip (c : ascii -> bool) (rest : list Re.item) (s : string) :
  is_Some (Re.run rest s) → is_Some (Re.run (Re.Cls c Re.Opt :: rest) s).
Proof.
  intros H. cbn [Re.run]. destruct s as [|a r]; [assumption|].
  destruct (c a); [|assumption]. destruct (Re.run rest r); eauto.
Qed.

Lemma run_opt_take (c : ascii -> bool) (rest : list Re.item) (a : ascii)
    (r : string) :
  c a = true → is_Some (Re.run rest r) →
  is_Some (Re.run (Re.Cls c Re.Opt :: rest) (String a r)).
Proof. intros Ha [x Hx]. cbn [Re.run]. rewrite Ha, Hx. eauto. Qed.

Lemma run_opt_fails (c : ascii -> bool) (rest : list Re.item) (a : ascii)
    (r : string) :
  (c a = true → Re.run rest r = None) → Re.run rest (String a r) = None →
  Re.run (Re.Cls c Re.Opt :: rest) (String a r) = None.
Proof.
  intros H1 H2. cbn [Re.run]. destruct (c a); [|assumption].
  now rewrite H1.
Qed.

Lemma run_plus (c : ascii -> bool) (rest : list Re.item) (a : ascii)
    (p r : string) :
  c a = true → PyStr.forallb_str c p = true → is_Some (Re.run rest r) →
  is_Some (Re.run (Re.Cls c Re.Plus :: rest) (String a (p ++ r))).
Proof.
  intros Ha Hp Hr. cbn [Re.run]. rewrite Ha. now apply star_succeeds.
Qed.

Lemma run_plus_fails (c : ascii -> bool) (rest : list Re.item) (a : ascii)
    (p r : string) :
  PyStr.forallb_str c p = true →
  match r with String b _ => c b = false | EmptyString => True end →
  (∀ q, PyStr.forallb_str c q = true → Re.run rest (q ++ r) = None) →
  Re.run (Re.Cls c Re.Plus :: rest) (String a (p ++ r)) = None.
Proof.
  intros Hp Hr Hk. cbn [Re.run]. destruct (c a); [|reflexivity].
  now apply star_fails.
Qed.

Lemma run_plus_needs (c : ascii -> bool) (rest : list Re.item) (a : ascii)
    (r : string) :
  c a = false → Re.run (Re.Cls c Re.Plus :: rest) (String a r) = None.
Proof. intros Ha. cbn [Re.run]. now rewrite Ha. Qed.

(** *** The end of every pattern: [\.?\s+(.+)$] *)

Local Abbreviation tail :=
  [Re.Cls ws Re.Plus; Re.Cls Re.dot Re.Plus; Re.Dollar].

Lemma tail_matches (body : string) :
  heading_body body → is_Some (Re.run tail (String " " body)).
Proof.
  intros (c & r & -> & Hc & Hdot). simpl in Hdot.
  apply andb_true_iff in Hdot as [Hc' Hr].
  change (String " " (String c r)) with (String " " ("" ++ String c r)).
  apply run_plus; [reflexivity..|].
  rewrite <- (append_empty r). apply run_plus; [assumption..|].
  simpl. eauto.
Qed.

Lemma tail_needs_space (a : ascii) (r : string) :
  ws a = false → Re.run tail (String a r) = None.
Proof. apply run_plus_needs. Qed.

Lemma separator_matches (sep body : string) :
  separator sep → heading_body body →
  is_Some (Re.run (Re.Cls period Re.Opt :: tail) (sep ++ body)).
Proof.
  intros [-> | ->] Hbody.
  - apply run_opt_skip. now apply tail_matches.
  - change (". " ++ body) with (String "." (String " " body)).
    apply run_opt_take; [reflexivity|]. now apply tail_matches.
Qed.

(** After a numeral, [\.?\s+] cannot be followed by another numeral. *)
Lemma separator_fails_before_numeral (q m rest : string) :
  PyStr.forallb_str digit q = true → numeral m →
  Re.run (Re.Cls period Re.Opt :: tail) (q ++ "." ++ m ++ rest) = None.
Proof.
  intros Hq [Hm Hd]. destruct m as [|b m']; [congruence|].
  simpl in Hd. apply andb_true_iff in Hd as [Hb _].
  destruct (decimal_is_plain b Hb) as (Hws & _ & _).
  destruct q as [|a q'].
  - change ("" ++ "." ++ String b m' ++ rest)
      with (String "." (String b (m' ++ rest))).
    apply run_opt_fails.
    + intros _. now apply tail_needs_space.
    + now apply tail_needs_space.
  - simpl in Hq. apply andb_true_iff in Hq as [Ha _].
    destruct (decimal_is_plain a Ha) as (Hwa & Hpa & _).
    change (String a q' ++ "." ++ String b m' ++ rest)
      with (String a (q' ++ "." ++ String b m' ++ rest)).
    apply run_opt_fails.
    + intros H. congruence.
    + now apply tail_needs_space.
Qed.

(** *** The five patterns *)

Lemma matches_true (its : list Re.item) (s : string) :
  is_Some (Re.run its s) → Re.matches its s = true.
Proof. intros [x Hx]. unfold Re.matches. now rewrite Hx. Qed.

Lemma matches_false (its : list Re.item) (s : string) :
  Re.run its s = None → Re.matches its s = false.
Proof. intros Hx. unfold Re.matches. now rewrite Hx. Qed.

Lemma numeral_first (n : string) :
  numeral n →
  ∃ a n', n = String a n' ∧ digit a = true ∧ PyStr.forallb_str digit n' = true.
Proof.
  intros [Hn Hd]. destruct n as [|a n']; [congruence|].
  simpl in Hd. apply andb_true_iff in Hd as [Ha Hn']. eauto.
Qed.

Lemma roman_first (n : string) :
  roman n →
  ∃ a n', n = String a n' ∧ Re.lit "IVX" a = true ∧
          PyStr.forallb_str (Re.lit "IVX") n' = true.
Proof.
  intros [Hn Hd]. destruct n as [|a n']; [congruence|].
  simpl in Hd. apply andb_true_iff in Hd as [Ha Hn']. eauto.
Qed.

Lemma pat_n_matches (n sep body : string) :
  numeral n → separator sep → heading_body body →
  Re.matches (items pat_n) (n ++ sep ++ body) = true.
Proof.
  intros Hn Hsep Hbody. destruct (numeral_first n Hn) as (a & n' & -> & Ha & Hn').
  destruct (decimal_is_plain a Ha) as (Hws & _ & _).
  apply matches_true. unfold pat_n, items.
  change (String a n' ++ sep ++ body) with (String a (n' ++ sep ++ body)).
  rewrite run_star_skip by exact Hws.
  apply run_plus; [assumption..|]. now apply separator_matches.
Qed.

Lemma pat_n_fails (n m rest : string) :
  numeral n → numeral m →
  Re.matches (items pat_n) (n ++ "." ++ m ++ rest) = false.
Proof.
  intros Hn Hm. destruct (numeral_first n Hn) as (a & n' & -> & Ha & Hn').
  destruct (decimal_is_plain a Ha) as (Hws & _ & _).
  apply matches_false. unfold pat_n, items.
  change (String a n' ++ "." ++ m ++ rest)
    with (String a (n' ++ String "." (m ++ rest))).
  rewrite run_star_skip by exact Hws.
  apply run_plus_fails; [assumption|reflexivity|].
  intros q Hq. now apply (separator_fails_before_numeral q m rest).
Qed.

Lemma pat_n_n_matches (n m sep body : string) :
  numeral n → numeral m → separator sep → heading_body body →
  Re.matches (items pat_n_n) (n ++ "." ++ m ++ sep ++ body) = true.
Proof.
  intros Hn Hm Hsep Hbody.
  destruct (numeral_first n Hn) as (a & n' & -> & Ha & Hn').
  destruct (numeral_first m Hm) as (b & m' & -> & Hb & Hm').
  destruct (decimal_is_plain a Ha) as (Hws & _ & _).
  apply matches_true. unfold pat_n_n, items.
  change (String a n' ++ "." ++ String b m' ++ sep ++ body)
    with (String a (n' ++ String "." (String b (m' ++ sep ++ body)))).
  rewrite run_star_skip by exact Hws.
  apply run_plus; [assumption..|]. rewrite run_one.
  replace (period ".") with true by reflexivity.
  apply run_plus; [assumption..|]. now apply separator_matches.
Qed.

Lemma pat_n_n_fails (n m k rest : string) :
  numeral n → numeral m → numeral k →
  Re.matches (items pat_n_n) (n ++ "." ++ m ++ "." ++ k ++ rest) = false.
Proof.
  intros Hn Hm Hk.
  destruct (numeral_first n Hn) as (a & n' & -> & Ha & Hn').
  destruct (numeral_first m Hm) as (b & m' & -> & Hb & Hm').
  destruct (decimal_is_plain a Ha) as (Hws & _ & _).
  apply matches_false. unfold pat_n_n, items.
  change (String a n' ++ "." ++ String b m' ++ "." ++ k ++ rest)
    with (String a (n' ++ String "." (String b (m' ++ String "." (k ++ rest))))).
  rewrite run_star_skip by exact Hws.
  apply run_plus_fails; [assumption|reflexivity|].
  intros q Hq. destruct q as [|c q'].
  - change ("" ++ String "." (String b (m' ++ String "." (k ++ rest))))
      with (String "." (String b (m' ++ String "." (k ++ rest)))).
    rewrite run_one. replace (period ".") with true by reflexivity.
    apply run_plus_fails; [assumption|reflexivity|].
    intros q Hq'. now apply (separator_fails_before_numeral q k rest).
  - simpl in Hq. apply andb_true_iff in Hq as [Hc _].
    destruct (decimal_is_plain c Hc) as (_ & Hp & _).
    change (String c q' ++ String "." (String b (m' ++ String "." (k ++ rest))))
      with (String c (q' ++ String "." (String b (m' ++ String "." (k ++ rest))))).
    rewrite run_one. now rewrite Hp.
Qed.

Lemma pat_n_n_n_matches (n m k sep body : string) :
  numeral n → numeral m → numeral k → separator sep → heading_body body →
  Re.matches (items pat_n_n_n) (n ++ "." ++ m ++ "." ++ k ++ sep ++ body) = true.
Proof.
  intros Hn Hm Hk Hsep Hbody.
  destruct (numeral_first n Hn) as (a & n' & -> & Ha & Hn').
  destruct (numeral_first m Hm) as (b & m' & -> & Hb & Hm').
  destruct (numeral_first k Hk) as (c & k' & -> & Hc & Hk').
  destruct (decimal_is_plain a Ha) as (Hws & _ & _).
  apply matches_true. unfold pat_n_n_n, items.
  change (String a n' ++ "." ++ String b m' ++ "." ++ String c k' ++ sep ++ body)
    with (String a (n' ++ String "." (String b (m' ++
            String "." (String c (k' ++ sep ++ body)))))).
  rewrite run_star_skip by exact Hws.
  apply run_plus; [assumption..|]. rewrite run_one.
  replace (period ".") with true by reflexivity.
  apply run_plus; [assumption..|]. rewrite run_one.
  replace (period ".") with true by reflexivity.
  apply run_plus; [assumption..|]. now apply separator_matches.
Qed.

(** The three numeric patterns need a digit after the leading white
    space. *)
Lemma numeric_patterns_need_digit (a : ascii) (r : string) :
  ws a = false → digit a = false →
  Re.matches (items pat_n) (String a r) = false ∧
  Re.matches (items pat_n_n) (String a r) = false ∧
  Re.matches (items pat_n_n_n) (String a r) = false.
Proof.
  intros Hws Hd. split_and!; apply matches_false;
    unfold pat_n, pat_n_n, pat_n_n_n, items;
    rewrite run_star_skip by exact Hws; now apply run_plus_needs.
Qed.

Lemma pat_letter_matches (c : ascii) (sep body : string) :
  PyStr.between 65 90 c = true → separator sep → heading_body body →
  Re.matches (items pat_letter) (String c (sep ++ body)) = true.
Proof.
  intros Hc Hsep Hbody. destruct (capital_is_plain c Hc) as (Hws & _).
  apply matches_true. unfold pat_letter, items.
  rewrite run_star_skip by exact Hws. rewrite run_one, Hc.
  now apply separator_matches.
Qed.

Lemma pat_roman_matches (n sep body : string) :
  roman n → separator sep → heading_body body →
  Re.matches (items pat_roman) (n ++ sep ++ body) = true.
Proof.
  intros Hn Hsep Hbody. destruct (roman_first n Hn) as (a & n' & -> & Ha & Hn').
  destruct (capital_is_plain a (roman_is_capital a Ha)) as (Hws & _).
  apply matches_true. unfold pat_roman, items.
  change (String a n' ++ sep ++ body) with (String a (n' ++ sep ++ body)).
  rewrite run_star_skip by exact Hws.
  apply run_plus; [assumption..|]. now apply separator_matches.
Qed.

End Shapes.

(* ===================================================================== *)
(** ** The heading classifier *)
(* ===================================================================== *)

Section Classifier.

Import PDFOutlineExtractor.

Lemma find_first {A : Type} (f : A -> bool) (before after : list A) (p : A) :
  Forall (fun q => f q = false) before → f p = true →
  find f (before ++ p :: after) = Some p.
Proof.
  intros Hb Hp. induction Hb as [|q r Hq _ IH]; simpl.
  - now rewrite Hp.
  - now rewrite Hq.
Qed.

(** C9. A fragment of more than 200 characters is not a heading, whatever
    its numbering, font size or boldness. *)
Theorem longer_than_200_is_no_heading (b : block)
    (font_stats : option font_statistics) :
  200 < PyStr.len (text b) → is_likely_heading b font_stats = Ok (false, 0).
Proof.
  intros Hlen. unfold is_likely_heading.
  apply Z.ltb_lt in Hlen. now rewrite Hlen.
Qed.

Lemma shouting_250_is_no_heading :
  PyStr.len (text Samples.shouting_250) = 250 ∧
  Re.matches (items pat_n) (text Samples.shouting_250) = true ∧
  is_bold (main_span (Samples.span_of (text Samples.shouting_250) 30 16) []) = true ∧
  is_likely_heading Samples.shouting_250 (Some Samples.body_10pt) = Ok (false, 0).
Proof.
  split; [vm_compute; reflexivity|].
  split; [vm_compute; reflexivity|].
  split; [vm_compute; reflexivity|].
  apply (longer_than_200_is_no_heading Samples.shouting_250
           (Some Samples.body_10pt)).
  vm_compute. reflexivity.
Defined.

(** The numbered line of 203 characters matches the first pattern and is
    turned down all the same. *)
Lemma numbered_but_too_long :
  Re.matches (items pat_n) (text Samples.long_numbered) = true ∧
  PyStr.len (text Samples.long_numbered) = 203 ∧
  ∀ font_stats,
    is_likely_heading Samples.long_numbered font_stats = Ok (false, 0).
Proof.
  split; [vm_compute; reflexivity|].
  split; [vm_compute; reflexivity|].
  intros font_stats. unfold is_likely_heading.
  replace (200 <? PyStr.len (text Samples.long_numbered)) with true
    by (vm_compute; reflexivity).
  reflexivity.
Qed.

(** A fragment of at most 200 characters is a heading of the level of the
    first pattern that matches it. *)
Lemma classified_by_first_match (b : block)
    (font_stats : option font_statistics)
    (before after : list pattern) (p : pattern) :
  PyStr.len (text b) <= 200 →
  numbered = (before ++ p :: after)%list →
  Forall (fun q => Re.matches (items q) (text b) = false) before →
  Re.matches (items p) (text b) = true →
  is_likely_heading b font_stats = Ok (true, pattern_level p).
Proof.
  intros Hlen Hnum Hbefore Hp. unfold is_likely_heading.
  replace (200 <? PyStr.len (text b)) with false by (symmetry; apply Z.ltb_ge; lia).
  rewrite Hnum.
  now rewrite (find_first (fun q => Re.matches (items q) (text b))
                 before after p Hbefore Hp).
Qed.

(** C3, amended. A fragment of at most 200 characters that matches a
    numbering pattern is a heading of the level of the first pattern, in
    the order of the list, that matches: level 1 for [N.], a letter or a
    Roman numeral, level 2 for [N.N], level 3 for [N.N.N]. So a line that
    is one numeral, a separator and a heading has level 1, one with two
    numerals joined by a period level 2, one with three level 3, and one
    that starts with a capital letter or a Roman numeral level 1;
    "1. Introduction" is emitted as H1 "Introduction" and "2.3 Background"
    as H2 "Background". *)
Theorem first_matching_pattern_gives_level (b : block)
    (font_stats : option font_statistics) :
  PyStr.len (text b) <= 200 →
  (∀ before p after,
     numbered = (before ++ p :: after)%list →
     Forall (fun q => Re.matches (items q) (text b) = false) before →
     Re.matches (items p) (text b) = true →
     is_likely_heading b font_stats = Ok (true, pattern_level p)) ∧
  (numbered = [pat_n; pat_n_n; pat_n_n_n; pat_letter; pat_roman] ∧
   pattern_level pat_n = 1 ∧ pattern_level pat_n_n = 2 ∧
   pattern_level pat_n_n_n = 3 ∧ pattern_level pat_letter = 1 ∧
   pattern_level pat_roman = 1) ∧
  (∀ n sep body,
     numeral n → separator sep → heading_body body →
     text b = n ++ sep ++ body →
     is_likely_heading b font_stats = Ok (true, 1)) ∧
  (∀ n m sep body,
     numeral n → numeral m → separator sep → heading_body body →
     text b = n ++ "." ++ m ++ sep ++ body →
     is_likely_heading b font_stats = Ok (true, 2)) ∧
  (∀ n m k sep body,
     numeral n → numeral m → numeral k → separator sep → heading_body body →
     text b = n ++ "." ++ m ++ "." ++ k ++ sep ++ body →
     is_likely_heading b font_stats = Ok (true, 3)) ∧
  (∀ c sep body,
     PyStr.between 65 90 c = true → separator sep → heading_body body →
     text b = String c (sep ++ body) →
     is_likely_heading b font_stats = Ok (true, 1)) ∧
  (∀ n sep body,
     roman n → separator sep → heading_body body →
     text b = n ++ sep ++ body →
     is_likely_heading b font_stats = Ok (true, 1)) ∧
  (∀ line_info pg seen,
     "Introduction" ∉ seen →
     heading_step font_stats ([], seen)
       {| text := "1. Introduction"; info := line_info; page := pg |}
     = Ok ([ {| h_level := "H1"; h_text := "Introduction"; h_page := pg |} ],
           {[ "Introduction" ]} ∪ seen)) ∧
  (∀ line_info pg seen,
     "Background" ∉ seen →
     heading_step font_stats ([], seen)
       {| text := "2.3 Background"; info := line_info; page := pg |}
     = Ok ([ {| h_level := "H2"; h_text := "Background"; h_page := pg |} ],
           {[ "Background" ]} ∪ seen)).
Proof.
  intros Hlen. split_and!.
  - intros before p after. now apply classified_by_first_match.
  - reflexivity.
  - vm_compute. reflexivity.
  - vm_compute. reflexivity.
  - vm_compute. reflexivity.
  - vm_compute. reflexivity.
  - vm_compute. reflexivity.
  - intros n sep body Hn Hsep Hbody Ht.
    apply (classified_by_first_match b font_stats []
             [pat_n_n; pat_n_n_n; pat_letter; pat_roman] pat_n);
      [assumption|reflexivity|constructor|].
    rewrite Ht. now apply pat_n_matches.
  - intros n m sep body Hn Hm Hsep Hbody Ht.
    apply (classified_by_first_match b font_stats [pat_n]
             [pat_n_n_n; pat_letter; pat_roman] pat_n_n);
      [assumption|reflexivity| |].
    + constructor; [|constructor]. rewrite Ht. now apply pat_n_fails.
    + rewrite Ht. now apply pat_n_n_matches.
  - intros n m k sep body Hn Hm Hk Hsep Hbody Ht.
    apply (classified_by_first_match b font_stats [pat_n; pat_n_n]
             [pat_letter; pat_roman] pat_n_n_n);
      [assumption|reflexivity| |].
    + constructor; [|constructor; [|constructor]]; rewrite Ht.
      * now apply pat_n_fails.
      * now apply pat_n_n_fails.
    + rewrite Ht. now apply pat_n_n_n_matches.
  - intros c sep body Hc Hsep Hbody Ht.
    destruct (capital_is_plain c Hc) as (Hws & Hd).
    destruct (numeric_patterns_need_digit c (sep ++ body) Hws Hd)
      as (H1 & H2 & H3).
    apply (classified_by_first_match b font_stats [pat_n; pat_n_n; pat_n_n_n]
             [pat_roman] pat_letter);
      [assumption|reflexivity| |].
    + rewrite Ht. repeat constructor; assumption.
    + rewrite Ht. now apply pat_letter_matches.
  - intros n sep body Hn Hsep Hbody Ht.
    destruct (roman_first n Hn) as (a & n' & Hn' & Ha & _).
    destruct (capital_is_plain a (roman_is_capital a Ha)) as (Hws & Hd).
    destruct (numeric_patterns_need_digit a (n' ++ sep ++ body) Hws Hd)
      as (H1 & H2 & H3).
    assert (Ht' : text b = String a (n' ++ sep ++ body)) by (now rewrite Ht, Hn').
    destruct (Re.matches (items pat_letter) (text b)) eqn:Hl.
    + apply (classified_by_first_match b font_stats [pat_n; pat_n_n; pat_n_n_n]
               [pat_roman] pat_letter);
        [assumption|reflexivity| |assumption].
      rewrite Ht'. repeat constructor; assumption.
    + apply (classified_by_first_match b font_stats
               [pat_n; pat_n_n; pat_n_n_n; pat_letter] [] pat_roman);
        [assumption|reflexivity| |].
      * repeat constructor; try assumption; rewrite Ht'; assumption.
      * rewrite Ht. now apply pat_roman_matches.
  - intros line_info pg seen Hseen. unfold heading_step.
    replace (is_likely_heading _ font_stats) with (@Ok (bool * Z) (true, 1))
      by (symmetry; unfold is_likely_heading; vm_compute; reflexivity).
    cbn [mbind result_bind Py.bind fst snd].
    replace (clean_heading _) with "Introduction" by (vm_compute; reflexivity).
    rewrite bool_decide_eq_false_2 by assumption. reflexivity.
  - intros line_info pg seen Hseen. unfold heading_step.
    replace (is_likely_heading _ font_stats) with (@Ok (bool * Z) (true, 2))
      by (symmetry; unfold is_likely_heading; vm_compute; reflexivity).
    cbn [mbind result_bind Py.bind fst snd].
    replace (clean_heading _) with "Background" by (vm_compute; reflexivity).
    rewrite bool_decide_eq_false_2 by assumption. reflexivity.
Qed.

Lemma Qltb_ratio (body size t : Q) :
  (0 < body)%Q → (body * t < size ↔ t < size / body)%Q.
Proof.
  intros Hb. split; intros H.
  - apply Qlt_shift_div_l; [assumption|]. now rewrite Qmult_comm.
  - apply (Qmult_lt_compat_r _ _ body) in H; [|assumption].
    rewrite (Qmult_comm (size / body)), Qmult_div_r in H.
    + now rewrite Qmult_comm.
    + intros E. rewrite E in Hb. now apply Qlt_irrefl in Hb.
Qed.

Lemma Qltb_compat (x x' y y' : Q) :
  (x == x')%Q → (y == y')%Q → Qltb x y = Qltb x' y'.
Proof.
  intros Hx Hy. destruct (Qltb x' y') eqn:E.
  - apply Qltb_true. apply Qltb_true in E. now rewrite Hx, Hy.
  - apply Qltb_false. apply Qltb_false in E. now rewrite Hx, Hy.
Qed.

Lemma fmul_compat (x x' y : Q) : (x == x')%Q → (fmul x y == fmul x' y)%Q.
Proof.
  intros H. unfold fmul. apply double_compat.
  now rewrite (double_compat x x' H).
Qed.

Lemma ratio_below (body size t : Q) :
  (0 < body)%Q → (size / body < t → size < body * t)%Q.
Proof.
  intros Hb H. apply (Qmult_lt_compat_r _ _ body) in H; [|assumption].
  rewrite (Qmult_comm (size / body)), Qmult_div_r in H.
  - now rewrite Qmult_comm.
  - intros E. rewrite E in Hb. now apply Qlt_irrefl in Hb.
Qed.

(** C8, amended. With font statistics and no numbering pattern that
    matches, a fragment is a heading exactly when its dominant span is
    larger than the body size times 1.2 or bold, it has at most 10 words,
    and it holds a keyword, or is bold, or is upper case, or starts with
    an upper-case letter and does not end with a period; its level is 1
    above the body size times 1.5, 2 above the body size times 1.3, and 3
    otherwise. The products are binary64 products, and sizes are compared
    as binary64 numbers: for a positive body size, a span whose size ratio
    is above the threshold by more than one part in [2^50] passes the
    test, and one whose ratio is below it by more than that fails; in
    between, rounding decides. A fragment without spans is no heading. A
    bold "Methodology" of 11pt on a 10pt body is a heading. *)
Theorem font_rule_decides_heading (b : block) (stats : font_statistics) :
  find (fun p => Re.matches (items p) (text b)) numbered = None →
  (spans (info b) = [] → is_likely_heading b (Some stats) = Ok (false, 0)) ∧
  (∀ first rest lvl,
     spans (info b) = first :: rest →
     (is_likely_heading b (Some stats) = Ok (true, lvl) ↔
      PyStr.len (text b) <= 200 ∧
      ((fmul (body_size stats) 1.2 < double (span_size (main_span first rest)))%Q ∨
       is_bold (main_span first rest) = true) ∧
      words (text b) <= 10 ∧
      (has_keyword (text b) = true ∨
       is_bold (main_span first rest) = true ∨
       PyStr.isupper (text b) = true ∨
       ∃ c r, text b = String c r ∧ PyStr.isupper_char c = true ∧
              PyStr.endswith (text b) "." = false) ∧
      lvl = size_level (span_size (main_span first rest)) (body_size stats))) ∧
  (∀ size body,
     ((fmul body 1.5 < double size)%Q → size_level size body = 1) ∧
     (¬ (fmul body 1.5 < double size)%Q → (fmul body 1.3 < double size)%Q →
      size_level size body = 2) ∧
     (¬ (fmul body 1.5 < double size)%Q → ¬ (fmul body 1.3 < double size)%Q →
      size_level size body = 3) ∧
     ((0 < body)%Q → ∀ t : Q, (0 < t)%Q →
        ((t * (1 + 2 ^ (-50)) < size / body)%Q → (fmul body t < double size)%Q) ∧
        ((size / body < t * (1 - 2 ^ (-50)))%Q →
         ¬ (fmul body t < double size)%Q))) ∧
  (∀ sp bbox pg stats',
     is_bold sp = true → (body_size stats' == 10)%Q → (span_size sp == 11)%Q →
     is_likely_heading {| text := "Methodology";
                          info := {| line_bbox := bbox; spans := [sp] |};
                          page := pg |} (Some stats') = Ok (true, 3)).
Proof.
  intros Hfind. split_and!.
  - intros Hspans. unfold is_likely_heading. rewrite Hfind, Hspans.
    now destruct (200 <? PyStr.len (text b)).
  - intros first rest lvl Hspans.
    unfold is_likely_heading, words. rewrite Hfind, Hspans.
    set (ms := main_span first rest).
    destruct (Z.ltb_spec 200 (PyStr.len (text b))) as [HL|HL].
    { split; [discriminate|]. intros (H & _). lia. }
    pose proof (Qltb_true (fmul (body_size stats) 1.2) (double (span_size ms)))
      as HS.
    destruct (Qltb (fmul (body_size stats) 1.2) (double (span_size ms))) eqn:ES;
      destruct (is_bold ms) eqn:EB; cbn [orb];
      try (split; [discriminate|]; intros (_ & [H|H] & _);
           [apply HS in H|]; discriminate).
    all: destruct (Z.leb_spec (Z.of_nat (length (PyStr.split (text b)))) 10)
           as [HW|HW];
      try (split; [discriminate|]; intros (_ & _ & H & _); lia).
    all: destruct (has_keyword (text b)) eqn:EK;
      destruct (PyStr.isupper (text b)) eqn:EU; cbn [orb].
    all: try (split;
              [intros [= <-]; split_and!; auto;
               first [left; now apply HS | right; reflexivity]
              | intros (_ & _ & _ & _ & ->); reflexivity]).
    all: destruct (text b) as [|c r] eqn:Et.
    all: try (split; [discriminate|];
              intros (_ & _ & _ & [H|[H|[H|(c0 & r0 & H & _)]]] & _);
              discriminate).
    all: destruct (PyStr.isupper_char c) eqn:Ec;
      destruct (PyStr.endswith (String c r) ".") eqn:Ee; cbn [andb negb].
    all: try (split; [discriminate|];
              intros (_ & _ & _ & [H|[H|[H|(c0 & r0 & H & Hc & He)]]] & _);
              try discriminate; injection H as <- <-; congruence).
    all: split;
      [intros [= <-]; split_and!; auto;
       [left; now apply HS | right; right; right; eauto]
      | intros (_ & _ & _ & _ & ->); reflexivity].
  - intros size body. unfold size_level. split_and!.
    + intros H. apply Qltb_true in H. now rewrite H.
    + intros H1 H2. apply Qltb_true in H2.
      destruct (Qltb (fmul body 1.5) (double size)) eqn:E; [|now rewrite H2].
      apply Qltb_true in E. contradiction.
    + intros H1 H2.
      destruct (Qltb (fmul body 1.5) (double size)) eqn:E1;
        [apply Qltb_true in E1; contradiction|].
      destruct (Qltb (fmul body 1.3) (double size)) eqn:E2;
        [apply Qltb_true in E2; contradiction|].
      reflexivity.
    + intros Hb t Ht. destruct (float_test_near body t size Hb Ht) as [N1 N2].
      split.
      * intros H. apply N1. apply Qltb_ratio in H; [|assumption].
        now rewrite Qmult_assoc in H.
      * intros H Hlt. apply ratio_below in H; [|assumption].
        rewrite Qmult_assoc in H. apply N2 in H.
        apply (Qlt_irrefl (double size)). eapply Qle_lt_trans; eassumption.
  - intros sp bbox pg stats' Hbold Hbody Hsize.
    unfold is_likely_heading. cbn [text info spans page].
    replace (200 <? PyStr.len "Methodology") with false by (vm_compute; reflexivity).
    replace (find _ numbered) with (@None pattern) by (vm_compute; reflexivity).
    unfold main_span. cbn [max_by]. rewrite Hbold, orb_true_r.
    replace (Z.of_nat (length (PyStr.split "Methodology")) <=? 10) with true
      by (vm_compute; reflexivity).
    replace (has_keyword "Methodology") with true by (vm_compute; reflexivity).
    cbn [orb]. unfold size_level.
    rewrite (Qltb_compat _ (fmul 10 1.5) _ (double 11))
      by (first [now apply fmul_compat | now apply double_compat]).
    rewrite (Qltb_compat (fmul (body_size stats') 1.3) (fmul 10 1.3) _ (double 11))
      by (first [now apply fmul_compat | now apply double_compat]).
    reflexivity.
Qed.

Lemma bold_methodology_is_heading :
  find (fun p => Re.matches (items p) (text Samples.methodology)) numbered = None ∧
  is_likely_heading Samples.methodology (Some Samples.body_10pt) = Ok (true, 3).
Proof.
  split; [vm_compute; reflexivity|].
  destruct (font_rule_decides_heading Samples.methodology Samples.body_10pt)
    as (_ & Hiff & _); [vm_compute; reflexivity|].
  apply (Hiff (Samples.span_of "Methodology" 11 16) [] 3); [reflexivity|].
  split_and!.
  - discriminate.
  - right. vm_compute. reflexivity.
  - discriminate.
  - left. vm_compute. reflexivity.
  - vm_compute. reflexivity.
Defined.

(** C8 as the specification states it fails at a threshold. A line that
    is not bold and whose size is exactly 1.2 times the body size, 14.4pt
    on 12pt, is a heading, though its ratio does not exceed 1.2: the
    binary64 product [12.0 * 1.2] is below the binary64 number 14.4. In
    the same way 14.4pt on a body of 9.6pt gets level 1, though its ratio
    does not exceed 1.5. *)
Lemma exact_ratio_passes :
  find (fun p => Re.matches (items p) (text Samples.summary_14_4pt)) numbered = None ∧
  is_bold (Samples.span_of "Summary" 14.4 0) = false ∧
  ¬ (1.2 < 14.4 / body_size Samples.body_12pt)%Q ∧
  is_likely_heading Samples.summary_14_4pt (Some Samples.body_12pt) = Ok (true, 3) ∧
  ¬ (1.5 < 14.4 / body_size Samples.body_9_6pt)%Q ∧
  is_likely_heading Samples.summary_14_4pt (Some Samples.body_9_6pt) = Ok (true, 1).
Proof.
  split_and!; try (vm_compute; reflexivity);
    intros H; apply Qltb_true in H; vm_compute in H; discriminate.
Qed.

Lemma background_is_level_2 :
  PyStr.len (text Samples.background) <= 200 ∧
  Re.matches (items pat_n) (text Samples.background) = false ∧
  Re.matches (items pat_n_n) (text Samples.background) = true ∧
  is_likely_heading Samples.background None = Ok (true, 2).
Proof.
  split; [vm_compute; discriminate|].
  split; [vm_compute; reflexivity|].
  split; [vm_compute; reflexivity|].
  destruct (first_matching_pattern_gives_level Samples.background None)
    as (H & _).
  - vm_compute. discriminate.
  - apply (H [pat_n] pat_n_n [pat_n_n_n; pat_letter; pat_roman]).
    + reflexivity.
    + constructor; [vm_compute; reflexivity|constructor].
    + vm_compute. reflexivity.
Defined.

(** C7, at a fragment the code mishandles. A bold line that starts with
    the letter U+00E2 is accepted as a heading, and the letter is taken
    off as if it were numbering: the class of the cleaning expression
    holds the characters U+00E2 and U+00A2 (and U+20AC), the bytes of a
    mis-decoded bullet, where a bullet was meant. *)
Theorem leading_letter_is_stripped_as_numbering :
  text Samples.a_la_carte = String (PyStr.chr 226) " la carte" ∧
  PyStr.islower_char (PyStr.chr 226) = true ∧
  PyStr.isdecimal (PyStr.chr 226) = false ∧
  Re.lit ".-*" (PyStr.chr 226) = false ∧
  numbering_char (PyStr.chr 226) = true ∧
  is_likely_heading Samples.a_la_carte (Some Samples.body_10pt) = Ok (true, 3) ∧
  clean_heading (text Samples.a_la_carte) = "la carte" ∧
  heading_step (Some Samples.body_10pt) ([], ∅) Samples.a_la_carte
  = Ok ([ {| h_level := "H3"; h_text := "la carte"; h_page := 1 |} ],
        {[ "la carte" ]} ∪ ∅).
Proof.
  split_and!; vm_compute; reflexivity.
Qed.

(** The classifier raises only on an empty text. *)
Lemma is_likely_heading_total (b : block) (font_stats : option font_statistics) :
  text b ≠ "" → ∃ r, is_likely_heading b font_stats = Ok r.
Proof.
  intros Hne. unfold is_likely_heading.
  destruct (text b) as [|c r] eqn:Et; [congruence|].
  repeat case_match; eauto.
Qed.

Lemma empty_text_can_raise :
  is_likely_heading (Samples.fragment "" 30 0 1) (Some Samples.body_10pt)
  = Raise IndexError.
Proof. vm_compute. reflexivity. Qed.

Lemma truthy_nonempty (t : string) : PyStr.truthy t = true ↔ t ≠ "".
Proof. destruct t; simpl; split; congruence. Qed.

Lemma read_line_texts (pg : pdf_page) (blocks : list block) (ln : line) :
  Forall (fun b => text b ≠ "") blocks →
  Forall (fun b => text b ≠ "") (read_line pg blocks ln).
Proof.
  intros H. unfold read_line.
  destruct (PyStr.truthy (PyStr.strip (line_text ln))) eqn:E; [|assumption].
  apply Forall_app. split; [assumption|].
  constructor; [|constructor]. simpl. now apply truthy_nonempty.
Qed.

Lemma read_block_texts (pg : pdf_page) (blocks : list block) (d : dict_block) :
  Forall (fun b => text b ≠ "") blocks →
  Forall (fun b => text b ≠ "") (read_block pg blocks d).
Proof.
  intros H. unfold read_block. destruct (block_type d =? 0); [|assumption].
  apply fold_left_invariant; [assumption|].
  intros s x Hs. now apply read_line_texts.
Qed.

Lemma extract_texts (pg : pdf_page) (blocks : list block) :
  extract_text_with_formatting pg = Ok blocks →
  Forall (fun b => text b ≠ "") blocks.
Proof.
  unfold extract_text_with_formatting.
  destruct (get_text pg) as [d|e]; simpl; [|discriminate].
  intros [= <-]. apply fold_left_invariant; [constructor|].
  intros s x Hs. now apply read_block_texts.
Qed.

(** C10. Every block the reader produces has a text that is not empty,
    so the classifier, whose only exception is the first character of an
    empty text, returns on every block of the reader, with or without font
    statistics. The reader itself fails only when the page cannot be
    read. *)
Theorem reader_blocks_are_classified (pg : pdf_page) :
  match extract_text_with_formatting pg with
  | Ok blocks =>
      Forall (fun b => text b ≠ "" ∧
                       ∀ font_stats, ∃ r, is_likely_heading b font_stats = Ok r)
             blocks
  | Raise e => get_text pg = Raise e
  end.
Proof.
  destruct (extract_text_with_formatting pg) as [blocks|e] eqn:E.
  - eapply Forall_impl; [apply (extract_texts pg blocks E)|].
    intros b Hb. split; [assumption|].
    intros font_stats. now apply is_likely_heading_total.
  - unfold extract_text_with_formatting in E.
    destruct (get_text pg); simpl in E; congruence.
Qed.

(** An accepted fragment has level 1, 2 or 3. *)
Lemma accepted_level (b : block) (font_stats : option font_statistics) (lvl : Z) :
  is_likely_heading b font_stats = Ok (true, lvl) → lvl = 1 ∨ lvl = 2 ∨ lvl = 3.
Proof.
  unfold is_likely_heading.
  destruct (200 <? PyStr.len (text b)); [discriminate|].
  destruct (find _ numbered) as [p|] eqn:Hfind.
  - intros [= <-]. apply find_some in Hfind as [Hin _].
    repeat (destruct Hin as [<-|Hin]; [vm_compute; auto|]). destruct Hin.
  - assert (Hsl : ∀ size body, size_level size body = 1 ∨
                               size_level size body = 2 ∨
                               size_level size body = 3).
    { intros size body. unfold size_level. repeat case_match; auto. }
    destruct font_stats as [stats|]; [|discriminate].
    destruct (spans (info b)) as [|first rest]; [discriminate|].
    repeat case_match; try discriminate; intros [= <-]; apply Hsl.
Qed.

End Classifier.

(* ===================================================================== *)
(** ** The font statistics *)
(* ===================================================================== *)

Section FontStatistics.

Import PDFOutlineExtractor.

Lemma max_by_is_max {A : Type} (key : A -> Z) (l : list A) (x : A) :
  In (max_by key x l) (x :: l) ∧
  ∀ y, In y (x :: l) → key y <= key (max_by key x l).
Proof.
  revert x. induction l as [|z r IH]; intros x; simpl.
  - split; [now left|]. intros y [<-|[]]. lia.
  - destruct (IH (if key x <? key z then z else x)) as [Hin Hmax]. split.
    + destruct Hin as [Hin|Hin]; [|now right; right].
      rewrite <- Hin. destruct (key x <? key z); [right; now left|now left].
    + intros y Hy.
      assert (Hxz : key x <= key (if key x <? key z then z else x) ∧
                    key z <= key (if key x <? key z then z else x)).
      { destruct (Z.ltb_spec (key x) (key z)); lia. }
      pose proof (Hmax _ (or_introl eq_refl)) as Hm.
      destruct Hy as [<-|[<-|Hy]]; [lia|lia|].
      apply Hmax. now right.
Qed.

Lemma add_count_not_empty (size : Q) (n : Z) (d : list (Q * Z)) :
  add_count size n d ≠ [].
Proof.
  destruct d as [|[k v] r]; simpl; [discriminate|].
  destruct (Qeq_bool k size); discriminate.
Qed.

Lemma count_block_empty (d : list (Q * Z)) (b : block) :
  count_block d b = [] ↔ d = [] ∧ spans (info b) = [].
Proof.
  unfold count_block. generalize (spans (info b)). intros sps.
  revert d. induction sps as [|sp r IH]; intros d; simpl.
  - split; [auto|now intros [-> _]].
  - rewrite IH. split; [|intros [_ H]; discriminate].
    intros [H _]. now apply add_count_not_empty in H.
Qed.

Lemma count_blocks_empty (blocks : list block) (d : list (Q * Z)) :
  fold_left count_block blocks d = [] ↔
  d = [] ∧ Forall (fun b => spans (info b) = []) blocks.
Proof.
  revert d. induction blocks as [|b r IH]; intros d; simpl.
  - split; [auto|now intros [-> _]].
  - rewrite IH, count_block_empty. split.
    + intros [[-> Hb] Hr]. split; [reflexivity|now constructor].
    + intros [-> H]. inversion H; subst. auto.
Qed.

Lemma some_span (blocks : list block) :
  Forall (fun b => spans (info b) = []) blocks ∨
  ∃ b, In b blocks ∧ spans (info b) ≠ [].
Proof.
  induction blocks as [|b r [IH|(b' & Hb' & Hs)]].
  - left. constructor.
  - destruct (spans (info b)) eqn:E.
    + left. now constructor.
    + right. exists b. split; [now left|congruence].
  - right. exists b'. split; [now right|assumption].
Qed.

Lemma sizes_descending (l : list Q) :
  StronglySorted (fun a b => (b <= a)%Q) (sort (fun a b => Qltb b a) l).
Proof.
  assert (Hs : StronglySorted (fun a b => Qltb a b = false)
                 (sort (fun a b => Qltb b a) l)).
  { apply (sort_sorted (fun a b => Qltb b a)).
    - intros a b H. apply Qltb_true in H. apply Qltb_false.
      now apply Qlt_le_weak.
    - intros a b c H1 H2. apply Qltb_false in H1, H2. apply Qltb_false.
      eapply Qle_trans; eassumption. }
  induction Hs as [|x r Hs IH Hx]; constructor; [assumption|].
  eapply Forall_impl; [exact Hx|]. intros y Hy. now apply Qltb_false in Hy.
Qed.

(** X2. The body size is the size that covers the most characters (the first
    such size in the order in which sizes are met), and one of the sizes
    listed, which are all the sizes met, in descending order. There are no
    statistics exactly when no block has a span. *)
Theorem body_size_is_most_used (blocks : list block) :
  match calculate_font_statistics blocks with
  | None => Forall (fun b => spans (info b) = []) blocks
  | Some stats =>
      (∃ b, In b blocks ∧ spans (info b) ≠ []) ∧
      (∃ n, In (body_size stats, n) (size_distribution stats) ∧
            ∀ size m, In (size, m) (size_distribution stats) → m <= n) ∧
      In (body_size stats) (sizes stats) ∧
      Permutation (sizes stats) (map fst (size_distribution stats)) ∧
      StronglySorted (fun a b => (b <= a)%Q) (sizes stats)
  end.
Proof.
  unfold calculate_font_statistics.
  destruct (fold_left count_block blocks []) as [|first rest] eqn:Hd.
  - now apply count_blocks_empty in Hd as [_ H].
  - cbn [body_size sizes size_distribution].
    destruct (max_by_is_max snd rest first) as [Hin Hmax].
    pose proof (sort_perm (fun a b => Qltb b a) (map fst (first :: rest))) as Hperm.
    split_and!.
    + destruct (some_span blocks) as [Hall|Hex]; [|exact Hex].
      exfalso. assert (H : fold_left count_block blocks [] = [])
        by (apply count_blocks_empty; auto).
      congruence.
    + exists (snd (max_by snd first rest)). split.
      * now destruct (max_by snd first rest).
      * intros size m Hm. apply (Hmax (size, m) Hm).
    + apply (Permutation_in _ (Permutation_sym Hperm)).
      apply (in_map fst) in Hin. exact Hin.
    + exact Hperm.
    + apply sizes_descending.
Qed.

End FontStatistics.

(* ===================================================================== *)
(** ** The outline assembler *)
(* ===================================================================== *)

Section Assembler.

Import PDFOutlineExtractor.

Variable font_stats : option font_statistics.

(** What a step of the heading loop can do: nothing, or append the cleaned
    text of an accepted block that is new. *)
Lemma heading_step_cases (st st' : list heading * gset string) (b : block) :
  heading_step font_stats st b = Ok st' →
  st' = st ∨
  ∃ lvl,
    is_likely_heading b font_stats = Ok (true, lvl) ∧
    clean_heading (text b) ≠ "" ∧
    (clean_heading (text b) ∉ snd st) ∧
    st' = ((fst st ++ [ {| h_level := "H" ++ str_int lvl;
                          h_text := clean_heading (text b);
                          h_page := page b |} ])%list,
           {[ clean_heading (text b) ]} ∪ snd st).
Proof.
  unfold heading_step.
  destruct (is_likely_heading b font_stats) as [[h lvl]|e]; simpl; [|discriminate].
  destruct h; [|intros [= <-]; now left].
  destruct (PyStr.truthy (clean_heading (text b))) eqn:Et; simpl;
    [|intros [= <-]; now left].
  destruct (bool_decide (clean_heading (text b) ∈ snd st)) eqn:Es; simpl;
    [intros [= <-]; now left|].
  intros [= <-]. right. exists lvl. split_and!.
  - reflexivity.
  - now apply truthy_nonempty.
  - now apply bool_decide_eq_false in Es.
  - reflexivity.
Qed.

(** An accepted block whose cleaned text is new is appended. *)
Lemma heading_step_new (st : list heading * gset string) (b : block) (lvl : Z) :
  is_likely_heading b font_stats = Ok (true, lvl) →
  clean_heading (text b) ≠ "" →
  clean_heading (text b) ∉ snd st →
  heading_step font_stats st b
  = Ok ((fst st ++ [ {| h_level := "H" ++ str_int lvl;
                        h_text := clean_heading (text b);
                        h_page := page b |} ])%list,
        {[ clean_heading (text b) ]} ∪ snd st).
Proof.
  intros Hh Ht Hs. unfold heading_step. rewrite Hh. simpl.
  apply truthy_nonempty in Ht. rewrite Ht.
  now rewrite bool_decide_eq_false_2.
Qed.

Lemma for_each_app {S A : Type} (body : S -> A -> result S) (l1 l2 : list A) (s : S) :
  for_each body (l1 ++ l2) s = Py.bind (for_each body l1 s) (for_each body l2).
Proof.
  revert s. induction l1 as [|a r IH]; intros s; simpl; [reflexivity|].
  destruct (body s a); simpl; [apply IH|reflexivity].
Qed.

(** The texts collected so far are distinct, not empty, and all recorded
    in [seen_headings]. *)
Lemma headings_distinct (blocks : list block) (st st' : list heading * gset string) :
  (NoDup (map h_text (fst st)) ∧
   Forall (fun h => h_text h ≠ "" ∧ h_text h ∈ snd st) (fst st)) →
  for_each (heading_step font_stats) blocks st = Ok st' →
  NoDup (map h_text (fst st')) ∧
  Forall (fun h => h_text h ≠ "" ∧ h_text h ∈ snd st') (fst st').
Proof.
  intros Hst Hrun.
  apply (for_each_invariant
           (fun s => NoDup (map h_text (fst s)) ∧
                     Forall (fun h => h_text h ≠ "" ∧ h_text h ∈ snd s) (fst s))
           (heading_step font_stats) blocks st st'); [assumption| |assumption].
  clear. intros s b s' [Hnd Hall] Hstep.
  apply heading_step_cases in Hstep as [->|(lvl & _ & Hne & Hnew & ->)];
    [now split|].
  cbn [fst snd]. split.
  - rewrite map_app. simpl. apply NoDup_app. split_and!.
    + assumption.
    + intros t Ht Ht'. apply list_elem_of_singleton in Ht'. subst t.
      apply list_elem_of_In, in_map_iff in Ht. destruct Ht as (h & Hh & Hin).
      apply list_elem_of_In in Hin.
      pose proof (proj1 (Forall_forall _ _) Hall h Hin) as [_ Hs].
      rewrite Hh in Hs. contradiction.
    + apply NoDup_singleton.
  - apply Forall_app. split.
    + eapply Forall_impl; [exact Hall|]. intros h [H1 H2].
      split; [assumption|set_solver].
    + constructor; [|constructor]. simpl. split; [assumption|set_solver].
Qed.

(** The headings are found in the order of the blocks. *)
Lemma headings_in_block_order (blocks : list block)
    (st st' : list heading * gset string) :
  for_each (heading_step font_stats) blocks st = Ok st' →
  ∃ bs, sublist bs blocks ∧
        map h_text (fst st')
        = (map h_text (fst st) ++ map (fun b => clean_heading (text b)) bs)%list ∧
        map h_page (fst st') = (map h_page (fst st) ++ map page bs)%list.
Proof.
  revert st. induction blocks as [|b r IH]; intros st; simpl.
  - intros [= <-]. exists []. now rewrite !app_nil_r.
  - destruct (heading_step font_stats st b) as [s1|e] eqn:Hstep; simpl;
      [|discriminate].
    intros Hrun. destruct (IH s1 Hrun) as (bs & Hsub & Ht & Hp).
    apply heading_step_cases in Hstep as [->|(lvl & _ & _ & _ & ->)].
    + exists bs. split_and!; [now apply sublist_cons|assumption..].
    + exists (b :: bs). cbn [fst] in Ht, Hp. split_and!.
      * now apply sublist_skip.
      * rewrite Ht, map_app. simpl. now rewrite <- app_assoc.
      * rewrite Hp, map_app. simpl. now rewrite <- app_assoc.
Qed.

(** Whatever is in [seen_headings] is the cleaned text of an accepted
    block met before. *)
Lemma seen_comes_from_blocks (blocks : list block)
    (st st' : list heading * gset string) :
  for_each (heading_step font_stats) blocks st = Ok st' →
  ∀ t, t ∈ snd st' →
       t ∈ snd st ∨
       ∃ b lvl, In b blocks ∧ is_likely_heading b font_stats = Ok (true, lvl) ∧
                clean_heading (text b) = t.
Proof.
  revert st. induction blocks as [|b r IH]; intros st; simpl.
  - intros [= <-] t Ht. now left.
  - destruct (heading_step font_stats st b) as [s1|e] eqn:Hstep; simpl;
      [|discriminate].
    intros Hrun t Ht. destruct (IH s1 Hrun t Ht) as [Hs1|(b' & lvl & Hin & Hh & Hc)].
    + apply heading_step_cases in Hstep as [->|(lvl & Hh & _ & _ & ->)];
        [now left|].
      cbn [snd] in Hs1. apply elem_of_union in Hs1 as [Hs1|Hs1]; [|now left].
      apply elem_of_singleton in Hs1. right. exists b, lvl. auto.
    + right. exists b', lvl. auto.
Qed.

Lemma headings_only_grow (blocks : list block)
    (st st' : list heading * gset string) :
  for_each (heading_step font_stats) blocks st = Ok st' →
  ∀ h, In h (fst st) → In h (fst st').
Proof.
  intros Hrun.
  apply (for_each_invariant (fun s => ∀ h, In h (fst st) → In h (fst s))
           (heading_step font_stats) blocks st st'); [auto| |assumption].
  intros s b s' Hs Hstep h Hh.
  apply heading_step_cases in Hstep as [->|(lvl & _ & _ & _ & ->)]; [auto|].
  cbn [fst]. apply in_or_app. left. auto.
Qed.

(** The first accepted block with a given cleaned text is the one whose
    page the heading carries. *)
Lemma first_occurrence_kept (pre post : list block) (b : block) (lvl : Z)
    (st' : list heading * gset string) :
  for_each (heading_step font_stats) (pre ++ b :: post) ([], ∅) = Ok st' →
  is_likely_heading b font_stats = Ok (true, lvl) →
  clean_heading (text b) ≠ "" →
  (∀ b' lvl', In b' pre → is_likely_heading b' font_stats = Ok (true, lvl') →
              clean_heading (text b') ≠ clean_heading (text b)) →
  In {| h_level := "H" ++ str_int lvl; h_text := clean_heading (text b);
        h_page := page b |} (fst st').
Proof.
  intros Hrun Hh Hne Hfirst. rewrite for_each_app in Hrun.
  destruct (for_each (heading_step font_stats) pre ([], ∅)) as [s1|e] eqn:Hpre;
    simpl in Hrun; [|discriminate].
  assert (Hnew : clean_heading (text b) ∉ snd s1).
  { intros Hin.
    destruct (seen_comes_from_blocks pre _ _ Hpre _ Hin)
      as [Hs|(b' & lvl' & Hb' & Hh' & Hc)]; [set_solver|].
    now apply (Hfirst b' lvl'). }
  rewrite (heading_step_new s1 b lvl Hh Hne Hnew) in Hrun. simpl in Hrun.
  apply (headings_only_grow post _ _ Hrun). cbn [fst].
  apply in_or_app. right. now left.
Qed.

(** Every heading comes from an accepted block: its text is the cleaned
    text of the block, its page the page of the block, its level the level
    the classifier gave. *)
Lemma headings_come_from_blocks (all blocks : list block)
    (st st' : list heading * gset string) :
  (∀ b, In b blocks → In b all) →
  for_each (heading_step font_stats) blocks st = Ok st' →
  Forall (fun h => ∃ b lvl,
            In b all ∧ is_likely_heading b font_stats = Ok (true, lvl) ∧
            h = {| h_level := "H" ++ str_int lvl;
                   h_text := clean_heading (text b); h_page := page b |})
         (fst st) →
  Forall (fun h => ∃ b lvl,
            In b all ∧ is_likely_heading b font_stats = Ok (true, lvl) ∧
            h = {| h_level := "H" ++ str_int lvl;
                   h_text := clean_heading (text b); h_page := page b |})
         (fst st').
Proof.
  revert st. induction blocks as [|b r IH]; intros st Hall; simpl.
  - now intros [= <-].
  - destruct (heading_step font_stats st b) as [s1|e] eqn:Hstep; simpl;
      [|discriminate].
    intros Hrun Hst. apply (IH s1); [intros b' Hb'; apply Hall; now right|assumption|].
    apply heading_step_cases in Hstep as [->|(lvl & Hh & _ & _ & ->)];
      [assumption|].
    cbn [fst]. apply Forall_app. split; [assumption|].
    constructor; [|constructor]. exists b, lvl. split_and!; auto.
    apply Hall. now left.
Qed.

(** On blocks with a text, the heading loop does not raise. *)
Lemma heading_loop_returns (blocks : list block) (st : list heading * gset string) :
  Forall (fun b => text b ≠ "") blocks →
  ∃ st', for_each (heading_step font_stats) blocks st = Ok st'.
Proof.
  intros H. revert st. induction H as [|b r Hb _ IH]; intros st; simpl.
  - eauto.
  - destruct (is_likely_heading_total b font_stats Hb) as ([h lvl] & Hr).
    unfold heading_step at 1. rewrite Hr. simpl.
    destruct h; [|apply IH].
    destruct (_ && _); apply IH.
Qed.

End Assembler.

(* ===================================================================== *)
(** ** One document, and a directory of documents *)
(* ===================================================================== *)

Section Documents.

Import PDFOutlineExtractor.

Variable fitz_open : string -> result (list pdf_page).

Lemma read_pages_texts (doc : list pdf_page) (acc all_blocks : list block) :
  Forall (fun b => text b ≠ "") acc →
  for_each read_page doc acc = Ok all_blocks →
  Forall (fun b => text b ≠ "") all_blocks.
Proof.
  intros Hacc Hrun.
  apply (for_each_invariant (Forall (fun b => text b ≠ "")) read_page
           doc acc all_blocks); [assumption| |assumption].
  intros s pg s' Hs Hstep. unfold read_page in Hstep.
  destruct (extract_text_with_formatting pg) as [blocks|e] eqn:E;
    simpl in Hstep; [|discriminate].
  injection Hstep as <-. apply Forall_app. split; [assumption|].
  now apply (extract_texts pg).
Qed.

(** Reading the pages fails exactly when some page cannot be read. *)
Lemma read_pages_result (doc : list pdf_page) (acc : list block) :
  match for_each read_page doc acc with
  | Ok _ => Forall (fun pg => ∃ d, get_text pg = Ok d) doc
  | Raise e => ∃ pg, In pg doc ∧ get_text pg = Raise e
  end.
Proof.
  revert acc. induction doc as [|pg r IH]; intros acc; simpl; [constructor|].
  unfold read_page at 1, extract_text_with_formatting.
  destruct (get_text pg) as [d|e] eqn:E; simpl.
  - specialize (IH (acc ++ fold_left (read_block pg) d [])%list).
    destruct (for_each read_page r _) as [blocks|e].
    + constructor; [eauto|assumption].
    + destruct IH as (pg' & Hin & Hr). exists pg'. auto.
  - exists pg. auto.
Qed.

(** The body of [process_pdf] raises only when the document does not open
    or a page cannot be read; otherwise it returns the title and the
    headings of the loop, sorted by page. *)
Lemma process_pdf_body_result (pdf_path : string) :
  match process_pdf_body fitz_open pdf_path with
  | Ok r =>
      ∃ doc all_blocks st,
        fitz_open pdf_path = Ok doc ∧
        Forall (fun pg => ∃ d, get_text pg = Ok d) doc ∧
        for_each read_page doc [] = Ok all_blocks ∧
        for_each (heading_step (calculate_font_statistics all_blocks))
                 all_blocks ([], ∅) = Ok st ∧
        r = {| title := extract_title all_blocks
                          (List.filter (fun b => page b =? 1) all_blocks);
               outline := sort (fun a b => h_page a <? h_page b) (fst st) |}
  | Raise e =>
      fitz_open pdf_path = Raise e ∨
      ∃ doc pg, fitz_open pdf_path = Ok doc ∧ In pg doc ∧ get_text pg = Raise e
  end.
Proof.
  unfold process_pdf_body.
  destruct (fitz_open pdf_path) as [doc|e] eqn:Hopen; simpl; [|now left].
  pose proof (read_pages_result doc []) as Hread.
  destruct (for_each read_page doc []) as [all_blocks|e] eqn:Hblocks; simpl.
  - destruct (heading_loop_returns (calculate_font_statistics all_blocks)
                all_blocks ([], ∅)) as (st & Hst).
    { apply (read_pages_texts doc [] all_blocks); [constructor|assumption]. }
    rewrite Hst. simpl. exists doc, all_blocks, st. auto.
  - right. destruct Hread as (pg & Hin & Hr). exists doc, pg. auto.
Qed.

Lemma page_order (l : list heading) :
  StronglySorted (fun a b => h_page a <= h_page b)
                 (sort (fun a b => h_page a <? h_page b) l).
Proof.
  assert (Hs : StronglySorted (fun a b => (h_page b <? h_page a) = false)
                 (sort (fun a b => h_page a <? h_page b) l)).
  { apply (sort_sorted (fun a b => h_page a <? h_page b)).
    - intros a b H. apply Z.ltb_lt in H. apply Z.ltb_ge. lia.
    - intros a b c H1 H2. apply Z.ltb_ge in H1, H2. apply Z.ltb_ge. lia. }
  induction Hs as [|x r Hs IH Hx]; constructor; [assumption|].
  eapply Forall_impl; [exact Hx|]. intros y Hy. now apply Z.ltb_ge in Hy.
Qed.

(** C2. The headings of every outline are in ascending page order,
    headings of one page in the order in which they were found, which is
    the order of the blocks; no heading has an empty text, no two have the
    same text, and of several accepted blocks with the same cleaned text
    the first one gives the heading. A document that fails has no
    headings. *)
Theorem outline_sorted_nonempty_distinct (pdf_path : string) :
  let out := process_pdf fitz_open pdf_path in
  StronglySorted (fun a b => h_page a <= h_page b) (outline out) ∧
  Forall (fun h => h_text h ≠ "") (outline out) ∧
  NoDup (map h_text (outline out)) ∧
  ∀ doc all_blocks st,
    fitz_open pdf_path = Ok doc →
    for_each read_page doc [] = Ok all_blocks →
    for_each (heading_step (calculate_font_statistics all_blocks))
             all_blocks ([], ∅) = Ok st →
    Permutation (outline out) (fst st) ∧
    (∀ p, List.filter (fun h => h_page h =? p) (outline out)
          = List.filter (fun h => h_page h =? p) (fst st)) ∧
    (∃ bs, sublist bs all_blocks ∧
           map h_text (fst st) = map (fun b => clean_heading (text b)) bs ∧
           map h_page (fst st) = map page bs) ∧
    (∀ pre b post lvl,
       all_blocks = (pre ++ b :: post)%list →
       is_likely_heading b (calculate_font_statistics all_blocks) = Ok (true, lvl) →
       clean_heading (text b) ≠ "" →
       (∀ b' lvl', In b' pre →
          is_likely_heading b' (calculate_font_statistics all_blocks)
          = Ok (true, lvl') →
          clean_heading (text b') ≠ clean_heading (text b)) →
       In {| h_level := "H" ++ str_int lvl; h_text := clean_heading (text b);
             h_page := page b |} (outline out)).
Proof.
  intros out. subst out. unfold process_pdf.
  pose proof (process_pdf_body_result pdf_path) as Hbody.
  destruct (process_pdf_body fitz_open pdf_path) as [r|e]; simpl.
  - destruct Hbody as (doc & all_blocks & st & Hopen & _ & Hread & Hloop & ->).
    cbn [outline].
    destruct (headings_distinct (calculate_font_statistics all_blocks)
                all_blocks ([], ∅) st) as [Hnd Hall];
      [split; constructor | assumption |].
    pose proof (sort_perm (fun a b => h_page a <? h_page b) (fst st)) as Hperm.
    split_and!.
    + apply page_order.
    + apply Forall_forall. intros h Hh. rewrite Hperm in Hh.
      now apply (proj1 (Forall_forall _ _) Hall h Hh).
    + now rewrite (Permutation_map h_text Hperm).
    + intros doc' blocks' st' Hopen' Hread' Hloop'.
      rewrite Hopen in Hopen'. injection Hopen' as <-.
      rewrite Hread in Hread'. injection Hread' as <-.
      rewrite Hloop in Hloop'. injection Hloop' as <-.
      split_and!.
      * exact Hperm.
      * intros p. apply sort_filter. intros a b Ha Hb.
        apply Z.eqb_eq in Ha, Hb. apply Z.ltb_ge. lia.
      * destruct (headings_in_block_order _ _ _ _ Hloop) as (bs & Hsub & Ht & Hp).
        exists bs. auto.
      * intros pre b post lvl Hsplit Hh Hne Hfirst.
        apply (Permutation_in _ (Permutation_sym Hperm)).
        rewrite Hsplit in Hloop at 2.
        now apply (first_occurrence_kept _ pre post b lvl st Hloop).
  - split_and!; [constructor..|].
    intros doc blocks st Hopen Hread Hloop. exfalso.
    destruct Hbody as [Hb|(doc' & pg & Hopen' & Hin & Hr)]; [congruence|].
    rewrite Hopen in Hopen'. injection Hopen' as <-.
    pose proof (read_pages_result doc []) as Hres. rewrite Hread in Hres.
    destruct (proj1 (Forall_forall _ _) Hres pg (proj2 (list_elem_of_In _ _) Hin))
      as (d & Hd).
    congruence.
Qed.








(** The sample directory: three documents, three results, two of them the
    error result, and the readable one with its outline. *)
Lemma sample_directory_results :
  process_directory Samples.files "/app/input" "/app/output" Samples.listing
  = [ ("/app/output/good.json",
       {| title := "Doc Title";
          outline := [ {| h_level := "H1"; h_text := "Doc Title"; h_page := 1 |};
                       {| h_level := "H1"; h_text := "Introduction"; h_page := 1 |};
                       {| h_level := "H2"; h_text := "Background"; h_page := 1 |} ] |});
      ("/app/output/broken.json", error_result);
      ("/app/output/torn.json", error_result) ].
Proof. vm_compute. reflexivity. Qed.

(** X1. Every heading of an outline comes from a block of the document that
    the classifier accepted at level 1, 2 or 3: its text is that block's
    text after the cleaning expression and [strip], its page the block's
    page, its level ["H1"], ["H2"] or ["H3"] accordingly. *)
Theorem heading_provenance (pdf_path : string) :
  Forall (fun h =>
            ∃ doc all_blocks b lvl,
              fitz_open pdf_path = Ok doc ∧
              for_each read_page doc [] = Ok all_blocks ∧
              In b all_blocks ∧
              is_likely_heading b (calculate_font_statistics all_blocks)
              = Ok (true, lvl) ∧
              (lvl = 1 ∨ lvl = 2 ∨ lvl = 3) ∧
              h = {| h_level := "H" ++ str_int lvl;
                     h_text := PyStr.strip (Re.sub_prefix clean_items (text b));
                     h_page := page b |})
         (outline (process_pdf fitz_open pdf_path)).
Proof.
  unfold process_pdf.
  pose proof (process_pdf_body_result pdf_path) as Hbody.
  destruct (process_pdf_body fitz_open pdf_path) as [r|e]; simpl; [|constructor].
  destruct Hbody as (doc & all_blocks & st & Hopen & _ & Hread & Hloop & ->).
  cbn [outline].
  pose proof (headings_come_from_blocks (calculate_font_statistics all_blocks)
                all_blocks all_blocks ([], ∅) st (fun b H => H) Hloop
                (Forall_nil_2 _)) as Hfrom.
  apply Forall_forall. intros h Hh.
  rewrite (sort_perm (fun a b => h_page a <? h_page b) (fst st)) in Hh.
  destruct (proj1 (Forall_forall _ _) Hfrom h Hh) as (b & lvl & Hb & Hacc & ->).
  exists doc, all_blocks, b, lvl. split_and!; auto.
  now apply (accepted_level b (calculate_font_statistics all_blocks)).
Qed.

(** The one-page document with a 24pt title, two numbered headings and a
    line of body text: the title is found, and the title line is itself
    the first heading of the outline. *)
Theorem one_page_outline :
  process_pdf (fun _ => Ok Samples.one_page) "doc.pdf"
  = {| title := "Doc Title";
       outline := [ {| h_level := "H1"; h_text := "Doc Title"; h_page := 1 |};
                    {| h_level := "H1"; h_text := "Introduction"; h_page := 1 |};
                    {| h_level := "H2"; h_text := "Background"; h_page := 1 |} ] |}.
Proof. vm_compute. reflexivity. Qed.

End Documents.

(* ===================================================================== *)
(** ** More facts about strings *)
(* ===================================================================== *)

Section StringFacts.

Lemma app_cons (a : ascii) (r x : string) : String a r ++ x = String a (r ++ x).
Proof. reflexivity. Qed.

Lemma app_empty_l (x : string) : "" ++ x = x.
Proof. reflexivity. Qed.

Lemma string_app_assoc (a b c : string) : (a ++ b) ++ c = a ++ b ++ c.
Proof.
  induction a as [|x a IH]; [reflexivity|].
  rewrite !app_cons. now rewrite IH.
Qed.

Lemma string_app_empty_r (s : string) : s ++ "" = s.
Proof.
  induction s as [|x s IH]; [reflexivity|]. rewrite app_cons. now rewrite IH.
Qed.

Lemma rev_str_app (acc s : string) :
  PyStr.rev_str acc s = PyStr.reverse s ++ acc.
Proof.
  unfold PyStr.reverse. revert acc.
  induction s as [|c s IH]; intros acc; simpl; [reflexivity|].
  rewrite (IH (String c acc)), (IH (String c "")).
  now rewrite string_app_assoc.
Qed.

Lemma reverse_cons (c : ascii) (s : string) :
  PyStr.reverse (String c s) = PyStr.reverse s ++ String c "".
Proof. unfold PyStr.reverse at 1. simpl. apply rev_str_app. Qed.

Lemma reverse_app (a b : string) :
  PyStr.reverse (a ++ b) = PyStr.reverse b ++ PyStr.reverse a.
Proof.
  induction a as [|c a IH].
  - rewrite app_empty_l. now rewrite string_app_empty_r.
  - rewrite app_cons, !reverse_cons, IH. apply string_app_assoc.
Qed.

Lemma reverse_involutive (s : string) : PyStr.reverse (PyStr.reverse s) = s.
Proof.
  induction s as [|c s IH]; [reflexivity|].
  rewrite reverse_cons, reverse_app, IH. reflexivity.
Qed.

Lemma lstrip_first (s : string) (c : ascii) (r : string) :
  PyStr.lstrip s = String c r → PyStr.isspace c = false.
Proof.
  induction s as [|x s IH]; simpl; [discriminate|].
  destruct (PyStr.isspace x) eqn:E; [assumption|].
  now intros [= <- _].
Qed.

Lemma lstrip_before (x : string) (c : ascii) (y : string) :
  PyStr.isspace c = false →
  PyStr.lstrip (x ++ String c y) = PyStr.lstrip x ++ String c y.
Proof.
  intros Hc. induction x as [|a x IH].
  - rewrite !app_empty_l. simpl. now rewrite Hc.
  - rewrite app_cons. simpl. destruct (PyStr.isspace a); [assumption|].
    now rewrite app_cons.
Qed.

(** [strip] leaves no white space at either end. *)
Lemma strip_stripped (s : string) : stripped (PyStr.strip s).
Proof.
  unfold stripped, PyStr.strip, PyStr.rstrip. split.
  - intros c r. destruct (PyStr.lstrip s) as [|c0 r0] eqn:E; [discriminate|].
    pose proof (lstrip_first s c0 r0 E) as Hc0.
    rewrite reverse_cons, (lstrip_before _ c0 "" Hc0), reverse_app.
    change (PyStr.reverse (String c0 "")) with (String c0 "").
    rewrite app_cons. now intros [= <- _].
  - intros c r. rewrite reverse_involutive. apply lstrip_first.
Qed.

End StringFacts.

Section Words.

Local Abbreviation solid :=
  (fun s : string => PyStr.forallb_str (fun c => negb (PyStr.isspace c)) s = true).

Lemma solid_app (a b : string) : solid a → solid b → solid (a ++ b).
Proof.
  intros Ha Hb. induction a as [|c a IH]; [exact Hb|].
  rewrite app_cons. cbn [PyStr.forallb_str] in *.
  apply andb_true_iff in Ha as [Hc Ha]. rewrite Hc. now apply IH.
Qed.

Lemma solid_digit (k : Z) : 0 <= k <= 9 → solid (digit k).
Proof.
  intros Hk.
  assert (H : k = 0 ∨ k = 1 ∨ k = 2 ∨ k = 3 ∨ k = 4 ∨ k = 5 ∨ k = 6 ∨ k = 7
              ∨ k = 8 ∨ k = 9) by lia.
  destruct_or!; subst; reflexivity.
Qed.

Lemma solid_str_nat (fuel : nat) (n : Z) : 0 <= n → solid (str_nat fuel n).
Proof.
  revert n. induction fuel as [|f IH]; intros n Hn; cbn [str_nat].
  - apply solid_digit. pose proof (Z.mod_pos_bound n 10). lia.
  - destruct (Z.ltb_spec n 10) as [H|H]; [apply solid_digit; lia|].
    apply solid_app.
    + apply IH. apply Z.div_pos; lia.
    + apply solid_digit. pose proof (Z.mod_pos_bound n 10). lia.
Qed.

Lemma solid_str_int (n : Z) : solid (str_int n).
Proof.
  unfold str_int. destruct (Z.ltb_spec n 0) as [H|H].
  - apply solid_app; [reflexivity|]. apply solid_str_nat. lia.
  - now apply solid_str_nat.
Qed.

Lemma str_nat_nonempty (fuel : nat) (n : Z) : str_nat fuel n ≠ "".
Proof.
  destruct fuel as [|f]; cbn [str_nat]; [discriminate|].
  destruct (n <? 10); [discriminate|].
  destruct (str_nat f (n / 10)); discriminate.
Qed.

Lemma split_from_solid (cur d : string) :
  solid d → cur ≠ "" ∨ d ≠ "" →
  PyStr.split_from cur d = [PyStr.reverse cur ++ d].
Proof.
  revert cur. induction d as [|c r IH]; intros cur Hd Hne;
    cbn [PyStr.split_from PyStr.forallb_str] in *.
  - destruct cur; [destruct Hne; congruence|]. now rewrite string_app_empty_r.
  - apply andb_true_iff in Hd as [Hc Hr]. apply negb_true_iff in Hc.
    rewrite Hc, IH; [|assumption|left; discriminate].
    now rewrite reverse_cons, string_app_assoc.
Qed.

(** "Page N" is two words. *)
Lemma page_title_words (n : Z) : words ("Page " ++ str_int n) = 2.
Proof.
  unfold words, PyStr.split.
  change ("Page " ++ str_int n)
    with (String "P" (String "a" (String "g" (String "e" (String " " (str_int n)))))).
  cbn [PyStr.split_from]. 
  change (PyStr.isspace "P") with false. change (PyStr.isspace "a") with false.
  change (PyStr.isspace "g") with false. change (PyStr.isspace "e") with false.
  change (PyStr.isspace " ") with true. cbn iota.
  rewrite split_from_solid; [reflexivity|apply solid_str_int|].
  right. unfold str_int. destruct (n <? 0); [discriminate|].
  apply str_nat_nonempty.
Qed.

End Words.

(* ===================================================================== *)
(** ** The reader of a page *)
(* ===================================================================== *)

Section Reader.

Import PDFOutlineExtractor.

Local Abbreviation block_of :=
  (fun (pg : pdf_page) (ln : line) =>
     {| text := PyStr.strip (line_text ln); info := line_info ln;
        page := number pg + 1 |}).

Local Abbreviation nonblank :=
  (fun ln : line => PyStr.truthy (PyStr.strip (line_text ln))).

Lemma read_lines_from (pg : pdf_page) (lns : list line) (blocks : list block) :
  fold_left (read_line pg) lns blocks
  = (blocks ++ map (block_of pg) (List.filter nonblank lns))%list.
Proof.
  revert blocks. induction lns as [|ln r IH]; intros blocks; simpl.
  - now rewrite app_nil_r.
  - rewrite IH. unfold read_line at 1.
    destruct (PyStr.truthy (PyStr.strip (line_text ln))); simpl; [|reflexivity].
    now rewrite <- app_assoc.
Qed.

Lemma read_blocks_from (pg : pdf_page) (d : list dict_block) (blocks : list block) :
  fold_left (read_block pg) d blocks
  = (blocks ++ map (block_of pg)
                 (List.filter nonblank
                    (flat_map lines
                       (List.filter (fun b => block_type b =? 0) d))))%list.
Proof.
  revert blocks. induction d as [|b r IH]; intros blocks; simpl.
  - now rewrite app_nil_r.
  - rewrite IH. unfold read_block at 1.
    destruct (block_type b =? 0); simpl; [|reflexivity].
    rewrite read_lines_from, List.filter_app, map_app. now rewrite <- app_assoc.
Qed.

Lemma line_text_spans (ln : line) : line_text ln ≠ "" → spans ln ≠ [].
Proof. unfold line_text. destruct (spans ln); [simpl; congruence|discriminate]. Qed.

Lemma line_info_text (ln : line) : spans_text (spans (line_info ln)) = line_text ln.
Proof.
  unfold line_info, line_text, spans_text. cbn [spans].
  generalize "". induction (spans ln) as [|sp r IH]; intros acc; simpl;
    [reflexivity|]. apply IH.
Qed.

(** What holds of every block the reader makes of a line. *)
Lemma block_of_line (pg : pdf_page) (ln : line) :
  PyStr.truthy (PyStr.strip (line_text ln)) = true →
  let b := block_of pg ln in
  text b ≠ "" ∧ stripped (text b) ∧
  text b = PyStr.strip (spans_text (spans (info b))) ∧
  spans (info b) ≠ [] ∧ page b = number pg + 1 ∧
  Forall (fun sp => ∃ k, span_size sp = Qmake k 10) (spans (info b)).
Proof.
  intros Hnb. cbn [text info page]. split_and!.
  - now apply truthy_nonempty.
  - apply strip_stripped.
  - now rewrite line_info_text.
  - unfold line_info. cbn [spans]. intros Hm. apply map_eq_nil in Hm.
    apply (line_text_spans ln); [|assumption].
    intros He. rewrite He in Hnb. discriminate.
  - reflexivity.
  - unfold line_info. cbn [spans]. apply Forall_forall. intros sp Hsp.
    apply list_elem_of_In, in_map_iff in Hsp. destruct Hsp as (sp0 & <- & _).
    cbn [span_size]. unfold round1. eauto.
Qed.

Lemma page_blocks (pg : pdf_page) (blocks : list block) :
  extract_text_with_formatting pg = Ok blocks →
  Forall (fun b => text b ≠ "" ∧ stripped (text b) ∧
                   text b = PyStr.strip (spans_text (spans (info b))) ∧
                   spans (info b) ≠ [] ∧ page b = number pg + 1 ∧
                   Forall (fun sp => ∃ k, span_size sp = Qmake k 10)
                          (spans (info b))) blocks.
Proof.
  unfold extract_text_with_formatting.
  destruct (get_text pg) as [d|e]; simpl; [|discriminate].
  intros [= <-]. rewrite read_blocks_from. simpl.
  apply Forall_forall. intros b Hb. apply list_elem_of_In, in_map_iff in Hb.
  destruct Hb as (ln & <- & Hln). apply filter_In in Hln as [_ Hnb].
  now apply (block_of_line pg ln).
Qed.

(** X3. The reader makes one block of every line of a text block whose
    spans, put together and stripped, are not empty, in the order of the
    page; blocks that are no text blocks are skipped. The text of a block
    is the stripped text of its spans: it is not empty and has no white
    space at either end. The block keeps the spans of its line with their
    sizes rounded to one decimal, and carries the number of the page plus
    one. The reader raises only when the page cannot be read. *)
Theorem reader_keeps_nonblank_lines (pg : pdf_page) :
  match extract_text_with_formatting pg with
  | Ok blocks =>
      ∃ d, get_text pg = Ok d ∧
           blocks = map (fun ln => {| text := PyStr.strip (line_text ln);
                                      info := line_info ln;
                                      page := number pg + 1 |})
                        (List.filter
                           (fun ln => PyStr.truthy (PyStr.strip (line_text ln)))
                           (flat_map lines
                              (List.filter (fun b => block_type b =? 0) d))) ∧
           Forall (fun b => text b ≠ "" ∧ stripped (text b) ∧
                            text b = PyStr.strip (spans_text (spans (info b))) ∧
                            spans (info b) ≠ [] ∧ page b = number pg + 1 ∧
                            Forall (fun sp => ∃ k, span_size sp = Qmake k 10)
                                   (spans (info b))) blocks
  | Raise e => get_text pg = Raise e
  end.
Proof.
  pose proof (page_blocks pg) as Hall.
  unfold extract_text_with_formatting in *.
  destruct (get_text pg) as [d|e]; simpl in *; [|reflexivity].
  exists d. split; [reflexivity|]. split.
  - rewrite read_blocks_from. reflexivity.
  - now apply Hall.
Qed.

(** The blocks of a document whose pages could all be read. *)
Lemma document_blocks (doc : list pdf_page) (acc all_blocks : list block) :
  for_each read_page doc acc = Ok all_blocks →
  ∃ new, all_blocks = (acc ++ new)%list ∧
         Forall (fun b => text b ≠ "" ∧ stripped (text b) ∧ spans (info b) ≠ [] ∧
                          ∃ pg, In pg doc ∧ page b = number pg + 1) new.
Proof.
  revert acc. induction doc as [|pg r IH]; intros acc; simpl.
  - intros [= <-]. exists []. split; [now rewrite app_nil_r|constructor].
  - unfold read_page at 1.
    destruct (extract_text_with_formatting pg) as [blocks|e] eqn:E; simpl;
      [|discriminate].
    intros Hrun. destruct (IH _ Hrun) as (new & -> & Hnew).
    exists (blocks ++ new)%list. split; [now rewrite <- app_assoc|].
    apply Forall_app. split.
    + eapply Forall_impl; [apply (page_blocks pg blocks E)|].
      intros b (H1 & H2 & _ & H3 & H4 & _). split_and!; auto.
      exists pg. split; [now left|assumption].
    + eapply Forall_impl; [exact Hnew|].
      intros b (H1 & H2 & H3 & pg' & Hin & Hp). split_and!; auto.
      exists pg'. split; [now right|assumption].
Qed.

End Reader.

(* ===================================================================== *)
(** ** The title *)
(* ===================================================================== *)

Section Title.

Import PDFOutlineExtractor.

(** One round of the loop over the first blocks: the candidate is
    replaced by a block with a span that is larger and has fewer than 150
    characters. *)
Lemma title_step_cases (st : Q * option string) (b : block) :
  (∃ size, title_candidate b size ∧ (fst st < size)%Q ∧
           title_step st b = (size, Some (text b))) ∨
  (title_step st b = st ∧
   ∀ size, title_candidate b size → (size <= fst st)%Q).
Proof.
  unfold title_step, title_candidate, dominant_size.
  destruct (spans (info b)) as [|first rest].
  - right. split; [reflexivity|]. now intros size [? _].
  - destruct (Qltb (fst st) (span_size (main_span first rest))) eqn:Eq;
      destruct (Z.ltb_spec (PyStr.len (text b)) 150) as [Hl|Hl]; simpl.
    + left. apply Qltb_true in Eq. eexists. split_and!; eauto.
    + right. split; [reflexivity|]. intros size [_ H]. lia.
    + right. split; [reflexivity|]. intros size [[= <-] _].
      now apply Qltb_false in Eq.
    + right. split; [reflexivity|]. intros size [_ H]. lia.
Qed.

(** The candidate after the loop: none, when no block qualifies; else the
    first of the largest blocks that qualify. *)
Lemma title_fold (l : list block) :
  let st := fold_left title_step l (0%Q, None) in
  (st = (0%Q, None) ∧
   ∀ b size, In b l → title_candidate b size → (size <= 0)%Q) ∨
  (∃ pre b post size,
     l = (pre ++ b :: post)%list ∧ title_candidate b size ∧ (0 < size)%Q ∧
     st = (size, Some (text b)) ∧
     (∀ b' size', In b' pre → title_candidate b' size' → (size' < size)%Q) ∧
     (∀ b' size', In b' post → title_candidate b' size' → (size' <= size)%Q)).
Proof.
  induction l as [|x l IH] using rev_ind; simpl.
  - left. split; [reflexivity|]. now intros b size [].
  - rewrite fold_left_app. simpl.
    destruct IH as [[-> Hnone]|(pre & b & post & size & -> & Hc & Hpos & -> & Hpre & Hpost)].
    + destruct (title_step_cases (0%Q, None) x)
        as [(size & Hc & Hlt & ->)|[-> Hle]]; cbn [fst] in *.
      * right. exists l, x, [], size. split_and!; auto.
        -- intros b' size' Hb' Hc'. eapply Qle_lt_trans; [|exact Hlt].
           now apply (Hnone b').
        -- now intros b' size' [].
      * left. split; [reflexivity|]. intros b size Hb Hcb.
        apply in_app_or in Hb as [Hb|[<-|[]]]; [now apply (Hnone b)|now apply Hle].
    + destruct (title_step_cases (size, Some (text b)) x)
        as [(size' & Hc' & Hlt & ->)|[-> Hle]]; cbn [fst] in *.
      * right. exists (pre ++ b :: post)%list, x, [], size'. split_and!; auto.
        -- eapply Qlt_trans; eassumption.
        -- intros b' s' Hb' Hcb'.
           apply in_app_or in Hb' as [Hb'|[<-|Hb']].
           ++ eapply Qlt_trans; [now apply (Hpre b')|assumption].
           ++ destruct Hc as [Hd _], Hcb' as [Hd' _].
              rewrite Hd in Hd'. injection Hd' as <-. assumption.
           ++ eapply Qle_lt_trans; [now apply (Hpost b')|assumption].
        -- now intros b' s' [].
      * right. exists pre, b, (post ++ [x])%list, size. split_and!; auto.
        -- now rewrite <- app_assoc.
        -- intros b' s' Hb' Hcb'.
           apply in_app_or in Hb' as [Hb'|[<-|[]]];
             [now apply (Hpost b')|now apply Hle].
Qed.

(** X4. The title is looked for among the first ten of the blocks given
    for the first page. A block qualifies when it has a span and fewer
    than 150 characters, and its size is that of its longest span. When
    no block qualifies with a size above zero, which includes a first page
    without blocks, the title is "Untitled Document". Otherwise it is the
    text of the first of the largest qualifying blocks, or "Untitled
    Document" should that text be empty. *)
Theorem title_is_first_largest_short_line (blocks first_page_blocks : list block) :
  let title := extract_title blocks first_page_blocks in
  let shown := firstn 10 first_page_blocks in
  (title = "Untitled Document" ∧
   ∀ b size, In b shown → title_candidate b size → (size <= 0)%Q) ∨
  (∃ pre b post size,
     shown = (pre ++ b :: post)%list ∧ title_candidate b size ∧ (0 < size)%Q ∧
     title = (if PyStr.truthy (text b) then text b else "Untitled Document") ∧
     (∀ b' size', In b' pre → title_candidate b' size' → (size' < size)%Q) ∧
     (∀ b' size', In b' post → title_candidate b' size' → (size' <= size)%Q)).
Proof.
  intros title shown. subst title shown. unfold extract_title.
  destruct first_page_blocks as [|b0 r0] eqn:E.
  { left. split; [reflexivity|]. now intros b size []. }
  rewrite <- E. clear E.
  destruct (title_fold (firstn 10 first_page_blocks))
    as [[-> Hnone]|(pre & b & post & size & Hl & Hc & Hpos & -> & Hpre & Hpost)].
  - left. split; [reflexivity|assumption].
  - right. exists pre, b, post, size. cbn [snd]. split_and!; auto.
Qed.

End Title.

(* ===================================================================== *)
(** ** Pages in order *)
(* ===================================================================== *)

Section Order.

Import PDFOutlineExtractor.

(** Sorting a sorted list changes nothing. *)
Lemma sort_sorted_id {A : Type} (lt : A -> A -> bool) (l : list A) :
  StronglySorted (fun a b => lt b a = false) l → sort lt l = l.
Proof.
  induction 1 as [|x r Hs IH Hx]; simpl; [reflexivity|].
  rewrite IH. destruct r as [|y r']; simpl; [reflexivity|].
  inversion Hx as [|? ? Hy _]; subst. now rewrite Hy.
Qed.

Lemma sorted_sublist {A : Type} (R : A -> A -> Prop) (l1 l2 : list A) :
  sublist l1 l2 → StronglySorted R l2 → StronglySorted R l1.
Proof.
  induction 1 as [|x l1 l2 Hsub IH|x l1 l2 Hsub IH]; intros Hs.
  - constructor.
  - inversion Hs as [|? ? Hs' Hx]; subst. constructor; [auto|].
    apply Forall_forall. intros y Hy.
    apply (proj1 (Forall_forall _ _) Hx). eapply elem_of_sublist; eassumption.
  - inversion Hs; subst. auto.
Qed.

Lemma sorted_app {A : Type} (R : A -> A -> Prop) (l1 l2 : list A) :
  StronglySorted R l1 → StronglySorted R l2 →
  (∀ x y, In x l1 → In y l2 → R x y) →
  StronglySorted R (l1 ++ l2).
Proof.
  intros H1 H2 H. induction H1 as [|x r Hs IH Hx]; simpl; [assumption|].
  constructor.
  - apply IH. intros a b Ha Hb. apply H; [now right|assumption].
  - apply Forall_app. split; [assumption|].
    apply Forall_forall. intros y Hy. apply H; [now left|now apply list_elem_of_In].
Qed.

Lemma sorted_map {A B : Type} (R : B -> B -> Prop) (f : A -> B) (l : list A) :
  StronglySorted (fun a b => R (f a) (f b)) l ↔ StronglySorted R (map f l).
Proof.
  induction l as [|x r IH]; simpl.
  - split; constructor.
  - split; intros H; inversion H as [|? ? Hs Hx]; subst; constructor.
    + now apply IH.
    + apply Forall_forall. intros y Hy. apply list_elem_of_In, in_map_iff in Hy.
      destruct Hy as (a & <- & Ha).
      apply (proj1 (Forall_forall _ _) Hx). now apply list_elem_of_In.
    + now apply IH.
    + apply Forall_forall. intros y Hy.
      apply (proj1 (Forall_forall _ _) Hx). apply list_elem_of_In, in_map.
      now apply list_elem_of_In.
Qed.

Lemma In_firstn {A : Type} (n : nat) (l : list A) (x : A) :
  In x (firstn n l) → In x l.
Proof.
  revert l. induction n as [|n IH]; intros [|y r]; simpl; try tauto.
  intros [->|H]; [now left|right; now apply IH].
Qed.

(** The blocks of pages that come in order are in page order. *)
Lemma read_pages_ordered (doc : list pdf_page) (acc all_blocks : list block) :
  pages_in_order doc →
  StronglySorted (fun a b => page a <= page b) acc →
  (∀ b pg, In b acc → In pg doc → page b <= number pg + 1) →
  for_each read_page doc acc = Ok all_blocks →
  StronglySorted (fun a b => page a <= page b) all_blocks.
Proof.
  unfold pages_in_order.
  revert acc. induction doc as [|pg r IH]; intros acc Hdoc Hacc Hle; simpl.
  - now intros [= <-].
  - unfold read_page at 1.
    destruct (extract_text_with_formatting pg) as [blocks|e] eqn:E; simpl;
      [|discriminate].
    assert (Hpg : Forall (fun b => page b = number pg + 1) blocks).
    { eapply Forall_impl; [apply (page_blocks pg blocks E)|].
      now intros b (_ & _ & _ & _ & H & _). }
    inversion Hdoc as [|? ? Hr Hfirst]; subst.
    apply IH; [assumption| |].
    + apply sorted_app; [assumption| |].
      * clear -Hpg. induction Hpg as [|b bs Hb Hrest IHb]; constructor;
          [assumption|].
        eapply Forall_impl; [exact Hrest|]. intros b' Hb'. simpl in *. lia.
      * intros x y Hx Hy.
        rewrite (proj1 (Forall_forall _ _) Hpg y (proj2 (list_elem_of_In _ _) Hy)).
        apply Hle; [assumption|now left].
    + intros b pg' Hb Hpg'.
      pose proof (proj1 (Forall_forall _ _) Hfirst pg'
                    (proj2 (list_elem_of_In _ _) Hpg')) as Hn.
      simpl in Hn.
      apply in_app_or in Hb as [Hb|Hb].
      * pose proof (Hle b pg Hb (or_introl eq_refl)). lia.
      * rewrite (proj1 (Forall_forall _ _) Hpg b (proj2 (list_elem_of_In _ _) Hb)).
        lia.
Qed.

(** X5. For a document whose pages can all be read and come with ascending
    numbers, the blocks are in page order and sorting the headings by page
    changes nothing: the outline is the list of headings as the loop over
    the blocks found them, so its headings follow the reading order of the
    blocks, also across pages. *)
Theorem outline_is_in_reading_order
    (fitz_open : string -> result (list pdf_page)) (pdf_path : string)
    (doc : list pdf_page) :
  fitz_open pdf_path = Ok doc →
  Forall readable doc →
  pages_in_order doc →
  ∃ all_blocks st,
    for_each read_page doc [] = Ok all_blocks ∧
    StronglySorted (fun a b => page a <= page b) all_blocks ∧
    for_each (heading_step (calculate_font_statistics all_blocks))
             all_blocks ([], ∅) = Ok st ∧
    outline (process_pdf fitz_open pdf_path) = fst st ∧
    ∃ bs, sublist bs all_blocks ∧
          map h_text (outline (process_pdf fitz_open pdf_path))
          = map (fun b => clean_heading (text b)) bs ∧
          map h_page (outline (process_pdf fitz_open pdf_path)) = map page bs.
Proof.
  intros Hopen Hread Hord. unfold process_pdf.
  pose proof (process_pdf_body_result fitz_open pdf_path) as Hbody.
  destruct (process_pdf_body fitz_open pdf_path) as [r|e].
  - destruct Hbody as (doc' & all_blocks & st & Hopen' & _ & Hblocks & Hloop & ->).
    rewrite Hopen in Hopen'. injection Hopen' as <-.
    assert (Hsorted : StronglySorted (fun a b => page a <= page b) all_blocks).
    { apply (read_pages_ordered doc [] all_blocks); auto; [constructor|].
      now intros b pg []. }
    destruct (headings_in_block_order _ all_blocks ([], ∅) st Hloop)
      as (bs & Hsub & Ht & Hp). simpl in Ht, Hp.
    assert (Hid : sort (fun a b => h_page a <? h_page b) (fst st) = fst st).
    { apply sort_sorted_id.
      assert (Hs : StronglySorted Z.le (map h_page (fst st))).
      { rewrite Hp. apply (proj1 (sorted_map Z.le page bs)).
        apply (sorted_sublist _ bs all_blocks Hsub Hsorted). }
      apply (proj2 (sorted_map Z.le h_page (fst st))) in Hs.
      clear -Hs. induction Hs as [|x r Hs IH Hx]; constructor; [assumption|].
      eapply Forall_impl; [exact Hx|]. intros y Hy. simpl in *.
      apply Z.ltb_ge. lia. }
    exists all_blocks, st. simpl. rewrite Hid. split_and!; auto.
    exists bs. auto.
  - exfalso. destruct Hbody as [Hb|(doc' & pg & Hopen' & Hin & Hr)]; [congruence|].
    rewrite Hopen in Hopen'. injection Hopen' as <-.
    destruct (proj1 (Forall_forall _ _) Hread pg (proj2 (list_elem_of_In _ _) Hin))
      as (d & Hd).
    congruence.
Qed.

Lemma ordered_sample_outline :
  ∃ all_blocks st,
    for_each read_page Samples.two_pages [] = Ok all_blocks ∧
    StronglySorted (fun a b => page a <= page b) all_blocks ∧
    for_each (heading_step (calculate_font_statistics all_blocks))
             all_blocks ([], ∅) = Ok st ∧
    outline (process_pdf Samples.shelf "/app/input/report.pdf") = fst st ∧
    ∃ bs, sublist bs all_blocks ∧
          map h_text (outline (process_pdf Samples.shelf "/app/input/report.pdf"))
          = map (fun b => clean_heading (text b)) bs ∧
          map h_page (outline (process_pdf Samples.shelf "/app/input/report.pdf"))
          = map page bs.
Proof.
  apply (outline_is_in_reading_order Samples.shelf "/app/input/report.pdf"
           Samples.two_pages).
  - reflexivity.
  - repeat constructor; eexists; reflexivity.
  - repeat constructor; simpl; lia.
Defined.

End Order.

(* ===================================================================== *)
(** ** The size distribution *)
(* ===================================================================== *)

Section SizeDistribution.

Import PDFOutlineExtractor.

Local Abbreviation add_span :=
  (fun (d : list (Q * Z)) (sp : span) =>
     add_count (span_size sp) (PyStr.len (span_text sp)) d).

(** The count kept for the size [k]. *)
Local Abbreviation count_of :=
  (fun (k : Q) (d : list (Q * Z)) =>
     total (map snd (List.filter (fun p => Qeq_bool (fst p) k) d))).

Lemma Qeq_bool_false (x y : Q) : Qeq_bool x y = false ↔ ¬ (x == y)%Q.
Proof.
  split.
  - intros H E. apply Qeq_bool_iff in E. congruence.
  - intros H. destruct (Qeq_bool x y) eqn:E; [|reflexivity].
    apply Qeq_bool_iff in E. contradiction.
Qed.

Lemma Qeq_bool_trans_l (k s x : Q) :
  Qeq_bool k s = true → Qeq_bool k x = Qeq_bool s x.
Proof.
  intros H. apply Qeq_bool_iff in H.
  destruct (Qeq_bool s x) eqn:E.
  - apply Qeq_bool_iff in E. apply Qeq_bool_iff. now rewrite H.
  - apply Qeq_bool_false in E. apply Qeq_bool_false. now rewrite H.
Qed.

Lemma count_blocks_spans (blocks : list block) (d : list (Q * Z)) :
  fold_left count_block blocks d = fold_left add_span (all_spans blocks) d.
Proof.
  unfold all_spans. revert d. induction blocks as [|b r IH]; intros d; simpl;
    [reflexivity|].
  rewrite fold_left_app. apply IH.
Qed.

Lemma add_count_total (s : Q) (n : Z) (d : list (Q * Z)) :
  total (map snd (add_count s n d)) = total (map snd d) + n.
Proof.
  induction d as [|[k v] r IH]; simpl; [lia|].
  destruct (Qeq_bool k s); simpl; [lia|]. rewrite IH. lia.
Qed.

Lemma add_count_of (k s : Q) (n : Z) (d : list (Q * Z)) :
  count_of k (add_count s n d)
  = count_of k d + (if Qeq_bool s k then n else 0).
Proof.
  induction d as [|[k' v] r IH]; simpl.
  - destruct (Qeq_bool s k); simpl; lia.
  - destruct (Qeq_bool k' s) eqn:E; simpl.
    + rewrite (Qeq_bool_trans_l k' s k E).
      destruct (Qeq_bool s k); simpl; lia.
    + destruct (Qeq_bool k' k); simpl; rewrite IH; lia.
Qed.

(** The sizes that are keys: a size is added at the end when no key is
    equal to it. *)
Lemma add_count_keys (s : Q) (n : Z) (d : list (Q * Z)) :
  map fst (add_count s n d)
  = if existsb (fun k => Qeq_bool k s) (map fst d) then map fst d
    else (map fst d ++ [s])%list.
Proof.
  induction d as [|[k v] r IH]; simpl; [reflexivity|].
  destruct (Qeq_bool k s); simpl; [reflexivity|].
  rewrite IH. now destruct (existsb _ (map fst r)).
Qed.

Lemma distinct_snoc (l : list Q) (s : Q) :
  ForallOrdPairs (fun a b => ¬ (a == b)%Q) l →
  existsb (fun k => Qeq_bool k s) l = false →
  ForallOrdPairs (fun a b => ¬ (a == b)%Q) (l ++ [s]).
Proof.
  induction 1 as [|k r Hk Hr IH]; simpl; intros Hs.
  - repeat constructor.
  - apply orb_false_iff in Hs as [Hks Hs]. constructor; [|now apply IH].
    apply Forall_app. split; [assumption|].
    constructor; [|constructor]. now apply Qeq_bool_false.
Qed.

(** After the loop over the spans [l], starting from [d]. *)
Lemma count_spans (l : list span) (d : list (Q * Z)) :
  let d' := fold_left add_span l d in
  (ForallOrdPairs (fun a b => ¬ (a == b)%Q) (map fst d) →
   ForallOrdPairs (fun a b => ¬ (a == b)%Q) (map fst d')) ∧
  (∀ k, count_of k d'
        = count_of k d
          + total (map (fun sp => PyStr.len (span_text sp))
                       (List.filter (fun sp => Qeq_bool (span_size sp) k) l))) ∧
  total (map snd d')
  = total (map snd d) + total (map (fun sp => PyStr.len (span_text sp)) l) ∧
  (∀ k, In k (map fst d') →
        In k (map fst d) ∨ ∃ sp, In sp l ∧ span_size sp = k) ∧
  (∀ sp, In sp l → ∃ k, In k (map fst d') ∧ (k == span_size sp)%Q) ∧
  (∀ k, In k (map fst d) → In k (map fst d')).
Proof.
  revert d. induction l as [|sp r IH]; intros d; simpl.
  - split_and!; auto; try (intros; lia); now intros sp [].
  - destruct (IH (add_span d sp)) as (Hd & Hc & Ht & Hk & Hs & Hm).
    assert (Hkeys := add_count_keys (span_size sp) (PyStr.len (span_text sp)) d).
    split_and!.
    + intros Hdist. apply Hd. rewrite Hkeys.
      destruct (existsb _ (map fst d)) eqn:E; [assumption|].
      now apply distinct_snoc.
    + intros k. rewrite Hc, add_count_of.
      destruct (Qeq_bool (span_size sp) k); simpl; lia.
    + rewrite Ht, add_count_total. lia.
    + intros k Hin. destruct (Hk k Hin) as [Hin'|(sp' & Hsp' & <-)].
      * rewrite Hkeys in Hin'.
        destruct (existsb _ (map fst d)); [now left|].
        apply in_app_or in Hin' as [Hin'|[<-|[]]]; [now left|].
        right. exists sp. auto.
      * right. exists sp'. auto.
    + intros sp' [<-|Hin]; [|now apply Hs].
      destruct (existsb (fun k => Qeq_bool k (span_size sp)) (map fst d)) eqn:E.
      * pose proof E as E'. apply existsb_exists in E' as (k & Hin & Hq).
        exists k. split; [|now apply Qeq_bool_iff]. apply Hm.
        rewrite Hkeys; try rewrite E; exact Hin.
      * exists (span_size sp). split; [|reflexivity].
        apply Hm. rewrite Hkeys; try rewrite E. apply in_or_app. right. now left.
    + intros k Hin. apply Hm. rewrite Hkeys.
      destruct (existsb _ (map fst d)); [assumption|].
      apply in_or_app. now left.
Qed.



(** X7. For the blocks read from a document, the statistics exist as soon
    as there is a block; every block has a span, and the size of its
    longest span is, as a number, one of the listed sizes. So when
    [process_pdf] classifies a block, the font rule is never skipped for
    lack of statistics or of spans. A document without a block has no
    statistics. Reading raises only on a page that cannot be read. *)
Theorem statistics_cover_every_block (doc : list pdf_page) :
  match for_each read_page doc [] with
  | Ok all_blocks =>
      match calculate_font_statistics all_blocks with
      | Some stats =>
          all_blocks ≠ [] ∧
          Forall (fun b => ∃ size k, dominant_size b = Some size ∧
                                     In k (sizes stats) ∧ (k == size)%Q)
                 all_blocks
      | None => all_blocks = []
      end
  | Raise e => ∃ pg, In pg doc ∧ get_text pg = Raise e
  end.
Proof.
  pose proof (read_pages_result doc []) as Hres.
  destruct (for_each read_page doc []) as [all_blocks|e] eqn:Hread; [|exact Hres].
  destruct (document_blocks doc [] all_blocks Hread) as (new & -> & Hnew).
  simpl. unfold calculate_font_statistics. rewrite count_blocks_spans.
  destruct (count_spans (all_spans new) []) as (_ & _ & _ & _ & Hs & _).
  simpl in Hs.
  destruct (fold_left add_span (all_spans new) []) as [|first rest] eqn:E.
  - destruct new as [|b r]; [reflexivity|]. exfalso.
    inversion Hnew as [|? ? (_ & _ & Hsp & _) _]; subst.
    destruct (spans (info b)) as [|sp l] eqn:Eb; [congruence|].
    destruct (Hs sp) as (k & [] & _). unfold all_spans. simpl.
    rewrite Eb. now left.
  - cbn [sizes]. split.
    + intros ->. discriminate.
    + apply Forall_forall. intros b Hb.
      pose proof (proj1 (Forall_forall _ _) Hnew b Hb) as (_ & _ & Hsp & _).
      unfold dominant_size.
      destruct (spans (info b)) as [|sp l] eqn:Eb; [congruence|].
      destruct (max_by_is_max (fun x => PyStr.len (span_text x)) l sp) as [Hin _].
      fold (main_span sp l) in Hin.
      destruct (Hs (main_span sp l)) as (k & Hk & Hq).
      { unfold all_spans. apply in_flat_map. exists b.
        split; [now apply list_elem_of_In|now rewrite Eb]. }
      exists (span_size (main_span sp l)), k. split_and!; auto.
      apply (Permutation_in _ (Permutation_sym
               (sort_perm (fun a b => Qltb b a) (map fst (first :: rest))))).
      exact Hk.
Qed.

End SizeDistribution.

(* ===================================================================== *)
(** ** The names of the files written *)
(* ===================================================================== *)

Section Names.

Import PDFOutlineExtractor.

Variable fitz_open : string -> result (list pdf_page).









(** Three files of a listing and the names of what is written for them. *)
Lemma sample_output_names :
  map fst (process_directory Samples.shelf "/app/input" "/app/output"
             ["report.pdf"; "REPORT.PDF"; "notes.txt"; "draft.v2.pdf"])
  = ["/app/output/report.json"; "/app/output/REPORT.PDF";
     "/app/output/draft.v2.json"].
Proof. vm_compute. reflexivity. Qed.

End Names.

(* ===================================================================== *)
(** ** The segmenter *)
(* ===================================================================== *)

Section Segmenter.

Import DocumentIntelligence.

Variable sent_tokenize : string -> list string.
Variable fitz_open : string -> result (list pdf_page).

(** What the loop over the blocks keeps true, with [n] the number of the
    page being read. *)
Local Abbreviation well_formed :=
  (fun (n : Z) (st : list section * option section) =>
     (snd st = None → fst st = []) ∧
     Forall (fun s => title s ≠ "" ∧ words (title s) < 15 ∧ 1 <= page s <= n)
            (gathered st) ∧
     StronglySorted Z.le (map page (gathered st)) ∧
     match gathered st with
     | [] => True
     | first :: rest =>
         (opened_by_header first ∨ default_section first) ∧
         Forall opened_by_header rest
     end).

Local Abbreviation extended :=
  (fun (cur : section) (t : string) =>
     {| title := title cur; page := page cur;
        content := content cur ++ " " ++ t;
        subsections := subsections cur |}).

Lemma segment_block_cases (page_num : Z) (st : list section * option section)
    (b : dict_block) :
  let st' := segment_block page_num st b in
  (has_text b = false ∧ st' = st) ∨
  (has_text b = true ∧
   ∃ new, st' = (gathered st, Some new) ∧ title new ≠ "" ∧
          words (title new) < 15 ∧ page new = page_num + 1 ∧
          (content new = "" ∨ snd st = None ∧ default_section new)) ∨
  (has_text b = true ∧
   ∃ cur t, snd st = Some cur ∧ st' = (fst st, Some (extended cur t))).
Proof.
  unfold segment_block, has_text, gathered.
  destruct (block_type b =? 0); simpl; [|now left].
  destruct (PyStr.truthy (PyStr.strip (block_text b))) eqn:Et; [|now left].
  right. destruct (is_header b _ && _) eqn:Eh.
  - left. split; [reflexivity|]. eexists. split_and!; [reflexivity| | | |].
    + cbn [title]. now apply truthy_nonempty.
    + cbn [title]. apply andb_true_iff in Eh as [_ Hw]. now apply Z.ltb_lt in Hw.
    + reflexivity.
    + now left.
  - destruct (snd st) as [cur|] eqn:Ec.
    + right. split; [reflexivity|]. exists cur, (PyStr.strip (block_text b)).
      auto.
    + left. split; [reflexivity|]. eexists. split_and!; [reflexivity| | | |].
      * discriminate.
      * cbn [title]. rewrite page_title_words. lia.
      * reflexivity.
      * right. split; [reflexivity|]. split; [reflexivity|].
        cbn [content].
        destruct (PyStr.strip (block_text b)) as [|c r] eqn:Es; [discriminate|].
        exists c, r. split; [reflexivity|].
        destruct (strip_stripped (block_text b)) as [Hfirst _].
        now apply (Hfirst c r).
Qed.

Lemma extended_header (cur : section) (t : string) :
  opened_by_header cur → opened_by_header (extended cur t).
Proof.
  intros [H|(r & H)]; right; cbn [content]; rewrite H.
  - now exists t.
  - exists (r ++ " " ++ t). reflexivity.
Qed.

Lemma extended_default (cur : section) (t : string) :
  default_section cur → default_section (extended cur t).
Proof.
  intros (Ht & c & r & Hc & Hs). split; [exact Ht|].
  cbn [content]. rewrite Hc. exists c, (r ++ " " ++ t). now split.
Qed.

Lemma gathered_open (done : list section) (cur : section) :
  gathered (done, Some cur) = (done ++ [cur])%list.
Proof. reflexivity. Qed.

Lemma segment_block_well_formed (page_num : Z)
    (st : list section * option section) (b : dict_block) :
  0 <= page_num →
  well_formed (page_num + 1) st →
  well_formed (page_num + 1) (segment_block page_num st b).
Proof.
  intros Hn (Hnone & Hall & Hsorted & Hshape).
  destruct (segment_block_cases page_num st b)
    as [[_ ->]|[(_ & new & -> & Ht & Hw & Hp & Hc)|(_ & cur & t & Hcur & ->)]].
  - auto.
  - rewrite !gathered_open. cbn [fst snd]. split_and!.
    + discriminate.
    + apply Forall_app. split; [assumption|].
      constructor; [|constructor]. split_and!; [assumption..|lia|lia].
    + rewrite map_app. apply sorted_app; [assumption|repeat constructor|].
      intros x y Hx [<-|[]]. apply in_map_iff in Hx as (s & <- & Hs).
      apply list_elem_of_In in Hs.
      pose proof (proj1 (Forall_forall _ _) Hall s Hs) as (_ & _ & Hb). lia.
    + destruct (gathered st) as [|first rest] eqn:Eg; simpl.
      * split; [|constructor].
        destruct Hc as [Hc|[_ Hd]]; [left; now left|now right].
      * destruct Hshape as [Hf Hr]. split; [assumption|].
        apply Forall_app. split; [assumption|].
        constructor; [|constructor].
        destruct Hc as [Hc|[Hs _]]; [now left|].
        unfold gathered in Eg. rewrite Hs in Eg. rewrite (Hnone Hs) in Eg.
        discriminate.
  - rewrite !gathered_open. destruct st as [done c]. cbn [fst snd] in *.
    subst c. rewrite !gathered_open in *.
    apply Forall_app in Hall as [Hdone Hlast]. split_and!.
    + discriminate.
    + apply Forall_app. split; [assumption|].
      inversion Hlast; subst. constructor; [assumption|constructor].
    + rewrite map_app in *. exact Hsorted.
    + destruct done as [|first rest]; simpl in *.
      * destruct Hshape as [[Hh|Hd] _]; (split; [|constructor]).
        -- left. exact (extended_header cur t Hh).
        -- right. exact (extended_default cur t Hd).
      * destruct Hshape as [Hf Hr]. split; [assumption|].
        apply Forall_app in Hr as [Hr Hl]. apply Forall_app. split; [assumption|].
        inversion Hl as [|? ? Hcur' _]; subst. constructor; [|constructor].
        exact (extended_header cur t Hcur').
Qed.

Lemma well_formed_later (n m : Z) (st : list section * option section) :
  n <= m → well_formed n st → well_formed m st.
Proof.
  intros Hnm (H1 & H2 & H3 & H4). split_and!; auto.
  eapply Forall_impl; [exact H2|]. intros s (Ht & Hw & Hp).
  split_and!; [assumption..|lia|lia].
Qed.

Lemma segment_blocks_well_formed (page_num : Z) (d : list dict_block)
    (st : list section * option section) :
  0 <= page_num →
  well_formed (page_num + 1) st →
  well_formed (page_num + 1) (fold_left (segment_block page_num) d st).
Proof.
  intros Hn. revert st. induction d as [|b r IH]; intros st Hst; simpl;
    [assumption|].
  apply IH. now apply segment_block_well_formed.
Qed.

(** Nothing is gathered exactly as long as no block has text. *)
Lemma segment_blocks_empty (page_num : Z) (d : list dict_block)
    (st : list section * option section) :
  (snd st = None → fst st = []) →
  let st' := fold_left (segment_block page_num) d st in
  (snd st' = None → fst st' = []) ∧
  (gathered st' = [] ↔
   gathered st = [] ∧ Forall (fun b => has_text b = false) d).
Proof.
  revert st. induction d as [|b r IH]; intros st Hst; simpl.
  - split; [assumption|]. split; [auto|now intros [? _]].
  - assert (Hstep : (snd (segment_block page_num st b) = None →
                     fst (segment_block page_num st b) = []) ∧
                    (gathered (segment_block page_num st b) = [] ↔
                     gathered st = [] ∧ has_text b = false)).
    { destruct (segment_block_cases page_num st b)
        as [[Hb ->]|[(Hb & new & -> & _)|(Hb & cur & t & Hcur & ->)]].
      - split; [assumption|]. split; [auto|now intros [? _]].
      - split; [discriminate|]. rewrite gathered_open.
        split; [intros H; now apply app_eq_nil in H as [_ ?]|].
        intros [_ H]. congruence.
      - split; [discriminate|]. rewrite gathered_open.
        split; [intros H; now apply app_eq_nil in H as [_ ?]|].
        intros [_ H]. congruence. }
    destruct Hstep as [Hnone Hempty].
    destruct (IH _ Hnone) as [Hnone' Hempty']. split; [assumption|].
    rewrite Hempty', Hempty. split.
    + intros [[Hg Hb] Hr]. split; [assumption|]. now constructor.
    + intros [Hg Hall]. inversion Hall; subst. auto.
Qed.

(** The loop over the pages, the pages being numbered from [k]. *)
Lemma segment_pages (doc : list pdf_page) (k : nat)
    (st : list section * option section) :
  well_formed (Z.of_nat k) st →
  match for_each segment_page
                 (combine (map Z.of_nat (seq k (length doc))) doc) st with
  | Ok st' =>
      Forall readable doc ∧
      well_formed (Z.of_nat (k + length doc)) st' ∧
      (gathered st' = [] ↔
       gathered st = [] ∧ Forall (fun b => has_text b = false) (dict_blocks doc))
  | Raise e => ∃ pg, In pg doc ∧ get_text pg = Raise e
  end.
Proof.
  revert k st. induction doc as [|pg r IH]; intros k st Hst; simpl.
  - split; [constructor|]. split.
    + now rewrite Nat.add_0_r.
    + split; [auto|now intros [? _]].
  - unfold segment_page at 1. cbn [fst snd].
    destruct (get_text pg) as [d|e] eqn:Hd; simpl; [|exists pg; auto].
    assert (Hwf : well_formed (Z.of_nat k + 1)
                    (fold_left (segment_block (Z.of_nat k)) d st)).
    { apply segment_blocks_well_formed; [lia|].
      apply (well_formed_later (Z.of_nat k)); [lia|assumption]. }
    destruct (segment_blocks_empty (Z.of_nat k) d st (proj1 Hst))
      as [_ Hempty].
    specialize (IH (S k) (fold_left (segment_block (Z.of_nat k)) d st)).
    replace (Z.of_nat (S k)) with (Z.of_nat k + 1) in IH by lia.
    specialize (IH Hwf).
    destruct (for_each segment_page _ _) as [st'|e].
    + destruct IH as (Hread & Hwf' & Hempty'). split; [|split].
      * constructor; [now exists d|assumption].
      * replace (k + S (length r))%nat with (S k + length r)%nat by lia.
        exact Hwf'.
      * rewrite Hempty', Hempty, Forall_app. tauto.
    + destruct IH as (pg' & Hin & Hr). exists pg'. auto.
Qed.

Lemma some_text (d : list dict_block) :
  Forall (fun b => has_text b = false) d ∨ Exists (fun b => has_text b = true) d.
Proof.
  induction d as [|b r [IH|IH]].
  - left. constructor.
  - destruct (has_text b) eqn:E; [right; now left|left; now constructor].
  - right. now right.
Qed.

(** X9. The sections of a document that opens and whose pages can all be
    read: every section has a title that is not empty and has fewer than
    15 words, and a page between 1 and the number of pages, the sections come in page order, and the
    subsections of a section are those of its body. Only the first section
    can be one made for text before any header, named after its page; the
    body of every other section, when it is not empty, starts with a
    space. There is no section exactly when no text block has text.
    Otherwise the extraction raises what opening or reading raised. *)
Theorem sections_are_titled_and_paged (pdf_path : string) :
  match extract_document_structure sent_tokenize fitz_open pdf_path with
  | Ok sections =>
      ∃ doc,
        fitz_open pdf_path = Ok doc ∧ Forall readable doc ∧
        Forall (fun s => title s ≠ "" ∧ words (title s) < 15 ∧
                         1 <= page s <= Z.of_nat (length doc) ∧
                         subsections s
                         = extract_subsections sent_tokenize (content s))
               sections ∧
        StronglySorted (fun a b => page a <= page b) sections ∧
        match sections with
        | [] => Forall (fun b => has_text b = false) (dict_blocks doc)
        | first :: rest =>
            (opened_by_header first ∨ default_section first) ∧
            Forall opened_by_header rest ∧
            Exists (fun b => has_text b = true) (dict_blocks doc)
        end
  | Raise e =>
      fitz_open pdf_path = Raise e ∨
      ∃ doc pg, fitz_open pdf_path = Ok doc ∧ In pg doc ∧ get_text pg = Raise e
  end.
Proof.
  unfold extract_document_structure.
  destruct (fitz_open pdf_path) as [doc|e] eqn:Hopen; simpl; [|now left].
  pose proof (segment_pages doc 0 ([], None)) as Hloop.
  fold (enumerate doc) in Hloop.
  destruct (for_each segment_page (enumerate doc) ([], None)) as [st|e]; simpl.
  - destruct Hloop as (Hread & (_ & Hall & Hsorted & Hshape) & Hempty).
    { split_and!; [reflexivity|constructor|constructor|exact I]. }
    fold (gathered st). exists doc. split_and!; auto.
    + apply Forall_forall. intros s Hs.
      apply list_elem_of_In, in_map_iff in Hs. destruct Hs as (s0 & <- & Hs0).
      apply list_elem_of_In in Hs0.
      pose proof (proj1 (Forall_forall _ _) Hall s0 Hs0) as (Ht & Hw & Hp).
      cbn [title page content subsections]. split_and!; auto; lia.
    + apply (proj2 (sorted_map Z.le page _)). rewrite map_map. exact Hsorted.
    + destruct (gathered st) as [|first rest] eqn:Eg; simpl.
      * apply Hempty. reflexivity.
      * destruct Hshape as [Hf Hr]. split_and!.
        -- exact Hf.
        -- apply Forall_forall. intros s Hs.
           apply list_elem_of_In, in_map_iff in Hs.
           destruct Hs as (s0 & <- & Hs0). apply list_elem_of_In in Hs0.
           exact (proj1 (Forall_forall _ _) Hr s0 Hs0).
        -- destruct (some_text (dict_blocks doc)) as [Hno|Hsome]; [|exact Hsome].
           assert (Hnil : first :: rest = []) by
             (apply Hempty; split; [reflexivity|exact Hno]).
           discriminate.
  - right. destruct Hloop as (pg & Hin & Hr).
    { split_and!; [reflexivity|constructor|constructor|exact I]. }
    exists doc, pg. auto.
Qed.

(** *** No text is lost *)

Lemma made_from_extended (cur : section) (g : list dict_block) (b : dict_block) :
  header_block b = false →
  made_from cur g → made_from (extended cur (stripped_text b)) (g ++ [b]).
Proof.
  intros Hb. destruct g as [|b0 bs]; [intros []|]. simpl.
  intros [Hall Hs]. split.
  - apply Forall_app. split; [assumption|]. now repeat constructor.
  - rewrite map_app. unfold appended in *. rewrite !fold_left_app. simpl.
    destruct (header_block b0); destruct Hs as [Ht Hc]; rewrite Hc; auto.
Qed.

Lemma concat_snoc {A : Type} (gs : list (list A)) (g : list A) :
  concat (gs ++ [g]) = (concat gs ++ g)%list.
Proof. rewrite concat_app. simpl. now rewrite app_nil_r. Qed.

Lemma tail_snoc {A : Type} (l : list A) (x : A) :
  l ≠ [] → tail (l ++ [x]) = (tail l ++ [x])%list.
Proof. destruct l; [congruence|reflexivity]. Qed.

(** The groups behind the sections gathered so far: what one block adds. *)
Lemma segment_block_groups (page_num : Z) (st : list section * option section)
    (b : dict_block) (groups : list (list dict_block)) :
  (snd st = None → fst st = []) →
  Forall2 made_from (gathered st) groups →
  Forall headed (tail groups) →
  ∃ groups',
    Forall2 made_from (gathered (segment_block page_num st b)) groups' ∧
    Forall headed (tail groups') ∧
    concat groups' = (concat groups ++ List.filter has_text [b])%list.
Proof.
  intros Hnone Hm Hh. simpl.
  unfold segment_block, has_text in *.
  destruct (block_type b =? 0); simpl;
    [|exists groups; split_and!; [assumption..|now rewrite app_nil_r]].
  destruct (PyStr.truthy (PyStr.strip (block_text b))) eqn:Et; simpl;
    [|exists groups; split_and!; [assumption..|now rewrite app_nil_r]].
  fold (stripped_text b). fold (words (stripped_text b)).
  fold (header_block b). destruct (header_block b) eqn:Eh.
  - exists (groups ++ [[b]])%list.
    rewrite gathered_open, concat_snoc. split_and!; [| |reflexivity].
    + apply Forall2_app; [assumption|]. constructor; [|constructor].
      simpl. rewrite Eh. split; [constructor|]. split; reflexivity.
    + destruct groups as [|g gs]; [constructor|].
      rewrite tail_snoc by discriminate. apply Forall_app. split; [assumption|].
      constructor; [|constructor]. now exists b, [].
  - destruct st as [done [cur|]]; cbn [fst snd] in *.
    + rewrite !gathered_open in *.
      apply Forall2_app_inv_l in Hm as (gs & gl & Hgs & Hgl & ->).
      inversion Hgl as [|? g ? ? Hg Hnil]; subst. inversion Hnil; subst.
      exists (gs ++ [g ++ [b]])%list.
      rewrite !concat_snoc. split_and!; [| |now rewrite app_assoc].
      * apply Forall2_app; [assumption|]. constructor; [|constructor].
        now apply made_from_extended.
      * destruct gs as [|g0 gs]; [constructor|].
        rewrite tail_snoc in * by discriminate.
        apply Forall_app in Hh as [Hgs' Hlast]. apply Forall_app.
        split; [assumption|]. inversion Hlast as [|? ? (b0 & bs & -> & Hb0) _]; subst.
        constructor; [|constructor]. now exists b0, (bs ++ [b])%list.
    + rewrite (Hnone eq_refl) in Hm. unfold gathered in Hm. simpl in Hm.
      inversion Hm; subst.
      exists [[b]]. rewrite gathered_open, (Hnone eq_refl). split_and!.
      * constructor; [|constructor]. simpl. rewrite Eh.
        split; [constructor|]. split; reflexivity.
      * constructor.
      * reflexivity.
Qed.

Lemma segment_block_none (page_num : Z) (st : list section * option section)
    (b : dict_block) :
  (snd st = None → fst st = []) →
  snd (segment_block page_num st b) = None →
  fst (segment_block page_num st b) = [].
Proof.
  intros Hnone.
  destruct (segment_block_cases page_num st b)
    as [[_ ->]|[(_ & new & -> & _)|(_ & cur & t & _ & ->)]];
    [assumption|discriminate|discriminate].
Qed.

Lemma segment_blocks_groups (page_num : Z) (d : list dict_block)
    (st : list section * option section) (groups : list (list dict_block)) :
  (snd st = None → fst st = []) →
  Forall2 made_from (gathered st) groups →
  Forall headed (tail groups) →
  let st' := fold_left (segment_block page_num) d st in
  (snd st' = None → fst st' = []) ∧
  ∃ groups',
    Forall2 made_from (gathered st') groups' ∧
    Forall headed (tail groups') ∧
    concat groups' = (concat groups ++ List.filter has_text d)%list.
Proof.
  revert st groups. induction d as [|b r IH]; intros st groups Hnone Hm Hh; simpl.
  - split; [assumption|]. exists groups. split_and!; [assumption..|].
    now rewrite app_nil_r.
  - destruct (segment_block_groups page_num st b groups Hnone Hm Hh)
      as (g1 & Hm1 & Hh1 & Hc1).
    destruct (IH _ g1 (segment_block_none page_num st b Hnone) Hm1 Hh1)
      as (Hnone2 & g2 & Hm2 & Hh2 & Hc2).
    split; [assumption|]. exists g2. split_and!; [assumption..|].
    rewrite Hc2, Hc1. simpl. rewrite <- app_assoc.
    now destruct (has_text b).
Qed.

Lemma segment_pages_groups (pages : list (Z * pdf_page))
    (st st' : list section * option section) (groups : list (list dict_block)) :
  (snd st = None → fst st = []) →
  Forall2 made_from (gathered st) groups →
  Forall headed (tail groups) →
  for_each segment_page pages st = Ok st' →
  ∃ groups',
    Forall2 made_from (gathered st') groups' ∧
    Forall headed (tail groups') ∧
    concat groups'
    = (concat groups ++ List.filter has_text (dict_blocks (map snd pages)))%list.
Proof.
  revert st groups. induction pages as [|[i pg] r IH];
    intros st groups Hnone Hm Hh; simpl.
  - intros [= <-]. exists groups. split_and!; [assumption..|].
    now rewrite app_nil_r.
  - unfold segment_page at 1. cbn [fst snd].
    destruct (get_text pg) as [d|e] eqn:Hd; simpl; [|discriminate].
    intros Hrun.
    destruct (segment_blocks_groups i d st groups Hnone Hm Hh)
      as (Hnone1 & g1 & Hm1 & Hh1 & Hc1).
    destruct (IH _ g1 Hnone1 Hm1 Hh1 Hrun) as (g2 & Hm2 & Hh2 & Hc2).
    exists g2. split_and!; [assumption..|].
    rewrite Hc2, Hc1, List.filter_app. now rewrite app_assoc.
Qed.

Lemma enumerate_pages {A : Type} (l : list A) : map snd (enumerate l) = l.
Proof.
  unfold enumerate. generalize 0%nat.
  induction l as [|x r IH]; intros k; simpl; [reflexivity|].
  now rewrite IH.
Qed.

(** X10. No text is lost and none is repeated: the text blocks that are
    not blank, in the order of the document, are cut into consecutive
    groups, one for each section, a new group starting at every block that
    passes for a header and has fewer than 15 words, and only there. The
    stripped text of that block is the title of the section, and the
    stripped texts of the other blocks, each after a space, are its body.
    Only the first group can start with another block: its section is
    named after its page and the texts of all its blocks, with spaces
    between them, are its body. The extraction returns sections only for
    a document that opens and whose pages can all be read; when it raises,
    the document does not open or one of its pages cannot be read. *)
Theorem sections_partition_the_text (pdf_path : string) :
  match extract_document_structure sent_tokenize fitz_open pdf_path with
  | Ok sections =>
      ∃ doc groups,
        fitz_open pdf_path = Ok doc ∧ Forall readable doc ∧
        Forall2 made_from sections groups ∧
        Forall headed (tail groups) ∧
        concat groups = List.filter has_text (dict_blocks doc)
  | Raise e => ¬ opens fitz_open pdf_path
  end.
Proof.
  unfold extract_document_structure.
  destruct (fitz_open pdf_path) as [doc|e] eqn:Hopen; simpl.
  2: { intros (doc & Hdoc & _). rewrite Hopen in Hdoc. discriminate. }
  pose proof (segment_pages doc 0 ([], None)) as Hloop.
  fold (enumerate doc) in Hloop.
  destruct (for_each segment_page (enumerate doc) ([], None)) as [st|e] eqn:Hrun;
    simpl.
  - destruct (segment_pages_groups (enumerate doc) ([], None) st [])
      as (groups & Hm & Hh & Hc); [reflexivity|constructor|constructor|assumption|].
    rewrite enumerate_pages in Hc. simpl in Hc.
    destruct Hloop as (Hread & _).
    { split_and!; [reflexivity|constructor|constructor|exact I]. }
    exists doc, groups. fold (gathered st). split_and!; auto.
    clear -Hm. induction Hm as [|s g l gs Hs _ IH]; simpl; constructor;
      [|assumption].
    destruct g; [assumption|]. exact Hs.
  - destruct Hloop as (pg & Hin & Hr).
    { split_and!; [reflexivity|constructor|constructor|exact I]. }
    intros (doc' & Hdoc & Hread). rewrite Hopen in Hdoc. injection Hdoc as <-.
    destruct (proj1 (Forall_forall _ _) Hread pg (proj2 (list_elem_of_In _ _) Hin))
      as (d & Hd).
    congruence.
Qed.

(** What the extraction of a document gives, for the records made of its
    sections. *)
Lemma structure_sections (pdf_path : string) :
  match extract_document_structure sent_tokenize fitz_open pdf_path with
  | Ok sections =>
      opens fitz_open pdf_path ∧
      Forall (fun s => title s ≠ "" ∧ 1 <= page s) sections
  | Raise e => ¬ opens fitz_open pdf_path
  end.
Proof.
  unfold extract_document_structure.
  destruct (fitz_open pdf_path) as [doc|e] eqn:Hopen; simpl.
  2: { intros (doc & Hdoc & _). rewrite Hopen in Hdoc. discriminate. }
  pose proof (segment_pages doc 0 ([], None)) as Hloop.
  fold (enumerate doc) in Hloop.
  destruct (for_each segment_page (enumerate doc) ([], None)) as [st|e]; simpl.
  - destruct Hloop as (Hread & (_ & Hall & _) & _).
    { split_and!; [reflexivity|constructor|constructor|exact I]. }
    fold (gathered st). split; [now exists doc|].
    apply Forall_forall. intros s Hs.
    apply list_elem_of_In, in_map_iff in Hs. destruct Hs as (s0 & <- & Hs0).
    apply list_elem_of_In in Hs0.
    pose proof (proj1 (Forall_forall _ _) Hall s0 Hs0) as (Ht & _ & Hp).
    cbn [title page]. split; [assumption|lia].
  - destruct Hloop as (pg & Hin & Hr).
    { split_and!; [reflexivity|constructor|constructor|exact I]. }
    intros (doc' & Hdoc & Hread). rewrite Hopen in Hdoc. injection Hdoc as <-.
    destruct (proj1 (Forall_forall _ _) Hread pg (proj2 (list_elem_of_In _ _) Hin))
      as (d & Hd).
    congruence.
Qed.

End Segmenter.

(* ===================================================================== *)
(** ** What is written out *)
(* ===================================================================== *)

Section Output.

Import DocumentIntelligence.

Variable sent_tokenize : string -> list string.
Variable encode : string -> vec.
Variable cosine_similarity : vec -> vec -> Q.
Variable fitz_open : string -> result (list pdf_page).
Variable now_isoformat : string.

Lemma length_app_string (a b : string) :
  String.length (a ++ b) = (String.length a + String.length b)%nat.
Proof.
  induction a as [|c a IH]; [reflexivity|]. rewrite app_cons. simpl. now rewrite IH.
Qed.

Lemma prefix_length (n : nat) (s : string) :
  String.length (PyStr.prefix n s) = Nat.min n (String.length s).
Proof.
  unfold PyStr.prefix. revert s. induction n as [|n IH]; intros [|c r]; simpl;
    try reflexivity.
  now rewrite IH.
Qed.

Lemma content_preview_short (c : string) : PyStr.len (content_preview c) <= 203.
Proof.
  unfold content_preview, PyStr.len.
  destruct (Z.ltb_spec 200 (Z.of_nat (String.length c))) as [H|H]; [|lia].
  rewrite length_app_string, prefix_length.
  change (String.length "...") with 3%nat. lia.
Qed.

(** A record that is written out is a candidate with its rank put in and
    its score taken out. *)
Lemma emitted_in (cap : nat) (l : list (gmap string value)) (r : gmap string value) :
  In r (firstn cap (assign_ranks l)) → ∃ i s, In s l ∧ r = emitted_at i s.
Proof.
  intros H. apply In_firstn, list_elem_of_In, list_elem_of_lookup in H.
  destruct H as (i & Hi). rewrite assign_ranks_lookup in Hi.
  destruct (l !! i) as [s|] eqn:Hs; [|discriminate].
  injection Hi as <-. exists i, s. split; [|reflexivity].
  apply list_elem_of_In. eapply list_elem_of_lookup_2. exact Hs.
Qed.

Lemma section_record_entry (names : list string) (doc : string) (s : section)
    (x : Q) (i : nat) :
  In doc names → title s ≠ "" → 1 <= page s →
  section_entry names (emitted_at i (section_record doc s x)).
Proof.
  intros Hdoc Ht Hp. split.
  - unfold emitted_at, section_record, section_keys.
    rewrite dom_delete_L. rewrite !dom_insert_L, dom_empty_L.
    apply set_eq. intros k.
    rewrite !elem_of_difference, !elem_of_union, !elem_of_singleton, elem_of_empty.
    split.
    + intros [H Hne]. destruct_or!; subst; auto 10; try contradiction.
    + intros H. destruct_or!; subst; (split; [auto 10|discriminate]).
  - exists doc, (page s), (title s), (content_preview (content s)),
           (Z.of_nat i + 1).
    split_and!; auto; try reflexivity. apply content_preview_short.
Qed.

Lemma subsection_record_entry (names : list string) (doc : string) (s : section)
    (idx : Z) (sub : subsection) (x : Q) (i : nat) :
  In doc names → title s ≠ "" → 1 <= page s → 0 <= idx →
  subsection_entry names (emitted_at i (subsection_record doc s idx sub x)).
Proof.
  intros Hdoc Ht Hp Hi. split.
  - unfold emitted_at, subsection_record, subsection_keys.
    rewrite dom_delete_L. rewrite !dom_insert_L, dom_empty_L.
    apply set_eq. intros k.
    rewrite !elem_of_difference, !elem_of_union, !elem_of_singleton, elem_of_empty.
    split.
    + intros [H Hne]. destruct_or!; subst; auto 10; try contradiction.
    + intros H. destruct_or!; subst; (split; [auto 10|discriminate]).
  - exists doc, (page s), (title s), idx, (summary sub), (Z.of_nat i + 1).
    split_and!; auto; reflexivity.
Qed.

Lemma enumerate_index {A : Type} (l : list A) (p : Z * A) :
  In p (enumerate l) → 0 <= fst p.
Proof.
  intros H. apply list_elem_of_In, list_elem_of_lookup in H as (i & Hi).
  rewrite enumerate_lookup in Hi. destruct (l !! i); [|discriminate].
  injection Hi as <-. simpl. lia.
Qed.

Variable cfg : config.

(** The documents behind the pool of candidates. *)
Lemma pool_documents (docs : list string) (ds : list (string * list section)) :
  Forall2 (fun path d =>
             fst d = basename path ∧
             extract_document_structure sent_tokenize fitz_open path
             = Ok (snd d)) docs ds →
  Forall (opens fitz_open) docs ∧
  Forall (fun d => In (fst d) (map basename docs) ∧
                   Forall (fun s => title s ≠ "" ∧ 1 <= page s) (snd d)) ds.
Proof.
  induction 1 as [|path d docs ds [Hn Hx] _ [IH1 IH2]]; [split; constructor|].
  pose proof (structure_sections sent_tokenize fitz_open path) as Hs.
  rewrite Hx in Hs. destruct Hs as [Hopen Hsec]. split.
  - now constructor.
  - constructor.
    + split; [left; now rewrite Hn|assumption].
    + eapply Forall_impl; [exact IH2|]. intros d' [Hin Hall].
      split; [now right|assumption].
Qed.

(** What [process_documents] returns, and when it raises. *)
Lemma output_follows_the_pool :
  match process_documents sent_tokenize encode cosine_similarity fitz_open
                          now_isoformat cfg with
  | Ok out =>
      out_metadata out
      = {| input_documents := map basename (documents cfg);
           md_persona := persona cfg;
           md_job_to_be_done := job_to_be_done cfg;
           processing_timestamp := now_isoformat |} ∧
      Forall (section_entry (map basename (documents cfg)))
             (extracted_sections out) ∧
      Forall (subsection_entry (map basename (documents cfg)))
             (subsection_analysis out) ∧
      Forall (opens fitz_open) (documents cfg)
  | Raise e => ∃ path, In path (documents cfg) ∧ ¬ opens fitz_open path
  end.
Proof.
  unfold process_documents.
  pose proof (score_documents_from sent_tokenize encode cosine_similarity
                fitz_open cfg (documents cfg) ([], [])) as H.
  fold (score_documents sent_tokenize encode cosine_similarity fitz_open cfg) in H.
  destruct (score_documents _ _ _ _ cfg) as [st|e]; simpl.
  - destruct H as (ds & Hds & Hs & Hsub). simpl in Hs, Hsub.
    destruct (pool_documents _ _ Hds) as [Hopen Hdocs].
    split_and!.
    + reflexivity.
    + apply Forall_forall. intros r Hr. apply list_elem_of_In in Hr.
      apply emitted_in in Hr as (i & s & Hin & ->).
      apply (Permutation_in _ (sort_by_relevance_perm _)) in Hin.
      rewrite Hs in Hin. apply in_flat_map in Hin as (d & Hd & Hin).
      apply in_map_iff in Hin as (sec & <- & Hsec).
      pose proof (proj1 (Forall_forall _ _) Hdocs d (proj2 (list_elem_of_In _ _) Hd))
        as [Hname Hall].
      pose proof (proj1 (Forall_forall _ _) Hall sec
                    (proj2 (list_elem_of_In _ _) Hsec)) as [Ht Hp].
      now apply section_record_entry.
    + apply Forall_forall. intros r Hr. apply list_elem_of_In in Hr.
      apply emitted_in in Hr as (i & s & Hin & ->).
      apply (Permutation_in _ (sort_by_relevance_perm _)) in Hin.
      rewrite Hsub in Hin. apply in_flat_map in Hin as (d & Hd & Hin).
      apply in_flat_map in Hin as (sec & Hsec & Hin).
      apply in_map_iff in Hin as (p & <- & Hp).
      pose proof (proj1 (Forall_forall _ _) Hdocs d (proj2 (list_elem_of_In _ _) Hd))
        as [Hname Hall].
      pose proof (proj1 (Forall_forall _ _) Hall sec
                    (proj2 (list_elem_of_In _ _) Hsec)) as [Ht Hpg].
      apply subsection_record_entry; auto.
      now apply (enumerate_index (subsections sec)).
    + exact Hopen.
  - destruct H as (path & Hin & Hx). exists path. split; [assumption|].
    pose proof (structure_sections sent_tokenize fitz_open path) as Hs.
    now rewrite Hx in Hs.
Qed.

(** X11. When every document opens and can be read, the output holds the
    base names of the documents, the persona, the job and the time stamp;
    at most 15 section records and at most 20 subsection records; a
    section record has exactly the keys document, page, title,
    content_preview and importance_rank, and a subsection record exactly
    document, section_title, page, subsection_idx, refined_text and
    importance_rank. The document is the base name of a configured
    document, the page is at least 1, the title is not empty, the preview
    has at most 203 characters and the index is not negative. When a
    document does not open or has a page that cannot be read, nothing is
    returned: the exception is raised. *)
Theorem output_follows_the_schema :
  match process_documents sent_tokenize encode cosine_similarity fitz_open
                          now_isoformat cfg with
  | Ok out =>
      let names := map basename (documents cfg) in
      out_metadata out
      = {| input_documents := names; md_persona := persona cfg;
           md_job_to_be_done := job_to_be_done cfg;
           processing_timestamp := now_isoformat |} ∧
      (length (extracted_sections out) <= 15)%nat ∧
      (length (subsection_analysis out) <= 20)%nat ∧
      Forall (section_entry names) (extracted_sections out) ∧
      Forall (subsection_entry names) (subsection_analysis out) ∧
      Forall (opens fitz_open) (documents cfg)
  | Raise e => ∃ path, In path (documents cfg) ∧ ¬ opens fitz_open path
  end.
Proof.
  pose proof output_follows_the_pool as H. unfold process_documents in *.
  destruct (score_documents _ _ _ _ cfg) as [st|e]; simpl in *; [|exact H].
  destruct H as (Hm & Hs & Hsub & Hopen).
  split_and!; auto; apply firstn_le_length.
Qed.

End Output.

(* ===================================================================== *)
(** ** A run *)
(* ===================================================================== *)

Section Run.

Import DocumentIntelligence.

Lemma basename_from_plain (cur s : string) :
  plain_name s → basename_from cur s = PyStr.reverse cur ++ s.
Proof.
  unfold plain_name. revert cur. induction s as [|c r IH]; intros cur;
    cbn [PyStr.forallb_str basename_from].
  - intros _. now rewrite string_app_empty_r.
  - destruct (Ascii.eqb c "/"); cbn [negb andb]; [discriminate|].
    intros H. rewrite (IH _ H), reverse_cons, string_app_assoc. reflexivity.
Qed.

Lemma basename_from_slash (cur x s : string) :
  basename_from cur (x ++ "/" ++ s) = basename_from "" s.
Proof.
  revert cur. induction x as [|c r IH]; intros cur.
  - reflexivity.
  - rewrite app_cons. cbn [basename_from]. destruct (Ascii.eqb c "/"); apply IH.
Qed.

Lemma plain_name_relative (s : string) :
  plain_name s → PyStr.startswith s "/" = false.
Proof.
  unfold plain_name. destruct s as [|c r]; [reflexivity|].
  cbn [PyStr.forallb_str PyStr.startswith].
  rewrite (Ascii.eqb_sym "/" c). destruct (Ascii.eqb c "/"); [discriminate|].
  reflexivity.
Qed.

Lemma endswith_slash (a : string) :
  PyStr.endswith a "/" = true → ∃ x, a = x ++ "/".
Proof.
  unfold PyStr.endswith. change (PyStr.reverse "/") with "/".
  destruct (PyStr.reverse a) as [|c r] eqn:E; cbn [PyStr.startswith];
    [discriminate|].
  destruct (Ascii.eqb_spec "/" c) as [<-|]; [|discriminate]. intros _.
  exists (PyStr.reverse r).
  rewrite <- (reverse_involutive a), E, reverse_cons. reflexivity.
Qed.

(** The base name of a plain name joined to a directory is the name. *)
Lemma basename_join (dir name : string) :
  plain_name name → basename (path_join dir name) = name.
Proof.
  intros Hp. unfold path_join, basename.
  rewrite (plain_name_relative name Hp).
  destruct dir as [|c d] eqn:Ed.
  - simpl. rewrite app_empty_l. now rewrite basename_from_plain.
  - rewrite <- Ed. replace (negb (PyStr.truthy dir)) with false by now subst.
    simpl. destruct (PyStr.endswith dir "/") eqn:Ee.
    + apply endswith_slash in Ee as (x & ->).
      rewrite string_app_assoc, basename_from_slash.
      now rewrite basename_from_plain.
    + rewrite basename_from_slash. now rewrite basename_from_plain.
Qed.

Lemma basenames_join (dir : string) (names : list string) :
  Forall plain_name names →
  map basename (map (fun doc => path_join dir doc) names) = names.
Proof.
  induction 1 as [|n r Hn _ IH]; simpl; [reflexivity|].
  now rewrite basename_join, IH.
Qed.

Variable sent_tokenize : string -> list string.
Variable encode : string -> vec.
Variable cosine_similarity : vec -> vec -> Q.
Variable fitz_open : string -> result (list pdf_page).
Variable now_isoformat : string.
Variable read_config : string -> option config.

(** X12. A run whose [config.json] is read, and names its documents without
    a slash, looks for each document in the input directory. When they all
    open and can be read it writes [output.json] into the output
    directory, with the names of the documents as the configuration gives
    them, each record naming one of them. When one of them does not open
    or cannot be read, the run ends with the exception and writes
    nothing. *)
Theorem run_reads_the_input_directory (input_dir output_dir : string)
    (cfg : config) :
  read_config (path_join input_dir "config.json") = Some cfg →
  Forall plain_name (documents cfg) →
  match run sent_tokenize encode cosine_similarity fitz_open now_isoformat
            read_config input_dir output_dir with
  | Written output_path out =>
      output_path = path_join output_dir "output.json" ∧
      input_documents (out_metadata out) = documents cfg ∧
      md_persona (out_metadata out) = persona cfg ∧
      md_job_to_be_done (out_metadata out) = job_to_be_done cfg ∧
      Forall (section_entry (documents cfg)) (extracted_sections out) ∧
      Forall (subsection_entry (documents cfg)) (subsection_analysis out) ∧
      Forall (fun name => opens fitz_open (path_join input_dir name))
             (documents cfg)
  | ConfigError => False
  | Failed e =>
      ∃ name, In name (documents cfg) ∧
              ¬ opens fitz_open (path_join input_dir name)
  end.
Proof.
  intros Hcfg Hplain. unfold run. rewrite Hcfg.
  set (cfg' := {| documents := map (fun doc => path_join input_dir doc)
                                   (documents cfg);
                  persona := persona cfg;
                  job_to_be_done := job_to_be_done cfg |}).
  pose proof (output_follows_the_pool sent_tokenize encode cosine_similarity
                fitz_open now_isoformat cfg') as H.
  destruct (process_documents _ _ _ _ _ cfg') as [out|e].
  - destruct H as (Hm & Hs & Hsub & Hopen). subst cfg'. cbn [documents] in *.
    rewrite (basenames_join input_dir (documents cfg) Hplain) in *.
    rewrite Hm. cbn [input_documents md_persona md_job_to_be_done persona
                     job_to_be_done].
    split_and!; auto.
    apply Forall_forall. intros name Hname.
    apply (proj1 (Forall_forall _ _) Hopen).
    apply list_elem_of_In, in_map. now apply list_elem_of_In.
  - destruct H as (path & Hin & Hno). subst cfg'. cbn [documents] in Hin.
    apply in_map_iff in Hin as (name & <- & Hname). eauto.
Qed.

End Run.

Section RunSample.

Import DocumentIntelligence.

Lemma analyst_run :
  match run Samples.one_sentence Samples.by_length Samples.inner Samples.shelf
            "2026-01-01T00:00:00" Samples.read_analyst
            "/app/input" "/app/output" with
  | Written output_path out =>
      output_path = path_join "/app/output" "output.json" ∧
      input_documents (out_metadata out) = documents Samples.analyst ∧
      md_persona (out_metadata out) = persona Samples.analyst ∧
      md_job_to_be_done (out_metadata out) = job_to_be_done Samples.analyst ∧
      Forall (section_entry (documents Samples.analyst)) (extracted_sections out) ∧
      Forall (subsection_entry (documents Samples.analyst))
             (subsection_analysis out) ∧
      Forall (fun name => opens Samples.shelf (path_join "/app/input" name))
             (documents Samples.analyst)
  | ConfigError => False
  | Failed e =>
      ∃ name, In name (documents Samples.analyst) ∧
              ¬ opens Samples.shelf (path_join "/app/input" name)
  end.
Proof.
  apply (run_reads_the_input_directory Samples.one_sentence Samples.by_length
           Samples.inner Samples.shelf "2026-01-01T00:00:00"
           Samples.read_analyst "/app/input" "/app/output" Samples.analyst).
  - reflexivity.
  - repeat constructor.
Defined.

End RunSample.

(* ===================================================================== *)
(** ** Cleaning a heading *)
(* ===================================================================== *)

Section Cleaning.

Import PDFOutlineExtractor.

(** A greedy run takes all it can when what follows then matches. *)
Lemma star_exact (c : ascii -> bool) (k : string -> option string)
    (p r x : string) :
  PyStr.forallb_str c p = true →
  match r with String a _ => c a = false | EmptyString => True end →
  k r = Some x →
  Re.star c k (p ++ r) = Some x.
Proof.
  intros Hp Hr Hk. induction p as [|a p' IH].
  - rewrite app_empty_l. now rewrite star_skip.
  - cbn [PyStr.forallb_str] in Hp. apply andb_true_iff in Hp as [Ha Hp'].
    rewrite app_cons. cbn [Re.star]. rewrite Ha. now rewrite (IH Hp').
Qed.

Lemma numbering_is_no_space (a : ascii) :
  numbering_char a = true → PyStr.isspace a = false.
Proof.
  destruct a as [[] [] [] [] [] [] [] []]; vm_compute; intros H;
    try discriminate; reflexivity.
Qed.

Lemma space_is_no_numbering (a : ascii) :
  PyStr.isspace a = true → numbering_char a = false.
Proof.
  destruct a as [[] [] [] [] [] [] [] []]; vm_compute; intros H;
    try discriminate; reflexivity.
Qed.

Lemma lstrip_blank (lead s : string) :
  blank lead → PyStr.lstrip (lead ++ s) = PyStr.lstrip s.
Proof.
  unfold blank. induction lead as [|a r IH]; [reflexivity|].
  cbn [PyStr.forallb_str]. intros H. apply andb_true_iff in H as [Ha Hr].
  rewrite app_cons. cbn [PyStr.lstrip]. rewrite Ha. now apply IH.
Qed.

(** Where a text made of white space and a plain text starts. *)
Lemma gap_start (c : ascii -> bool) (gap body : string) :
  PyStr.forallb_str PyStr.isspace gap = true →
  (∀ a, PyStr.isspace a = true → c a = false) →
  match body with String a _ => c a = false | EmptyString => True end →
  match gap ++ body with String a _ => c a = false | EmptyString => True end.
Proof.
  intros Hg Hc Hb. destruct gap as [|a r]; [now rewrite app_empty_l|].
  rewrite app_cons. cbn [PyStr.forallb_str] in Hg.
  apply andb_true_iff in Hg as [Ha _]. now apply Hc.
Qed.

(** X13. Cleaning a heading takes off white space, then a run of digits,
    periods, hyphens, asterisks and the other characters of the class,
    then white space, and strips the rest: a text that starts plainly
    comes out stripped, with or without numbering before it. *)
Theorem numbering_is_taken_off (lead num gap body : string) :
  blank lead → numbering num → blank gap → starts_plainly body →
  clean_heading (lead ++ num ++ gap ++ body) = PyStr.strip body ∧
  clean_heading (lead ++ body) = PyStr.strip body.
Proof.
  unfold blank, numbering, starts_plainly.
  intros Hlead [Hne Hnum] Hgap Hbody. unfold clean_heading, Re.sub_prefix. split.
  - destruct num as [|a n]; [congruence|].
    cbn [PyStr.forallb_str] in Hnum. apply andb_true_iff in Hnum as [Ha Hn].
    assert (Hrun : Re.run clean_items (lead ++ String a n ++ gap ++ body)
                   = Some body).
    { unfold clean_items. cbn [Re.run].
      apply star_exact; [assumption| |].
      - rewrite app_cons. now apply numbering_is_no_space.
      - rewrite app_cons, Ha.
        apply star_exact; [assumption| |].
        + apply gap_start; [assumption|apply space_is_no_numbering|].
          destruct body; [exact I|]. apply Hbody.
        + apply star_exact; [assumption| |reflexivity].
          destruct body; [exact I|]. apply Hbody. }
    now rewrite Hrun.
  - assert (Hrun : Re.run clean_items (lead ++ body) = None).
    { unfold clean_items. cbn [Re.run].
      apply star_fails; [assumption| |].
      - destruct body; [exact I|]. apply Hbody.
      - intros q Hq.
        assert (Hs : match q ++ body with
                     | String b _ => numbering_char b = false
                     | EmptyString => True
                     end).
        { apply gap_start; [assumption|apply space_is_no_numbering|].
          destruct body; [exact I|]. apply Hbody. }
        destruct (q ++ body) as [|b r]; [reflexivity|]. now rewrite Hs. }
    rewrite Hrun. unfold PyStr.strip. now rewrite lstrip_blank.
Qed.

Lemma market_overview_is_cleaned :
  clean_heading ("" ++ "2.1" ++ " " ++ "Market Overview")
  = PyStr.strip "Market Overview" ∧
  clean_heading ("" ++ "Market Overview") = PyStr.strip "Market Overview".
Proof.
  apply (numbering_is_taken_off "" "2.1" " " "Market Overview").
  - reflexivity.
  - split; [discriminate|reflexivity].
  - reflexivity.
  - split; reflexivity.
Defined.

End Cleaning.

(* ===================================================================== *)
(** ** The title of a document *)
(* ===================================================================== *)

Section FirstPage.

Import PDFOutlineExtractor.

Variable fitz_open : string -> result (list pdf_page).

Lemma title_cases (blocks first_page_blocks : list block) :
  extract_title blocks first_page_blocks = "Untitled Document" ∨
  ∃ b size, In b (firstn 10 first_page_blocks) ∧ title_candidate b size ∧
            text b ≠ "" ∧ extract_title blocks first_page_blocks = text b.
Proof.
  unfold extract_title.
  destruct first_page_blocks as [|b0 r0] eqn:E; [now left|].
  rewrite <- E. clear E.
  destruct (title_fold (firstn 10 first_page_blocks))
    as [[-> _]|(pre & b & post & size & Hl & Hc & _ & -> & _)]; [now left|].
  cbn [snd]. destruct (text b) as [|c t] eqn:Et; [now left|].
  right. exists b, size. rewrite Hl, Et.
  split_and!; auto; first [discriminate | apply in_or_app; right; now left].
Qed.

(** X14. The title of a document is never empty. It is "Error Processing
    Document" when the document does not open or has a page that cannot
    be read, and otherwise "Untitled Document" or the text of a line of
    the document: one of the blocks made of page 1, with fewer than 150
    characters, so that a title is stripped and comes from the first page
    only. *)
Theorem title_comes_from_the_first_page (pdf_path : string) :
  let out := process_pdf fitz_open pdf_path in
  title out ≠ "" ∧
  (title out = "Error Processing Document" ∧ outline out = [] ∧
   ¬ opens fitz_open pdf_path ∨
   opens fitz_open pdf_path ∧
   (title out = "Untitled Document" ∨
    ∃ doc all_blocks b,
      fitz_open pdf_path = Ok doc ∧
      for_each read_page doc [] = Ok all_blocks ∧
      In b all_blocks ∧ page b = 1 ∧ title out = text b ∧
      PyStr.len (text b) < 150 ∧ stripped (text b))).
Proof.
  intros out. subst out. unfold process_pdf.
  pose proof (process_pdf_body_result fitz_open pdf_path) as Hbody.
  destruct (process_pdf_body fitz_open pdf_path) as [r|e]; simpl.
  - destruct Hbody as (doc & all_blocks & st & Hopen & Hread & Hblocks & _ & ->).
    cbn [title outline].
    destruct (title_cases all_blocks (List.filter (fun b => page b =? 1) all_blocks))
      as [->|(b & size & Hin & [_ Hlen] & Hne & ->)].
    + split; [discriminate|]. right. split; [now exists doc|now left].
    + split; [assumption|]. right. split; [now exists doc|]. right.
      apply In_firstn, filter_In in Hin as [Hin Hp]. apply Z.eqb_eq in Hp.
      exists doc, all_blocks, b. split_and!; auto.
      destruct (document_blocks doc [] all_blocks Hblocks) as (new & -> & Hnew).
      simpl in Hin. apply list_elem_of_In in Hin.
      now destruct (proj1 (Forall_forall _ _) Hnew b Hin) as (_ & Hs & _).
  - split; [discriminate|]. left. split_and!; [reflexivity..|].
    intros (doc & Hopen & Hread).
    destruct Hbody as [Hb|(doc' & pg & Hopen' & Hin & Hr)]; [congruence|].
    rewrite Hopen in Hopen'. injection Hopen' as <-.
    destruct (proj1 (Forall_forall _ _) Hread pg (proj2 (list_elem_of_In _ _) Hin))
      as (d & Hd).
    congruence.
Qed.

End FirstPage.

(* ===================================================================== *)
(** ** Levels by font size *)
(* ===================================================================== *)

Section Levels.

Import PDFOutlineExtractor.

(** A line without numbering that is accepted has the level of the size of
    its longest span. *)
Lemma font_level (b : block) (stats : font_statistics) (lvl : Z) (size : Q) :
  find (fun p => Re.matches (items p) (text b)) numbered = None →
  is_likely_heading b (Some stats) = Ok (true, lvl) →
  dominant_size b = Some size →
  lvl = size_level size (body_size stats).
Proof.
  unfold is_likely_heading, dominant_size. intros Hfind.
  destruct (200 <? PyStr.len (text b)); [discriminate|]. rewrite Hfind.
  destruct (spans (info b)) as [|first rest]; [discriminate|].
  intros H [= <-].
  destruct (_ || is_bold _); [|discriminate].
  destruct (_ <=? 10); [|discriminate].
  destruct (_ || PyStr.isupper _); [now injection H as <-|].
  destruct (text b) as [|c r]; [discriminate|].
  destruct (_ && negb _); [now injection H as <-|discriminate].
Qed.

Lemma size_level_antitone (s1 s2 body : Q) :
  (s1 <= s2)%Q → size_level s2 body <= size_level s1 body.
Proof.
  intros Hle. apply double_monotone in Hle. unfold size_level.
  destruct (Qltb (fmul body 1.5) (double s1)) eqn:E1.
  - apply Qltb_true in E1.
    replace (Qltb (fmul body 1.5) (double s2)) with true; [lia|].
    symmetry. apply Qltb_true. eapply Qlt_le_trans; eassumption.
  - destruct (Qltb (fmul body 1.3) (double s1)) eqn:E2.
    + apply Qltb_true in E2.
      destruct (Qltb (fmul body 1.5) (double s2)); [lia|].
      replace (Qltb (fmul body 1.3) (double s2)) with true; [lia|].
      symmetry. apply Qltb_true. eapply Qlt_le_trans; eassumption.
    + destruct (Qltb (fmul body 1.5) (double s2)); [lia|].
      destruct (Qltb (fmul body 1.3) (double s2)); lia.
Qed.

(** X15. Of two lines without numbering that are accepted as headings
    against the same statistics, the one whose longest span is larger
    never gets the deeper level. *)
Theorem larger_font_never_gives_a_deeper_level (b1 b2 : block)
    (stats : font_statistics) (l1 l2 : Z) (s1 s2 : Q) :
  find (fun p => Re.matches (items p) (text b1)) numbered = None →
  find (fun p => Re.matches (items p) (text b2)) numbered = None →
  is_likely_heading b1 (Some stats) = Ok (true, l1) →
  is_likely_heading b2 (Some stats) = Ok (true, l2) →
  dominant_size b1 = Some s1 →
  dominant_size b2 = Some s2 →
  (s1 <= s2)%Q →
  l2 <= l1.
Proof.
  intros Hf1 Hf2 H1 H2 Hs1 Hs2 Hle.
  rewrite (font_level b1 stats l1 s1 Hf1 H1 Hs1).
  rewrite (font_level b2 stats l2 s2 Hf2 H2 Hs2).
  now apply size_level_antitone.
Qed.

Lemma summary_above_methodology :
  is_likely_heading Samples.methodology (Some Samples.body_10pt) = Ok (true, 3) ∧
  is_likely_heading (Samples.fragment "Summary" 14 0 1) (Some Samples.body_10pt)
  = Ok (true, 2) ∧
  2 <= 3.
Proof.
  split_and!; [reflexivity..|].
  apply (larger_font_never_gives_a_deeper_level
           Samples.methodology (Samples.fragment "Summary" 14 0 1)
           Samples.body_10pt 3 2 11 14); try reflexivity.
  unfold Qle. simpl. lia.
Defined.

End Levels.

(* ===================================================================== *)
(** ** The shape of a heading *)
(* ===================================================================== *)

Section HeadingShape.

Import PDFOutlineExtractor.

Lemma length_reverse (s : string) :
  String.length (PyStr.reverse s) = String.length s.
Proof.
  induction s as [|c s IH]; [reflexivity|].
  rewrite reverse_cons, length_app_string, IH. simpl. lia.
Qed.

Lemma lstrip_length (s : string) :
  (String.length (PyStr.lstrip s) <= String.length s)%nat.
Proof.
  induction s as [|c s IH]; simpl; [lia|].
  destruct (PyStr.isspace c); simpl; lia.
Qed.

Lemma strip_length (s : string) : PyStr.len (PyStr.strip s) <= PyStr.len s.
Proof.
  unfold PyStr.len, PyStr.strip, PyStr.rstrip. rewrite length_reverse.
  pose proof (lstrip_length (PyStr.reverse (PyStr.lstrip s))) as H1.
  rewrite length_reverse in H1. pose proof (lstrip_length s). lia.
Qed.

(** What a match leaves is an end of the text. *)
Lemma star_suffix (c : ascii -> bool) (k : string -> option string) :
  (∀ s x, k s = Some x → (String.length x <= String.length s)%nat) →
  ∀ s x, Re.star c k s = Some x → (String.length x <= String.length s)%nat.
Proof.
  intros Hk s. induction s as [|a r IH]; intros x; simpl; [apply Hk|].
  destruct (c a); [|apply (Hk (String a r))].
  destruct (Re.star c k r) as [y|] eqn:E.
  - intros [= <-]. specialize (IH y eq_refl). lia.
  - apply (Hk (String a r)).
Qed.

Lemma run_suffix (its : list Re.item) (s x : string) :
  Re.run its s = Some x → (String.length x <= String.length s)%nat.
Proof.
  revert s x. induction its as [|it rest IH]; intros s x; cbn [Re.run].
  - now intros [= <-].
  - destruct it as [c [| | |]|].
    + destruct s as [|a r]; [discriminate|]. destruct (c a); [|discriminate].
      intros H. apply IH in H. simpl. lia.
    + destruct s as [|a r]; [apply IH|]. destruct (c a); [|apply IH].
      destruct (Re.run rest r) as [y|] eqn:E; [|apply IH].
      intros [= <-]. apply IH in E. simpl. lia.
    + apply star_suffix. exact IH.
    + destruct s as [|a r]; [discriminate|]. destruct (c a); [|discriminate].
      intros H. apply (star_suffix c _ IH) in H. simpl. lia.
    + destruct (Re.at_end s); [apply IH|discriminate].
Qed.

Lemma clean_heading_length (t : string) :
  PyStr.len (clean_heading t) <= PyStr.len t.
Proof.
  unfold clean_heading, Re.sub_prefix.
  destruct (Re.run clean_items t) as [rest|] eqn:E; [|apply strip_length].
  apply run_suffix in E. pose proof (strip_length rest). unfold PyStr.len in *.
  lia.
Qed.

Lemma accepted_short (b : block) (font_stats : option font_statistics) (lvl : Z) :
  is_likely_heading b font_stats = Ok (true, lvl) → PyStr.len (text b) <= 200.
Proof.
  unfold is_likely_heading.
  destruct (Z.ltb_spec 200 (PyStr.len (text b))); [discriminate|]. intros _. lia.
Qed.

(** X16. Every heading of an outline has a text of at most 200 characters
    without white space at either end, made by the cleaning of a line of
    at most 200 characters, and its page is the number of a page of the
    document plus one. *)
Theorem headings_are_short_and_stripped
    (fitz_open : string -> result (list pdf_page)) (pdf_path : string) :
  Forall (fun h =>
            PyStr.len (h_text h) <= 200 ∧ stripped (h_text h) ∧
            ∃ doc pg, fitz_open pdf_path = Ok doc ∧ In pg doc ∧
                      h_page h = number pg + 1)
         (outline (process_pdf fitz_open pdf_path)).
Proof.
  unfold process_pdf.
  pose proof (process_pdf_body_result fitz_open pdf_path) as Hbody.
  destruct (process_pdf_body fitz_open pdf_path) as [r|e]; simpl; [|constructor].
  destruct Hbody as (doc & all_blocks & st & Hopen & _ & Hread & Hloop & ->).
  cbn [outline].
  pose proof (headings_come_from_blocks (calculate_font_statistics all_blocks)
                all_blocks all_blocks ([], ∅) st (fun b H => H) Hloop
                (Forall_nil_2 _)) as Hfrom.
  destruct (document_blocks doc [] all_blocks Hread) as (new & -> & Hnew).
  simpl in *.
  apply Forall_forall. intros h Hh.
  rewrite (sort_perm (fun a b => h_page a <? h_page b) (fst st)) in Hh.
  destruct (proj1 (Forall_forall _ _) Hfrom h Hh) as (b & lvl & Hb & Hacc & ->).
  cbn [h_text h_page]. split_and!.
  - pose proof (clean_heading_length (text b)).
    pose proof (accepted_short b _ lvl Hacc). lia.
  - apply strip_stripped.
  - apply list_elem_of_In in Hb.
    destruct (proj1 (Forall_forall _ _) Hnew b Hb) as (_ & _ & _ & pg & Hpg & Hp).
    exists doc, pg. auto.
Qed.

End HeadingShape.
